(** * eeg-visualizer: windowing, filter pipeline, segmentation, session state

    A shallow embedding of the signal-processing core of the repository
    (package [eegviz]) and the properties its specification states.

    Conventions.
    - Python floats are modelled as rationals ([Q]).  Where the rounding
      of an operation can decide what a function does (the accumulation
      and the loop test of [sliding_windows], the length test and the
      colour-range nudge of [build_frames], the minimum-duration
      correction of [validate_time_window], the arithmetic on marker
      times), the operation is followed by the rounding [rnd] of the
      float type, a parameter ([Float.Rounding]): [Float.exact] is
      exact arithmetic and [Float.binary64] is IEEE double precision,
      rounding to nearest.  The cells of a marker file can also be
      NaN, infinite, or text.  Elsewhere arithmetic is exact and
      equality of results is [Qeq] ([==]).  The one function that
      needs a logarithm, [contrast_db], is modelled over the real
      numbers ([R]).
    - Python object references are addresses into an explicit store, so
      that [raw.copy()] and in-place methods can be told apart.
    - The numerical routines of the MNE library (filters, resampling,
      spectral estimation, event extraction, the sum of annotations)
      and the mean of NumPy are parameters. *)

From Stdlib Require Import QArith Qround Qabs ZArith Lia.
From Stdlib Require Import Reals Psatz.
From stdpp Require Import gmap strings list fin_maps.

Open Scope Q_scope.

(** ** Python builtins on floats *)

Module Py.

Definition Qltb (x y : Q) : bool := negb (Qle_bool y x).

(** [min(a, b)] returns [b] when [b < a], else [a]. *)
Definition min (a b : Q) : Q := if Qltb b a then b else a.

(** [max(a, b)] returns [b] when [b > a], else [a]. *)
Definition max (a b : Q) : Q := if Qltb a b then b else a.

Definition Zmin (a b : Z) : Z := if (b <? a)%Z then b else a.
Definition Zmax (a b : Z) : Z := if (a <? b)%Z then b else a.

End Py.

(** ** Floating-point rounding *)

Module Float.

(** The rounding of the exact result of an arithmetic operation to the
    float type in use. *)
Class Rounding := { rnd : Q -> Q }.

(** Exact arithmetic: nothing is rounded. *)
Definition exact : Rounding := {| rnd := fun q => q |}.

(** [floor(log2 q)] for [q > 0]. *)
Definition ilog2 (q : Q) : Z :=
  let e := (Z.log2 (Qnum q) - Z.log2 (Zpos (Qden q)))%Z in
  if Qle_bool (Qpower 2 e) q then e else (e - 1)%Z.

(** The nearest integer, ties to the even one. *)
Definition round_half_even (q : Q) : Z :=
  let f := Qfloor q in
  match Qcompare (q - inject_Z f) (1 # 2) with
  | Lt => f
  | Gt => (f + 1)%Z
  | Eq => if Z.even f then f else (f + 1)%Z
  end.

(** IEEE 754 double precision, rounding to nearest, ties to even: 53
    significant bits, the least exponent [-1022] (subnormal numbers
    included).  Overflow to infinity is not modelled. *)
Definition round64 (q : Q) : Q :=
  match Qnum q with
  | 0%Z => 0
  | _ =>
      let a := Qabs q in
      let e := Z.max (ilog2 a) (-1022) in
      let u := Qpower 2 (e - 52) in
      let r := Qred (inject_Z (round_half_even (a / u)) * u) in
      if (Qnum q <? 0)%Z then - r else r
  end.

Definition binary64 : Rounding := {| rnd := round64 |}.

End Float.

(** ** preprocess/windows.py *)

Module Windows.

(** The tolerance [1e-9] of the loop test. *)
Definition tol : Q := 1 # 1000000000.

(** The minimum window width [0.25]. *)
Definition min_width : Q := 1 # 4.

Definition restrict_interval (total start end_ : Q) : Q * Q :=
  let start := Py.max 0 (Py.min start total) in
  let end_ := Py.max 0 (Py.min end_ total) in
  let end_ := if Qle_bool end_ start then Py.min total (start + min_width)
              else end_ in
  (start, end_).

Section WithRounding.
Context `{R : Float.Rounding}.

(** The generator [sliding_windows], consumed by [list(...)].  The loop
    runs while [t + win <= end + 1e-9], every sum being a float;
    [fuel] bounds the number of loop tests, and [None] means the fuel
    ran out before the loop stopped. *)
Fixpoint sliding_windows (fuel : nat) (start end_ win step : Q)
  : option (list (Q * Q)) :=
  match fuel with
  | O => None
  | S fuel' =>
      if Qle_bool (Float.rnd (start + win)) (Float.rnd (end_ + Float.rnd tol))
      then option_map (cons (start, Float.rnd (start + win)))
             (sliding_windows fuel' (Float.rnd (start + step)) end_ win step)
      else Some []
  end.

(** A single resumption of the generator from loop variable [t]: the
    window it yields and the next value of [t], or [None] when the
    generator is exhausted. *)
Definition sliding_windows_next (end_ win step t : Q)
  : option ((Q * Q) * Q) :=
  if Qle_bool (Float.rnd (t + win)) (Float.rnd (end_ + Float.rnd tol))
  then Some ((t, Float.rnd (t + win)), Float.rnd (t + step)) else None.

(** The loop variable [t] after [i] executions of [t += step]. *)
Fixpoint loop_var (step : Q) (i : nat) (start : Q) : Q :=
  match i with
  | O => start
  | S i' => loop_var step i' (Float.rnd (start + step))
  end.

(** The loop test [t + win <= end + 1e-9]. *)
Definition fits (end_ win t : Q) : bool :=
  Qle_bool (Float.rnd (t + win)) (Float.rnd (end_ + Float.rnd tol)).

End WithRounding.

(** A window index as a float. *)
Definition Qnat (i : nat) : Q := inject_Z (Z.of_nat i).

(** [x] lies outside the closed interval [[0, total]]. *)
Definition outside (total x : Q) : Prop := x < 0 \/ total < x.

(** A duration that is zero up to the module's tolerance. *)
Definition approx_zero (total : Q) : Prop := Qabs total <= tol.

(** The windowing clamp property as the specification words it. *)
Definition restrict_interval_spec (total start end_ : Q) : Prop :=
  outside total start -> outside total end_ ->
  let r := restrict_interval total start end_ in
  (0 <= fst r <= total) /\ (0 <= snd r <= total) /\
  (fst r < snd r \/
   (snd r == total /\ fst r == total /\ approx_zero total)).

(** The finiteness property of the generator as the specification
    words it: for these arguments some amount of fuel drains it. *)
Definition sliding_windows_finite `{R : Float.Rounding}
    (start end_ win step : Q) : Prop :=
  exists fuel ws, sliding_windows fuel start end_ win step = Some ws.

End Windows.

(** ** Effects: exceptions, divergence, the object store *)

(** A Python exception, with the text [str(e)] gives. *)
Inductive exn := Exn (msg : string).

Definition exn_msg (e : exn) : string := let 'Exn m := e in m.

(** The ways a call can end. [Diverges] stands for a loop that ran out
    of the fuel it was given. *)
Inductive run (A : Type) :=
| Returns (a : A)
| Raises (e : exn)
| Diverges.
Arguments Returns {A} a.
Arguments Raises {A} e.
Arguments Diverges {A}.

Definition run_bind {A B} (m : run A) (k : A -> run B) : run B :=
  match m with
  | Returns a => k a
  | Raises e => Raises e
  | Diverges => Diverges
  end.

(** A library routine that either returns or raises. *)
Definition lift_opt {A} (who : string) (o : option A) : run A :=
  match o with
  | Some a => Returns a
  | None => Raises (Exn who)
  end.

(** A float that may be NaN or infinite. *)
Inductive fval := Fin (q : Q) | NonFinite.

(** [np.isfinite(v).all()], returning the finite values. *)
Fixpoint all_finite (v : list fval) : option (list Q) :=
  match v with
  | [] => Some []
  | Fin q :: v' => option_map (cons q) (all_finite v')
  | NonFinite :: _ => None
  end.

Definition is_Some_b {A} (x : option A) : bool :=
  match x with Some _ => true | None => false end.

(** Python truthiness of a [float | None] argument. *)
Definition truthy (x : option Q) : bool :=
  match x with
  | Some q => negb (Qeq_bool q 0)
  | None => false
  end.

(** ** The MNE recording *)

Module Mne.

(** One annotation: onset and duration in seconds, and its label. *)
Record Annotation := mkAnnotation {
  onset : Q;
  duration : Q;
  description : string;
}.

(** A recording: [info["sfreq"]], channel names, [info["bads"]], the
    channels-by-samples matrix and the annotations. *)
Record Raw := mkRaw {
  sfreq : Q;
  ch_names : list string;
  bads : list string;
  data : list (list Q);
  annotations : list Annotation;
}.

(** [raw.n_times]: the number of samples per channel. *)
Definition n_times (r : Raw) : Z :=
  match data r with
  | [] => 0
  | c :: _ => Z.of_nat (length c)
  end.

Definition with_data (r : Raw) (d : list (list Q)) : Raw :=
  mkRaw (sfreq r) (ch_names r) (bads r) d (annotations r).

Definition with_rate_data (r : Raw) (sf : Q) (d : list (list Q)) : Raw :=
  mkRaw sf (ch_names r) (bads r) d (annotations r).

Definition with_annotations (r : Raw) (a : list Annotation) : Raw :=
  mkRaw (sfreq r) (ch_names r) (bads r) (data r) a.

(** An event row [(sample, 0, code)] and a label-to-code dict, in
    insertion order. *)
Abbreviation Event := (Z * Z * Z)%type.
Abbreviation EventId := (list (string * Z)).

(** What is kept of an [mne.Epochs] object: its surviving events and
    its [event_id]. *)
Record Epochs := mkEpochs {
  epoch_events : list Event;
  epoch_event_id : EventId;
}.

(** The arguments of [mne.Epochs(...)] besides the recording, the
    events and the [event_id]. *)
Record EpochArgs := mkEpochArgs {
  ea_tmin : Q;
  ea_tmax : Q;
  ea_baseline : option (Q * Q);
  ea_picks : option (list string);
  ea_reject_by_annotation : bool;
  ea_detrend : option Z;
  ea_decim : Z;
}.

(** The routines of the library the code calls.  Each takes the state
    of the object it is called on and returns the new sample matrix
    (or value), or [None] when the library raises. *)
Class Library := {
  resample_data : Raw -> Q -> option (list (list Q));
  notch_filter_data : Raw -> Q -> option (list (list Q));
  filter_data : Raw -> option Q -> Q -> option (list (list Q));
  interpolate_bads_data : Raw -> option (list (list Q));
  average_reference_data : Raw -> option (list (list Q));
  (** [raw.copy().crop(tmin, tmax)] *)
  crop : Raw -> Q -> Q -> option Raw;
  (** [compute_psd(fmin, fmax, picks, n_fft, n_overlap,
      reject_by_annotation='omit').get_data()]: channels by
      frequency bins. *)
  compute_psd : Raw -> Q -> Q -> option (list string) -> Z -> Z ->
                option (list (list fval));
  events_from_annotations : Raw -> option (list Event * EventId);
  make_epochs : Raw -> list Event -> EventId -> EpochArgs -> option Epochs;
  (** [np.percentile(frames, q)] *)
  percentile : list (list Q) -> Q -> option fval;
  (** [repr] of a [str] *)
  repr_str : string -> string;
}.

(** [a + b] on [mne.Annotations]: the annotations of both, in the
    order the library keeps them (by onset). *)
Class AnnotationSum := {
  annotations_add : list Annotation -> list Annotation -> list Annotation;
}.

(** The sum holds the annotations of both operands, each as often as
    they do. *)
Definition sum_keeps_all `{Sum : AnnotationSum} : Prop :=
  forall a b, annotations_add a b ≡ₚ a ++ b.

End Mne.

(** ** The store of recordings, and calls on them *)

Module Store.
Import Mne.

Definition addr := nat.

(** A method call made on a stored recording. *)
Inductive Call :=
| CallCopy (src dst : addr)
| CallResample (obj : addr) (rate : Q)
| CallNotchFilter (obj : addr) (freqs : Q)
| CallFilter (obj : addr) (l_freq : option Q) (h_freq : Q)
| CallInterpolateBads (obj : addr)
| CallSetEegReference (obj : addr)
| CallSetAnnotations (obj : addr).

Record World := mkWorld {
  heap : gmap addr Raw;
  trace : list Call;
}.

(** Stateful computations over the store. *)
Definition M (A : Type) : Type := World -> run A * World.

Definition ret {A} (a : A) : M A := fun w => (Returns a, w).

Definition bind {A B} (m : M A) (k : A -> M B) : M B :=
  fun w =>
    match m w with
    | (Returns a, w') => k a w'
    | (Raises e, w') => (Raises e, w')
    | (Diverges, w') => (Diverges, w')
    end.

Definition raise {A} (e : exn) : M A := fun w => (Raises e, w).

(** A computation that does not touch the store. *)
Definition lift_run {A} (m : run A) : M A := fun w => (m, w).

(** Reading the object behind a reference. *)
Definition deref (a : addr) : M Raw :=
  fun w =>
    match heap w !! a with
    | Some r => (Returns r, w)
    | None => (Raises (Exn "dangling reference"), w)
    end.

Definition log (c : Call) : M unit :=
  fun w => (Returns tt, mkWorld (heap w) (trace w ++ [c])).

Definition store (a : addr) (r : Raw) : M unit :=
  fun w => (Returns tt, mkWorld (<[a := r]> (heap w)) (trace w)).

(** [raw.copy()]: a new object with the same state. *)
Definition copy (a : addr) : M addr :=
  fun w =>
    match heap w !! a with
    | Some r =>
        let b := fresh (dom (heap w)) in
        (Returns b,
         mkWorld (<[b := r]> (heap w)) (trace w ++ [CallCopy a b]))
    | None => (Raises (Exn "dangling reference"), w)
    end.

(** An in-place method: the call is made on the object at [a]; when
    the library returns, the object is replaced by its new state. *)
Definition method (a : addr) (c : Call) (who : string)
    (f : Raw -> option Raw) : M unit :=
  bind (deref a) (fun r =>
  bind (log c) (fun _ =>
  match f r with
  | Some r' => store a r'
  | None => raise (Exn who)
  end)).

End Store.

Notation "x <- m ;; k" := (Store.bind m (fun x => k))
  (at level 100, m at next level, right associativity).
Notation "m ;;; k" := (Store.bind m (fun _ => k))
  (at level 100, right associativity).

(** ** preprocess/filtering.py *)

Module Filtering.
Import Mne Store.

(** [x or d] for a [float | None] left operand. *)
Definition py_or (x : option Q) (d : Q) : Q :=
  match x with
  | Some q => if Qeq_bool q 0 then d else q
  | None => d
  end.

(** The threshold [1e-6] of the resampling test. *)
Definition rate_tol : Q := 1 # 1000000.

Section WithLibrary.
Context `{lib : Library}.

Definition resample_step (proc : addr) (resample : option Q) : M unit :=
  p <- deref proc ;;
  match resample with
  | Some r =>
      if truthy resample && Py.Qltb rate_tol (Qabs (sfreq p - r))
      then method proc (CallResample proc r) "resample"
             (fun o => option_map (with_rate_data o r) (resample_data o r))
      else ret tt
  | None => ret tt
  end.

Definition notch_step (proc : addr) (notch : option Q) : M unit :=
  match notch with
  | Some f =>
      method proc (CallNotchFilter proc f) "notch_filter"
        (fun o => option_map (with_data o) (notch_filter_data o f))
  | None => ret tt
  end.

Definition filter_step (proc : addr) (l_freq h_freq : option Q)
  : M unit :=
  if is_Some_b l_freq || is_Some_b h_freq
  then
    p <- deref proc ;;
    let hf := Py.min (py_or h_freq (sfreq p / 2 - 1)) (sfreq p / 2 - 1) in
    method proc (CallFilter proc l_freq hf) "filter"
      (fun o => option_map (with_data o) (filter_data o l_freq hf))
  else ret tt.

Definition interpolate_step (proc : addr) (interpolate : bool)
  : M unit :=
  p <- deref proc ;;
  if interpolate && negb (Nat.eqb (length (bads p)) 0)
  then method proc (CallInterpolateBads proc) "interpolate_bads"
         (fun o => option_map (with_data o) (interpolate_bads_data o))
  else ret tt.

Definition reference_step (proc : addr) (ref_avg : bool) : M unit :=
  if ref_avg
  then method proc (CallSetEegReference proc) "set_eeg_reference"
         (fun o => option_map (with_data o) (average_reference_data o))
  else ret tt.

Definition apply_pipeline (raw : addr)
    (notch l_freq h_freq resample : option Q)
    (ref_avg interpolate : bool) : M addr :=
  proc <- copy raw ;;
  resample_step proc resample ;;;
  notch_step proc notch ;;;
  filter_step proc l_freq h_freq ;;;
  interpolate_step proc interpolate ;;;
  reference_step proc ref_avg ;;;
  ret proc.

End WithLibrary.

(** The sampling rate the recording has once the resampling step is
    over. *)
Definition current_rate (r : Raw) (resample : option Q) : Q :=
  match resample with
  | Some q =>
      if truthy resample && Py.Qltb rate_tol (Qabs (sfreq r - q))
      then q else sfreq r
  | None => sfreq r
  end.

(** The high cutoff of a band-filter call. *)
Definition cutoff_of (c : Call) : option Q :=
  match c with
  | CallFilter _ _ h => Some h
  | _ => None
  end.

(** The band-filter calls among a list of calls, as their high
    cutoffs. *)
Definition filter_cutoffs (cs : list Call) : list Q := omap cutoff_of cs.

(** The high cutoffs of the band-filter calls one run of the pipeline
    makes from world [w]. *)
Definition run_cutoffs `{lib : Library} (w : World) (raw : addr)
    (notch l_freq h_freq resample : option Q)
    (ref_avg interpolate : bool) : list Q :=
  filter_cutoffs
    (drop (length (trace w))
       (trace (snd (apply_pipeline raw notch l_freq h_freq resample
                      ref_avg interpolate w)))).

(** The Nyquist clamp as the specification words it: a request
    [h_freq >= sf/2] on a recording of rate [sf] never gives a cutoff
    [>= sf/2 - 1.0]. *)
Definition nyquist_clamp_spec `{lib : Library} (w : World) (raw : addr)
    (notch l_freq h_freq resample : option Q)
    (ref_avg interpolate : bool) : Prop :=
  forall r h,
    heap w !! raw = Some r ->
    h_freq = Some h ->
    sfreq r / 2 <= h ->
    forall hf,
      hf ∈ run_cutoffs w raw notch l_freq h_freq resample
             ref_avg interpolate ->
      hf < sfreq r / 2 - 1.

(** What every step of the pipeline keeps true of the world [w],
    relative to the world [w0] the pipeline started in and the copy
    [proc] it works on: the other objects are as they were, the copy
    is alive, and the band-filter calls made so far have cutoffs at
    most [bound]. *)
Record pipeline_inv (w0 : World) (proc : addr) (bound : Q) (w : World)
  : Prop := mkPipelineInv {
  inv_frame : forall a, a <> proc -> heap w !! a = heap w0 !! a;
  inv_alive : is_Some (heap w !! proc);
  inv_trace : exists calls,
      trace w = trace w0 ++ calls /\
      Forall (fun h => h <= bound) (filter_cutoffs calls);
}.

(** The library routines of the pipeline return on every input. *)
Definition library_returns `{lib : Library} : Prop :=
  forall o,
    (forall q, is_Some (resample_data o q)) /\
    (forall f, is_Some (notch_filter_data o f)) /\
    (forall l h, is_Some (filter_data o l h)) /\
    is_Some (interpolate_bads_data o) /\
    is_Some (average_reference_data o).

(** A computation that keeps [pipeline_inv], takes the rate of the
    copy from [sf_in] to [sf_out], returns only values in [R], never
    loops, and raises only if a library routine does. *)
Definition preserves `{lib : Library} {A} (w0 : World) (proc : addr)
    (bound : Q) (sf_in sf_out : Q) (R : A -> Prop) (m : M A) : Prop :=
  forall w p,
    pipeline_inv w0 proc bound w ->
    heap w !! proc = Some p ->
    sfreq p = sf_in ->
    match m w with
    | (Returns a, w') =>
        pipeline_inv w0 proc bound w' /\ R a /\
        exists p', heap w' !! proc = Some p' /\ sfreq p' = sf_out
    | (Raises _, w') => pipeline_inv w0 proc bound w' /\ ~ library_returns
    | (Diverges, _) => False
    end.

End Filtering.

(** ** NumPy *)

Module Np.

(** The mean of the floats of a list that is not empty, as
    [np.mean] and the [mean] method of an array compute it: the
    routine, with its own order of summation and rounding, is a
    parameter. *)
Class Numpy := { np_mean : list Q -> Q }.

(** The arithmetic mean in exact arithmetic, to run examples. *)
Definition exact_mean : Numpy :=
  {| np_mean vs := fold_right Qplus 0 vs / inject_Z (Z.of_nat (length vs)) |}.

End Np.

(** ** analysis/psd.py and analysis/bands.py *)

Module Psd.
Import Mne Np.

(** [n_fft] and [n_overlap] for a segment of [n] samples. *)
Definition fft_window (n : Z) : Z * Z :=
  let nfft := Py.Zmin 512 n in
  let nfft := Py.Zmax nfft 64 in
  let nover := Py.Zmax 0 (nfft / 2) in
  (nfft, nover).

Section WithLibrary.
Context `{np : Numpy} `{lib : Library}.

(** [mean] of one row: NaN for an empty row, non-finite as soon as an
    entry is. *)
Definition row_mean (row : list fval) : fval :=
  match row, all_finite row with
  | _ :: _, Some qs => Fin (np_mean qs)
  | _, _ => NonFinite
  end.

Definition bandpower_segment (raw_seg : Raw) (fmin fmax : Q)
    (picks : option (list string)) : run (list fval) :=
  let '(nfft, nover) := fft_window (n_times raw_seg) in
  run_bind
    (lift_opt "compute_psd"
       (compute_psd raw_seg fmin fmax picks nfft nover))
    (fun psd => Returns (map row_mean psd)).

Definition bandpower_mean (raw : Raw) (fmin fmax : Q)
    (picks : option (list string)) : run (list fval) :=
  let '(nfft, nover) := fft_window (n_times raw) in
  run_bind
    (lift_opt "compute_psd"
       (compute_psd raw fmin fmax picks nfft nover))
    (fun psd => Returns (map row_mean psd)).

End WithLibrary.

(** The claim on short segments as the specification words it: a
    segment of fewer than 64 samples gets a smaller window, one that
    fits the segment, and the estimate succeeds. *)
Definition short_segment_spec `{np : Numpy} `{lib : Library}
    (seg : Raw) (fmin fmax : Q)
    (picks : option (list string)) : Prop :=
  (n_times seg < 64)%Z ->
  (fst (fft_window (n_times seg)) <= n_times seg)%Z /\
  exists v, bandpower_segment seg fmin fmax picks = Returns v.

(** A library that refuses a spectral window longer than the data, as
    MNE's Welch estimate does. *)
Definition refuses_long_windows `{lib : Library} : Prop :=
  forall r fmin fmax picks n_fft n_overlap,
    (n_times r < n_fft)%Z ->
    compute_psd r fmin fmax picks n_fft n_overlap = None.

End Psd.

(** ** viz/temporal_gif.py *)

Module TemporalGif.
Import Mne Np Windows Psd.

(** [frames.min()] and [frames.max()] over all entries; [None] for an
    array without entries. *)
Definition flat_min (frames : list (list Q)) : option Q :=
  match concat frames with
  | [] => None
  | x :: xs => Some (fold_left Py.min xs x)
  end.

Definition flat_max (frames : list (list Q)) : option Q :=
  match concat frames with
  | [] => None
  | x :: xs => Some (fold_left Py.max xs x)
  end.

(** [np.vstack(vals)]: the rows must agree in length. *)
Definition vstack (vals : list (list Q)) : run (list (list Q)) :=
  match vals with
  | [] => Raises (Exn "need at least one array to concatenate")
  | v :: vs =>
      if forallb (fun u => Nat.eqb (length u) (length v)) vs
      then Returns vals
      else Raises (Exn "all the input array dimensions must match")
  end.

(** The nudge [1e-12] for a degenerate colour range. *)
Definition nudge : Q := 1 # 1000000000000.

Section WithLibrary.
Context `{R : Float.Rounding} `{np : Numpy} `{lib : Library}.

(** The body of the loop for one window: [None] when the window is
    skipped by a [continue]. *)
Definition window_frame (raw : Raw) (fmin fmax : Q)
    (picks : option (list string)) (w : Q * Q) : run (option (list Q)) :=
  run_bind (lift_opt "crop" (crop raw (fst w) (snd w))) (fun seg =>
  let nfft := Py.Zmin 512 (n_times seg) in
  if (nfft <? 32)%Z then Returns None
  else
    run_bind (bandpower_segment seg fmin fmax picks) (fun bp =>
    Returns (all_finite bp))).

(** The loop over the windows, collecting [vals] and [meta]. *)
Fixpoint collect_frames (raw : Raw) (fmin fmax : Q)
    (picks : option (list string)) (wins : list (Q * Q))
  : run (list (list Q) * list (Q * Q)) :=
  match wins with
  | [] => Returns ([], [])
  | w :: wins' =>
      run_bind (window_frame raw fmin fmax picks w) (fun f =>
      run_bind (collect_frames raw fmin fmax picks wins') (fun r =>
      Returns match f with
              | Some bp => (bp :: fst r, w :: snd r)
              | None => r
              end))
  end.

(** The shared colour range [(vmin, vmax)]. *)
Definition color_range (frames : list (list Q)) (pmin pmax : Q)
  : run (Q * Q) :=
  run_bind (lift_opt "percentile" (percentile frames pmin)) (fun vmin =>
  run_bind (lift_opt "percentile" (percentile frames pmax)) (fun vmax =>
  let fallback :=
    run_bind (lift_opt "min" (flat_min frames)) (fun lo =>
    run_bind (lift_opt "max" (flat_max frames)) (fun hi =>
    if Qeq_bool lo hi
    then Returns (Float.rnd (lo - Float.rnd nudge),
                  Float.rnd (hi + Float.rnd nudge))
    else Returns (lo, hi))) in
  match vmin, vmax with
  | Fin lo, Fin hi => if Qle_bool hi lo then fallback else Returns (lo, hi)
  | _, _ => fallback
  end)).

(** [build_frames]; the result [None] is the triple
    [(None, None, None)].  [fuel] bounds the draining of the window
    generator. *)
Definition build_frames (fuel : nat) (raw : Raw) (fmin fmax : Q)
    (picks : option (list string)) (start end_ win_len step pmin pmax : Q)
  : run (option (list (list Q) * list (Q * Q) * (Q * Q))) :=
  if Py.Qltb (Float.rnd (end_ - start)) (1 # 4) then Returns None
  else
    match sliding_windows fuel start end_ win_len step with
    | None => Diverges
    | Some ws =>
        let wins := match ws with [] => [(start, end_)] | _ => ws end in
        run_bind (collect_frames raw fmin fmax picks wins) (fun r =>
        match fst r with
        | [] => Returns None
        | _ =>
            run_bind (vstack (fst r)) (fun frames =>
            run_bind (color_range frames pmin pmax) (fun vr =>
            Returns (Some (frames, snd r, vr))))
        end)
    end.

End WithLibrary.

(** The fallback property as the specification words it: no window
    from the generator and a segment of at least 0.25 s give exactly
    one frame, over [[start, end]]. *)
Definition fallback_spec `{R : Float.Rounding} `{np : Numpy}
    `{lib : Library}
    (fuel : nat) (raw : Raw)
    (fmin fmax : Q) (picks : option (list string))
    (start end_ win_len step pmin pmax : Q) : Prop :=
  sliding_windows fuel start end_ win_len step = Some [] ->
  ~ Float.rnd (end_ - start) < 1 # 4 ->
  exists bp vr,
    build_frames fuel raw fmin fmax picks start end_ win_len step pmin pmax
    = Returns (Some ([bp], [(start, end_)], vr)).

End TemporalGif.

(** ** core/epochs.py *)

Module EpochsMod.
Import Mne.

(** The state of an [EpochManager]. *)
Record EpochManager := mkEpochManager {
  last_epochs : option Epochs;
  last_event_id : option EventId;
}.

(** [x in labels] for a list of strings. *)
Definition str_in (x : string) (labels : list string) : bool :=
  existsb (String.eqb x) labels.

Section WithLibrary.
Context `{lib : Library}.

(** [str(list_of_str)] *)
Definition repr_list (l : list string) : string :=
  "[" +:+ String.concat ", " (map repr_str l) +:+ "]".

(** The body of the [try] block. *)
Definition create_epochs_body (self : EpochManager) (raw : Raw)
    (labels_to_use : list string) (args : EpochArgs)
  : run ((option Epochs * option EventId * option string) * EpochManager) :=
  if Nat.eqb (length (annotations raw)) 0
  then Returns ((None, None, Some "No annotations present in the data"),
                self)
  else
    run_bind (lift_opt "events_from_annotations"
                (events_from_annotations raw)) (fun em =>
    let '(events, mapping) := em in
    if Nat.eqb (length events) 0
    then Returns ((None, None, Some "No events found in annotations"), self)
    else
      let event_id :=
        filter (fun lc => str_in (fst lc) labels_to_use = true) mapping in
      match event_id with
      | [] =>
          let available_labels := map fst mapping in
          Returns ((None, None,
                    Some ("No matching labels found. Available: "
                          +:+ repr_list available_labels)), self)
      | _ =>
          run_bind (lift_opt "Epochs"
                      (make_epochs raw events event_id args)) (fun epochs =>
          if Nat.eqb (length (epoch_events epochs)) 0
          then Returns ((None, None,
                         Some ("No valid epochs found for labels: "
                               +:+ repr_list labels_to_use)), self)
          else Returns ((Some epochs, Some event_id, None),
                        mkEpochManager (Some epochs) (Some event_id)))
      end).

(** [create_epochs_from_labels]: the result triple and the manager
    afterwards. *)
Definition create_epochs_from_labels (self : EpochManager) (raw : Raw)
    (labels_to_use : list string) (args : EpochArgs)
  : (option Epochs * option EventId * option string) * EpochManager :=
  match create_epochs_body self raw labels_to_use args with
  | Returns r => r
  | Raises e =>
      ((None, None, Some ("Failed to create epochs: " +:+ exn_msg e)), self)
  | Diverges => ((None, None, None), self)
  end.

End WithLibrary.

End EpochsMod.

(** ** io/markers_csv.py *)

Module MarkersCsv.
Import Mne Store.

(** A float as [pandas] reads it from a cell: a number, an infinity
    (the words [inf] and [-inf]), or NaN (an empty cell). *)
Inductive cell := Num (q : Q) | PosInf | NegInf | NaN.

(** A cell of a column: a float, or the text of a cell that is not a
    number. *)
Inductive pycell := CNum (c : cell) | CStr (s : string).

(** The parsed CSV file: its column names and the three columns the
    importer reads; the labels are held as [str] gives them. *)
Record DataFrame := mkDataFrame {
  columns : list string;
  col_latency : list pycell;
  col_duration : list pycell;
  col_type : list string;
}.

Fixpoint zip3 {A B C} (xs : list A) (ys : list B) (zs : list C)
  : list (A * B * C) :=
  match xs, ys, zs with
  | x :: xs', y :: ys', z :: zs' => (x, y, z) :: zip3 xs' ys' zs'
  | _, _, _ => []
  end.

(** [a <= b] on floats: false as soon as one side is NaN. *)
Definition cell_le (a b : cell) : bool :=
  match a, b with
  | NaN, _ => false
  | _, NaN => false
  | NegInf, _ => true
  | PosInf, PosInf => true
  | PosInf, _ => false
  | Num _, PosInf => true
  | Num _, NegInf => false
  | Num x, Num y => Qle_bool x y
  end.

(** [a < b] on floats. *)
Definition cell_lt (a b : cell) : bool :=
  match a, b with
  | NaN, _ => false
  | _, NaN => false
  | PosInf, _ => false
  | NegInf, NegInf => false
  | NegInf, _ => true
  | Num _, PosInf => true
  | Num _, NegInf => false
  | Num x, Num y => Py.Qltb x y
  end.

(** [min(a, b)] returns [b] when [b < a], else [a]; [max(a, b)]
    returns [b] when [b > a], else [a]. *)
Definition cmin (a b : cell) : cell := if cell_lt b a then b else a.
Definition cmax (a b : cell) : cell := if cell_lt a b then b else a.

(** [float(x)] for a value that is a number. *)
Definition cell_val (c : cell) : Q :=
  match c with
  | Num q => q
  | _ => 0
  end.

Section WithRounding.
Context `{R : Float.Rounding} `{Sum : AnnotationSum}.

(** [a + b] and [a - b] on floats. *)
Definition cell_add (a b : cell) : cell :=
  match a, b with
  | NaN, _ => NaN
  | _, NaN => NaN
  | PosInf, NegInf => NaN
  | NegInf, PosInf => NaN
  | PosInf, _ => PosInf
  | _, PosInf => PosInf
  | NegInf, _ => NegInf
  | _, NegInf => NegInf
  | Num x, Num y => Num (Float.rnd (x + y))
  end.

Definition cell_sub (a b : cell) : cell :=
  match a, b with
  | NaN, _ => NaN
  | _, NaN => NaN
  | PosInf, PosInf => NaN
  | NegInf, NegInf => NaN
  | PosInf, _ => PosInf
  | _, NegInf => PosInf
  | NegInf, _ => NegInf
  | _, PosInf => NegInf
  | Num x, Num y => Num (Float.rnd (x - y))
  end.

(** The loop over the rows, with [T] the time of the last sample: the
    annotations appended to [on], [du], [de].  A comparison of a text
    cell with a number raises [TypeError]. *)
Fixpoint kept_markers (T : Q) (rows : list (pycell * pycell * string))
  : run (list Annotation) :=
  match rows with
  | [] => Returns []
  | (o, d, lab) :: rows' =>
      match d with
      | CStr _ =>
          Raises
            (Exn "'<=' not supported between instances of 'str' and 'int'")
      | CNum d =>
          if cell_le d (Num 0) then kept_markers T rows'
          else
            match o with
            | CStr _ =>
                Raises
                  (Exn ("'>=' not supported between instances of " +:+
                        "'str' and 'float'"))
            | CNum o =>
                if cell_le (Num T) o then kept_markers T rows'
                else
                  let end_ := cmin (Num T) (cell_add o d) in
                  let o := cmax (Num 0) o in
                  if cell_le (cell_sub end_ o) (Num 0)
                  then kept_markers T rows'
                  else
                    run_bind (kept_markers T rows') (fun rest =>
                    Returns (mkAnnotation (cell_val o)
                               (cell_val (cell_sub end_ o)) lab :: rest))
            end
      end
  end.

(** [float(raw.times[-1])], the time of the last sample; [None] when
    there is no sample to index. *)
Definition last_time (r : Raw) : option Q :=
  if (n_times r <=? 0)%Z then None
  else Some (inject_Z (n_times r - 1) / sfreq r).

Definition has_columns (df : DataFrame) : bool :=
  forallb (fun c => existsb (String.eqb c) (columns df))
    ["latency"; "duration"; "type"]%string.

Definition add_csv_markers (raw : addr) (df : DataFrame) : M Z :=
  if negb (has_columns df) then ret 0%Z
  else
    r <- deref raw ;;
    match last_time r with
    | Some T =>
        ann <- lift_run
                 (kept_markers T
                    (zip3 (col_latency df) (col_duration df) (col_type df))) ;;
        match ann with
        | [] => ret 0%Z
        | _ =>
            method raw (CallSetAnnotations raw) "set_annotations"
              (fun o =>
                 Some (with_annotations o
                         (annotations_add (annotations o) ann))) ;;;
            ret (Z.of_nat (length ann))
        end
    | None => raise (Exn "index -1 is out of bounds")
    end.

End WithRounding.

(** A numeric cell holding the number [q]. *)
Definition num (q : Q) : pycell := CNum (Num q).

End MarkersCsv.

(** ** core/session.py *)

Module Session.
Import Store.

(** A preference value. *)
Inductive pref :=
| PBool (b : bool)
| PFloat (q : Q)
| PStr (s : string).

(** The values kept in [st.session_state]: [None], the flag, the
    temporary directory, a reference to a recording, the preferences. *)
Inductive value :=
| VNone
| VBool (b : bool)
| VStr (s : string)
| VRaw (a : addr)
| VDict (d : list (string * pref)).

Definition is_none (v : value) : bool :=
  match v with VNone => true | _ => false end.

Definition k_tmpdir : string := "eegviz_tmpdir".
Definition k_raw : string := "eegviz_raw_data".
Definition k_processed : string := "eegviz_processed_data".
Definition k_filter : string := "eegviz_filter_applied".
Definition k_prefs : string := "eegviz_user_preferences".

Definition _get_default_preferences : value :=
  VDict [("default_time_window", PFloat 30);
         ("default_band", PStr "Alpha");
         ("preferred_colormap", PStr "RdBu_r");
         ("auto_apply_filters", PBool false);
         ("show_advanced_options", PBool false)]%string.

(** [if key not in st.session_state: st.session_state[key] = v] *)
Definition init_key (key : string) (v : value) (st : gmap string value)
  : gmap string value :=
  match st !! key with
  | Some _ => st
  | None => <[key := v]> st
  end.

(** [_initialize_session_state], with [tmpdir] the directory
    [tempfile.mkdtemp] makes. *)
Definition _initialize_session_state (tmpdir : string)
    (st : gmap string value) : gmap string value :=
  init_key k_prefs _get_default_preferences
    (init_key k_filter (VBool false)
       (init_key k_processed VNone
          (init_key k_raw VNone
             (init_key k_tmpdir (VStr tmpdir) st)))).

(** [st.session_state.get(key, dflt)] *)
Definition state_get (key : string) (dflt : value)
    (st : gmap string value) : value :=
  default dflt (st !! key).

Definition raw_data (st : gmap string value) : value :=
  state_get k_raw VNone st.

Definition processed_data (st : gmap string value) : value :=
  state_get k_processed VNone st.

Definition filter_applied (st : gmap string value) : value :=
  state_get k_filter (VBool false) st.

Definition set_processed_data (v : value) (st : gmap string value)
  : gmap string value :=
  <[k_processed := v]> st.

Definition set_filter_applied (v : value) (st : gmap string value)
  : gmap string value :=
  <[k_filter := v]> st.

(** The [raw_data] setter. *)
Definition set_raw_data (v : value) (st : gmap string value)
  : gmap string value :=
  let st := <[k_raw := v]> st in
  if negb (is_none v)
  then set_filter_applied (VBool false) (set_processed_data VNone st)
  else st.

Definition get_current_data (st : gmap string value) : value :=
  if negb (is_none (processed_data st)) then processed_data st
  else raw_data st.

Definition clear_session (st : gmap string value) : gmap string value :=
  delete k_filter (delete k_processed (delete k_raw st)).

End Session.

(** ** analysis/contrast.py *)

Module Contrast.
Local Open Scope R_scope.

(** The guard [1e-20] against a zero power. *)
Definition eps : R := / 10 ^ 20.

Definition log10 (x : R) : R := ln x / ln 10.

Definition db_ratio (b a : R) : R := 10 * log10 ((b + eps) / (a + eps)).

(** [contrast_db] on two vectors of the same length; arrays of
    different shapes are not combined. *)
Fixpoint contrast_db (Pb Pa : list R) : option (list R) :=
  match Pb, Pa with
  | [], [] => Some []
  | b :: Pb', a :: Pa' =>
      option_map (cons (db_ratio b a)) (contrast_db Pb' Pa')
  | _, _ => None
  end.

End Contrast.

(** ** A small library instance

The interface [Mne.Library] instantiated with routines simple enough
to run: the filters return the samples as they are, [crop] keeps
the samples whose time [k / sfreq] lies in [[tmin, tmax]], the
spectral estimate is the mean square of each channel in a single
bin, every annotation gives one event, and [percentile]
interpolates linearly between the sorted entries. *)

Module SimpleLib.
Import Mne.

Definition crop_simple (r : Raw) (tmin tmax : Q) : option Raw :=
  let lo := Z.max 0 (Qceiling (tmin * sfreq r)) in
  let hi := Z.min (n_times r - 1) (Qfloor (tmax * sfreq r)) in
  if Qle_bool tmin tmax && (lo <=? hi)%Z
  then Some (with_data r
               (map (fun c => take (Z.to_nat (hi - lo + 1))
                                (drop (Z.to_nat lo) c)) (data r)))
  else None.

Definition mean_square (c : list Q) : fval :=
  match c with
  | [] => NonFinite
  | _ => Fin (fold_right (fun x acc => x * x + acc) 0 c
              / inject_Z (Z.of_nat (length c)))
  end.

Definition psd_simple (r : Raw) (fmin fmax : Q)
    (picks : option (list string)) (n_fft n_overlap : Z)
  : option (list (list fval)) :=
  Some (map (fun c => [mean_square c]) (data r)).

Fixpoint code_of (label : string) (m : EventId) : option Z :=
  match m with
  | [] => None
  | (l, c) :: m' => if String.eqb l label then Some c else code_of label m'
  end.

(** One code per distinct label, numbered from 1 in order of first
    appearance. *)
Fixpoint label_codes (anns : list Annotation) (m : EventId) : EventId :=
  match anns with
  | [] => m
  | a :: anns' =>
      match code_of (description a) m with
      | Some _ => label_codes anns' m
      | None =>
          label_codes anns'
            (m ++ [(description a, Z.of_nat (S (length m)))])
      end
  end.

Definition events_simple (r : Raw) : option (list Event * EventId) :=
  let m := label_codes (annotations r) [] in
  Some (omap (fun a =>
                match code_of (description a) m with
                | Some c => Some (Qfloor (onset a * sfreq r), 0%Z, c)
                | None => None
                end) (annotations r), m).

Definition epochs_simple (r : Raw) (events : list Event) (eid : EventId)
    (args : EpochArgs) : option Epochs :=
  Some (mkEpochs
          (filter (fun e => existsb (fun lc => Z.eqb (snd lc) (snd e)) eid
                            = true) events)
          eid).

Fixpoint insert_sorted (x : Q) (l : list Q) : list Q :=
  match l with
  | [] => [x]
  | y :: l' => if Qle_bool x y then x :: l else y :: insert_sorted x l'
  end.

Definition percentile_simple (frames : list (list Q)) (q : Q)
  : option fval :=
  let xs := fold_right insert_sorted [] (concat frames) in
  match xs with
  | [] => None
  | _ =>
      if Qle_bool 0 q && Qle_bool q 100
      then
        let pos := q / 100 * inject_Z (Z.of_nat (length xs) - 1) in
        let k := Z.to_nat (Qfloor pos) in
        let x0 := nth k xs 0 in
        let x1 := nth (S k) xs x0 in
        Some (Fin (x0 + (pos - inject_Z (Qfloor pos)) * (x1 - x0)))
      else None
  end.

#[export] Instance simple_library : Library := {
  resample_data r rate := Some (data r);
  notch_filter_data r f := Some (data r);
  filter_data r l h := Some (data r);
  interpolate_bads_data r := Some (data r);
  average_reference_data r := Some (data r);
  crop := crop_simple;
  compute_psd := psd_simple;
  events_from_annotations := events_simple;
  make_epochs := epochs_simple;
  percentile := percentile_simple;
  repr_str s := ("'" +:+ s +:+ "'")%string;
}.

(** The same routines behind two of MNE's argument checks: [crop]
    refuses bounds outside the recording, and the spectral estimate
    refuses a window longer than the data. *)
Definition crop_strict (r : Raw) (tmin tmax : Q) : option Raw :=
  if Qle_bool 0 tmin && Qle_bool tmax (inject_Z (n_times r - 1) / sfreq r)
  then crop_simple r tmin tmax
  else None.

Definition psd_strict (r : Raw) (fmin fmax : Q)
    (picks : option (list string)) (n_fft n_overlap : Z)
  : option (list (list fval)) :=
  if (n_times r <? n_fft)%Z then None
  else psd_simple r fmin fmax picks n_fft n_overlap.

Definition strict_library : Library := {|
  resample_data r rate := Some (data r);
  notch_filter_data r f := Some (data r);
  filter_data r l h := Some (data r);
  interpolate_bads_data r := Some (data r);
  average_reference_data r := Some (data r);
  crop := crop_strict;
  compute_psd := psd_strict;
  events_from_annotations := events_simple;
  make_epochs := epochs_simple;
  percentile := percentile_simple;
  repr_str s := ("'" +:+ s +:+ "'")%string;
|}.

(** A recording of [n] samples per channel at rate [sf], every sample
    equal to [x]. *)
Definition constant_raw (sf : Q) (chs : list string) (n : nat) (x : Q)
    (anns : list Annotation) : Raw :=
  mkRaw sf chs [] (map (fun _ => repeat x n) chs) anns.

(** One channel, 100 Hz, 100 samples (one second). *)
Definition raw100 : Raw := constant_raw 100 ["Cz"]%string 100 1 [].

(** One channel, 100 Hz, 40 samples. *)
Definition raw40 : Raw := constant_raw 100 ["Cz"]%string 40 1 [].

(** Two channels, 256 Hz, 128 samples (half a second). *)
Definition raw_half : Raw := constant_raw 256 ["C3"; "C4"]%string 128 1 [].

(** Five seconds at 256 Hz, with two annotated events. *)
Definition raw_events : Raw :=
  constant_raw 256 ["Cz"]%string 1280 0
    [mkAnnotation 1 (1 # 2) "Blink"; mkAnnotation 3 (1 # 2) "Rest"]%string.

Definition no_epoch_args : EpochArgs :=
  mkEpochArgs (-(1 # 5)) (4 # 5) None None true (Some 1%Z) 1.


(** The sum of annotations that keeps them sorted by onset, then by
    duration, earlier entries first among equals. *)
Definition annotation_le (a b : Annotation) : bool :=
  Py.Qltb (onset a) (onset b) ||
  (Qeq_bool (onset a) (onset b) && Qle_bool (duration a) (duration b)).

Fixpoint insert_annotation (a : Annotation) (l : list Annotation)
  : list Annotation :=
  match l with
  | [] => [a]
  | b :: l' =>
      if annotation_le a b then a :: l else b :: insert_annotation a l'
  end.

Definition sort_annotations (l : list Annotation) : list Annotation :=
  fold_right insert_annotation [] l.

#[export] Instance sorted_sum : AnnotationSum := {
  annotations_add a b := sort_annotations (a ++ b);
}.

(** A world holding the single recording [r], at address 0. *)
Definition world_of (r : Raw) : Store.World :=
  Store.mkWorld {[ 0%nat := r ]} [].

(** Two channels, 256 Hz, 4 samples. *)
Definition raw256 : Raw := constant_raw 256 ["C3"; "C4"]%string 4 1 [].

End SimpleLib.

(** ** Formatting of messages *)

Module PyFmt.

(** The string conversions the messages use: [str] of a float, a float
    with a fixed number of decimals ([f"{x:.2f}"]), [str] of an int and
    of a set of strings. *)
Class Format := {
  str_float : Q -> string;
  fixed : nat -> Q -> string;
  str_int : Z -> string;
  str_set : list string -> string;
}.

(** [int(x)] for a float: truncation towards zero. *)
Definition py_int (x : Q) : Z :=
  if Qle_bool 0 x then Qfloor x else Qceiling x.

End PyFmt.

(** ** core/session.py, preferences *)

Module Preferences.
Import Store Session.

(** [d[k]] for the preferences dict. *)
Fixpoint dict_get (k : string) (d : list (string * pref)) : option pref :=
  match d with
  | [] => None
  | (k', v) :: d' => if String.eqb k' k then Some v else dict_get k d'
  end.

(** [d[k] = v]: an existing key keeps its place, a new key goes last. *)
Fixpoint dict_set (k : string) (v : pref) (d : list (string * pref))
  : list (string * pref) :=
  match d with
  | [] => [(k, v)]
  | (k', v') :: d' =>
      if String.eqb k' k then (k', v) :: d'
      else (k', v') :: dict_set k v d'
  end.

(** The [preferences] property. *)
Definition preferences (st : gmap string value) : value :=
  state_get k_prefs _get_default_preferences st.

(** [update_preference]; [None] when the stored preferences are not a
    dict and [.copy()] fails. *)
Definition update_preference (key : string) (v : pref)
    (st : gmap string value) : option (gmap string value) :=
  match preferences st with
  | VDict d => Some (<[k_prefs := VDict (dict_set key v d)]> st)
  | _ => None
  end.

End Preferences.

(** ** core/validation.py *)

Module Validation.
Import Mne MarkersCsv PyFmt.

(** [validate_channel_selection]: the requested channels that exist,
    and those that do not. *)
Definition validate_channel_selection (raw : Raw) (channels : list string)
  : list string * list string :=
  (List.filter (fun ch => EpochsMod.str_in ch (ch_names raw)) channels,
   List.filter (fun ch => negb (EpochsMod.str_in ch (ch_names raw)))
     channels).

Section WithFormat.
Context `{R : Float.Rounding} `{fmt : Format}.

Definition validate_filter_params (raw : Raw)
    (l_freq h_freq resample_freq : option Q) : list string :=
  let nyquist := sfreq raw / 2 in
  let errors :=
    match l_freq with
    | Some l =>
        if Py.Qltb l 0 then ["High-pass frequency must be positive"]
        else if Qle_bool nyquist l
        then ["High-pass frequency (" +:+ str_float l +:+
              " Hz) must be < Nyquist (" +:+ str_float nyquist +:+ " Hz)"]
        else []
    | None => []
    end in
  let errors :=
    errors ++
    match h_freq with
    | Some h =>
        if Qle_bool h 0 then ["Low-pass frequency must be positive"]
        else if Qle_bool nyquist h
        then ["Low-pass frequency (" +:+ str_float h +:+
              " Hz) must be < Nyquist (" +:+ str_float nyquist +:+ " Hz)"]
        else []
    | None => []
    end in
  let errors :=
    errors ++
    match l_freq, h_freq with
    | Some l, Some h =>
        if Qle_bool h l
        then ["High-pass frequency must be < low-pass frequency"]
        else []
    | _, _ => []
    end in
  let errors :=
    errors ++
    match resample_freq with
    | Some r =>
        if Qle_bool r 0 then ["Resample frequency must be positive"]
        else if Py.Qltb (sfreq raw) r
        then ["Cannot upsample - resample frequency must be ≤ original sampling rate"]
        else
          match h_freq with
          | Some h =>
              if Py.Qltb r (2 * h)
              then ["Resample frequency (" +:+ str_float r +:+
                    " Hz) must be > 2 × low-pass frequency (" +:+
                    str_float h +:+ " Hz)"]
              else []
          | None => []
          end
    | None => []
    end in
  errors.

(** [validate_time_window]: the corrected start and end and the
    warnings.  The division by the sampling rate raises when the rate
    is zero. *)
Definition validate_time_window (raw : Raw) (start_sec end_sec : Q)
  : run (Q * Q * list string) :=
  if Qeq_bool (sfreq raw) 0 then Raises (Exn "float division by zero")
  else
    let max_time := Float.rnd (inject_Z (n_times raw) / sfreq raw) in
    let corrected_start := Py.max 0 (Py.min start_sec max_time) in
    let warnings :=
      if negb (Qeq_bool corrected_start start_sec)
      then ["Start time corrected: " +:+ fixed 2 start_sec +:+ " → " +:+
            fixed 2 corrected_start +:+ "s"]
      else [] in
    let corrected_end := Py.max corrected_start (Py.min end_sec max_time) in
    let warnings :=
      warnings ++
      if negb (Qeq_bool corrected_end end_sec)
      then ["End time corrected: " +:+ fixed 2 end_sec +:+ " → " +:+
            fixed 2 corrected_end +:+ "s"]
      else [] in
    let duration := Float.rnd (corrected_end - corrected_start) in
    if Py.Qltb duration (Float.rnd (1 # 10))
    then
      let corrected_end' :=
        Py.min (Float.rnd (corrected_start + Float.rnd (1 # 10))) max_time in
      Returns (corrected_start, corrected_end',
               warnings ++
               ["Minimum duration enforced: " +:+ fixed 2 duration +:+
                " → " +:+
                fixed 2 (Float.rnd (corrected_end' - corrected_start)) +:+
                "s"])
    else Returns (corrected_start, corrected_end, warnings).

Definition has_column (c : string) (df : DataFrame) : bool :=
  existsb (String.eqb c) (columns df).

(** [pd.api.types.is_numeric_dtype] of a column read from a file:
    the column has a row and every cell is a number (an empty cell
    reads as NaN); a column without rows has the object type. *)
Definition is_numeric (col : list pycell) : bool :=
  match col with
  | [] => false
  | _ => forallb (fun c => match c with
                           | CNum _ => true
                           | CStr _ => false
                           end) col
  end.

(** [(col <= 0).any()] on a numeric column. *)
Definition any_nonpositive (col : list pycell) : bool :=
  existsb (fun c => match c with
                    | CNum d => cell_le d (Num 0)
                    | CStr _ => false
                    end) col.

(** [validate_annotations_csv] on what [pd.read_csv] gives: the parsed
    file, or the exception it raised. *)
Definition validate_annotations_csv (file : exn + DataFrame)
  : bool * list string :=
  match file with
  | inl e => (false, ["Failed to read CSV file: " +:+ exn_msg e])
  | inr df =>
      let errors :=
        if negb (has_columns df)
        then ["Missing required columns: " +:+
              str_set (List.filter (fun c => negb (has_column c df))
                         ["latency"; "duration"; "type"]%string)]
        else [] in
      let errors :=
        errors ++
        (if has_column "latency" df
         then if negb (is_numeric (col_latency df))
              then ["'latency' column must be numeric"]
              else []
         else []) in
      let errors :=
        errors ++
        (if has_column "duration" df
         then if negb (is_numeric (col_duration df))
              then ["'duration' column must be numeric"]
              else if any_nonpositive (col_duration df)
                   then ["'duration' must be positive"]
                   else []
         else []) in
      (Nat.eqb (length errors) 0, errors)
  end.

End WithFormat.

End Validation.

(** A formatter that is enough to run the message-building code on
    examples: numbers are written as fractions. *)

Module SimpleFmt.
Import PyFmt.

Definition digit (n : nat) : string :=
  String (Ascii.ascii_of_nat (48 + n)) EmptyString.

Fixpoint nat_digits (fuel n : nat) (acc : string) : string :=
  match fuel with
  | O => acc
  | S fuel' =>
      let acc' := digit (n mod 10) +:+ acc in
      if Nat.ltb n 10 then acc' else nat_digits fuel' (n / 10) acc'
  end.

Definition Z_string (z : Z) : string :=
  let n := Z.abs_nat z in
  (if (z <? 0)%Z then "-" else "") +:+ nat_digits (S n) n "".

Definition Q_string (q : Q) : string :=
  Z_string (Qnum q) +:+ "/" +:+ Z_string (Zpos (Qden q)).

#[export] Instance simple_format : Format := {
  str_float := Q_string;
  fixed _ := Q_string;
  str_int := Z_string;
  str_set l := ("{" +:+ String.concat ", " l +:+ "}")%string;
}.

End SimpleFmt.

(** ** core/epochs.py, parameter checks and suggestions *)

Module EpochParams.
Import Mne PyFmt.

Definition validate_epoch_parameters (raw : Raw) (tmin tmax : Q)
    (baseline : option (Q * Q)) : list string :=
  let epoch_duration := tmax - tmin in
  let warnings :=
    if Qle_bool epoch_duration 0
    then ["Epoch duration must be positive (tmax > tmin)"]
    else if Py.Qltb epoch_duration (1 # 10)
    then ["Very short epochs may not be useful for analysis"]
    else if Py.Qltb 30 epoch_duration
    then ["Very long epochs may include multiple events"]
    else [] in
  let min_samples := Py.Zmax 1 (py_int (epoch_duration * sfreq raw)) in
  let warnings :=
    warnings ++
    (if (min_samples <? 10)%Z then ["Epochs will have very few samples"]
     else []) in
  let warnings :=
    warnings ++
    match baseline with
    | Some (baseline_start, baseline_end) =>
        if Qle_bool baseline_end baseline_start
        then ["Baseline start must be < baseline end"]
        else if Py.Qltb baseline_start tmin || Py.Qltb tmax baseline_end
        then ["Baseline period must be within epoch time range"]
        else if Py.Qltb 0 baseline_end
        then ["Baseline typically ends at or before event (t=0)"]
        else []
    | None => []
    end in
  warnings.

(** The dict [suggest_epoch_parameters] returns. *)
Record Suggestion := mkSuggestion {
  sg_tmin : Q;
  sg_tmax : Q;
  sg_baseline : Q * Q;
  sg_decim : Z;
}.

Definition suggest_epoch_parameters (raw : Raw) : Suggestion :=
  let sf := sfreq raw in
  let suggestions :=
    mkSuggestion (-(1 # 5)) (4 # 5) (-(1 # 5), 0)
      (Py.Zmax 1 (py_int (sf / 250))) in
  if Py.Qltb sf 125
  then mkSuggestion (-(1 # 10)) (1 # 2) (sg_baseline suggestions) 1
  else if Py.Qltb 1000 sf
  then mkSuggestion (sg_tmin suggestions) (sg_tmax suggestions)
         (sg_baseline suggestions) (py_int (sf / 250))
  else suggestions.

End EpochParams.

(** ** preprocess/filtering.py, the calls of a run; ui/filters.py *)

Module PipelineCalls.
Import Mne Store Filtering.

(** The library calls a run of [apply_pipeline] makes on its copy
    [proc] of the recording [r] when no call raises, in the order of
    the code: resample, notch, band filter, interpolation,
    reference. *)
Definition expected_calls (proc : addr) (r : Raw)
    (notch l_freq h_freq resample : option Q)
    (ref_avg interpolate : bool) : list Call :=
  match resample with
  | Some q =>
      if truthy resample && Py.Qltb rate_tol (Qabs (sfreq r - q))
      then [CallResample proc q] else []
  | None => []
  end ++
  match notch with
  | Some f => [CallNotchFilter proc f]
  | None => []
  end ++
  (if is_Some_b l_freq || is_Some_b h_freq
   then [CallFilter proc l_freq
           (Py.min (py_or h_freq (current_rate r resample / 2 - 1))
              (current_rate r resample / 2 - 1))]
   else []) ++
  (if interpolate && negb (Nat.eqb (length (bads r)) 0)
   then [CallInterpolateBads proc] else []) ++
  (if ref_avg then [CallSetEegReference proc] else []).

(** A computation on the copy [proc] that makes the calls [cs] (a
    prefix of them when a call raises), takes the rate of the copy from
    [sf_in] to [sf_out], keeps its bad-channel list [b], returns only
    values in [R] and never loops. *)
Definition makes_calls `{lib : Library} {A} (proc : addr)
    (sf_in sf_out : Q) (b : list string) (cs : list Call)
    (R : A -> Prop) (m : M A) : Prop :=
  forall w p,
    heap w !! proc = Some p ->
    sfreq p = sf_in ->
    bads p = b ->
    match m w with
    | (Returns a, w') =>
        R a /\ trace w' = trace w ++ cs /\
        exists p', heap w' !! proc = Some p' /\
                   sfreq p' = sf_out /\ bads p' = b
    | (Raises _, w') =>
        (exists pre, pre `prefix_of` cs /\ trace w' = trace w ++ pre) /\
        ~ library_returns
    | (Diverges, _) => False
    end.

(** [FilterControlsComponent.apply_filters]: the pipeline, and a plain
    copy of the input when the pipeline raises.  The parameters are the
    six entries of the dict [render_filter_controls] builds, which the
    processing summary only reads; the messages shown on the page are
    not modelled. *)
Definition apply_filters `{lib : Library} (raw : addr)
    (notch l_freq h_freq resample : option Q)
    (ref_avg interpolate : bool) : M addr :=
  fun w =>
    match apply_pipeline raw notch l_freq h_freq resample ref_avg
            interpolate w with
    | (Returns processed, w') => (Returns processed, w')
    | (Raises _, w') => copy raw w'
    | (Diverges, w') => (Diverges, w')
    end.

End PipelineCalls.

(** The small library with a band filter that always raises. *)

Module FailingLib.
Import Mne SimpleLib.

Definition failing_filter_library : Library := {|
  resample_data r rate := Some (data r);
  notch_filter_data r f := Some (data r);
  filter_data r l h := None;
  interpolate_bads_data r := Some (data r);
  average_reference_data r := Some (data r);
  crop := crop_simple;
  compute_psd := psd_simple;
  events_from_annotations := events_simple;
  make_epochs := epochs_simple;
  percentile := percentile_simple;
  repr_str s := ("'" +:+ s +:+ "'")%string;
|}.

End FailingLib.

(** ** viz/regional.py *)

Module Regional.
Import Np.

Definition REGIONS : list (string * list string) :=
  [("Frontal", ["AF3"; "AF4"; "F3"; "F4"; "F7"; "F8"]);
   ("Frontocentral", ["FC5"; "FC6"]);
   ("Temporal", ["T7"; "T8"]);
   ("Parietal", ["P7"; "P8"]);
   ("Occipital", ["O1"; "O2"])]%string.

(** [{ch: i for i, ch in enumerate(ch_names)}[c]], counting from [i]:
    with a repeated name the last index stays. *)
Fixpoint name_to_idx (ch_names : list string) (i : nat) (c : string)
  : option nat :=
  match ch_names with
  | [] => None
  | ch :: rest =>
      match name_to_idx rest (S i) c with
      | Some j => Some j
      | None => if String.eqb ch c then Some i else None
      end
  end.

(** [[values[i] for i in idxs]]; [None] for an index out of range. *)
Fixpoint take_values (values : list Q) (idxs : list nat)
  : option (list Q) :=
  match idxs with
  | [] => Some []
  | i :: idxs' =>
      match values !! i, take_values values idxs' with
      | Some v, Some vs => Some (v :: vs)
      | _, _ => None
      end
  end.

Section WithNumpy.
Context `{np : Numpy}.

(** The loop over the regions. *)
Fixpoint collect_regions (regions : list (string * list string))
    (ch_names : list string) (values : list Q) : run (list (string * Q)) :=
  match regions with
  | [] => Returns []
  | (reg, chs) :: regions' =>
      let idxs := omap (name_to_idx ch_names 0) chs in
      match idxs with
      | [] => collect_regions regions' ch_names values
      | _ =>
          match take_values values idxs with
          | Some vs =>
              run_bind (collect_regions regions' ch_names values)
                (fun out => Returns ((reg, np_mean vs) :: out))
          | None => Raises (Exn "index out of range")
          end
      end
  end.

(** [sorted(out, key=lambda x: x[0])], by insertion. *)
Fixpoint insert_by_name (x : string * Q) (l : list (string * Q))
  : list (string * Q) :=
  match l with
  | [] => [x]
  | y :: l' =>
      if String.leb (fst x) (fst y) then x :: l
      else y :: insert_by_name x l'
  end.

Definition sort_by_name (l : list (string * Q)) : list (string * Q) :=
  fold_right insert_by_name [] l.

Definition region_means (ch_names : list string) (values : list Q)
  : run (list (string * Q)) :=
  run_bind (collect_regions REGIONS ch_names values)
    (fun out => Returns (sort_by_name out)).

End WithNumpy.

(** The regions in the order of their names. *)
Definition regions_by_name : list (string * list string) :=
  [("Frontal", ["AF3"; "AF4"; "F3"; "F4"; "F7"; "F8"]);
   ("Frontocentral", ["FC5"; "FC6"]);
   ("Occipital", ["O1"; "O2"]);
   ("Parietal", ["P7"; "P8"]);
   ("Temporal", ["T7"; "T8"])]%string.

(** Whether a region has a channel among [ch_names]. *)
Definition region_present (ch_names : list string) (chs : list string)
  : bool :=
  existsb (fun c => EpochsMod.str_in c ch_names) chs.

End Regional.

(** ** io/markers_json.py *)

Module MarkersJson.
Import Mne Store MarkersCsv.

(** A [datetime]: its instant in seconds on the time line, and whether
    it carries a UTC offset.  Python refuses to subtract or compare an
    offset-aware and an offset-naive one. *)
Record datetime := mkDatetime {
  instant : Q;
  aware : bool;
}.

(** [(a - b).total_seconds()] *)
Definition dt_sub (a b : datetime) : run Q :=
  if Bool.eqb (aware a) (aware b) then Returns (instant a - instant b)
  else Raises
         (Exn "can't subtract offset-naive and offset-aware datetimes").

(** [a < b] *)
Definition dt_lt (a b : datetime) : run bool :=
  if Bool.eqb (aware a) (aware b)
  then Returns (Py.Qltb (instant a) (instant b))
  else Raises
         (Exn "can't compare offset-naive and offset-aware datetimes").

(** One object of the [Markers] array: the values under its keys, when
    they are present. *)
Record JsonMarker := mkJsonMarker {
  jm_startDatetime : option string;
  jm_originalStartDatetime : option string;
  jm_endDatetime : option string;
  jm_originalEndDatetime : option string;
  jm_label : option string;
}.

(** Truthiness of a [str | None]. *)
Definition truthy_str (x : option string) : bool :=
  match x with
  | Some s => negb (String.eqb s "")
  | None => false
  end.

(** [a or b] *)
Definition str_or (a b : option string) : option string :=
  if truthy_str a then a else b.

(** A list comprehension whose body may raise. *)
Fixpoint run_map {A B} (f : A -> run B) (l : list A) : run (list B) :=
  match l with
  | [] => Returns []
  | x :: l' =>
      run_bind (f x) (fun y =>
      run_bind (run_map f l') (fun ys => Returns (y :: ys)))
  end.

Definition row := (string * datetime * datetime)%type.
Definition row_label (x : row) : string := fst (fst x).
Definition row_start (x : row) : datetime := snd (fst x).
Definition row_end (x : row) : datetime := snd x.

(** [min] over the remaining items, [acc] being the least so far: an
    item replaces it when [item < acc]. *)
Fixpoint min_from (acc : datetime) (rows : list row) : run datetime :=
  match rows with
  | [] => Returns acc
  | x :: rows' =>
      run_bind (dt_lt (row_start x) acc) (fun b =>
      min_from (if b then row_start x else acc) rows')
  end.

(** [min(s for _, s, _ in rows)] *)
Definition earliest (rows : list row) : run datetime :=
  match rows with
  | [] => Raises (Exn "min() arg is an empty sequence")
  | x :: rows' => min_from (row_start x) rows'
  end.

(** The onsets, relative to the reference time when there is one and
    to the earliest start otherwise. *)
Definition onsets_of (base_orig : option datetime) (rows : list row)
  : run (list Q) :=
  match base_orig with
  | Some b => run_map (fun x => dt_sub (row_start x) b) rows
  | None =>
      run_bind (earliest rows) (fun s0 =>
      run_map (fun x => dt_sub (row_start x) s0) rows)
  end.

Section WithParser.
Context `{R : Float.Rounding} `{Sum : AnnotationSum}.

(** [dateutil]'s [isoparse] ([None] when it raises), and the reference
    time of a recording's annotations. *)
Variable isoparse : string -> option datetime.
Variable orig_time : Raw -> option datetime.

(** The first loop: [(label, start, end)] of every marker that has a
    start and an end. *)
Fixpoint parse_rows (marks : list JsonMarker) : run (list row) :=
  match marks with
  | [] => Returns []
  | m :: marks' =>
      let s := str_or (jm_startDatetime m) (jm_originalStartDatetime m) in
      let e := str_or (jm_endDatetime m) (jm_originalEndDatetime m) in
      match s, e with
      | Some s', Some e' =>
          if truthy_str s && truthy_str e
          then
            run_bind (lift_opt "isoparse" (isoparse s')) (fun sdt =>
            run_bind (lift_opt "isoparse" (isoparse e')) (fun edt =>
            run_bind (parse_rows marks') (fun rows =>
            Returns ((default "Marker"%string (jm_label m), sdt, edt)
                     :: rows))))
          else parse_rows marks'
      | _, _ => parse_rows marks'
      end
  end.

Definition add_json_markers (raw : addr) (marks : list JsonMarker) : M Z :=
  match marks with
  | [] => ret 0%Z
  | _ =>
      rows <- lift_run (parse_rows marks) ;;
      match rows with
      | [] => ret 0%Z
      | _ =>
          durations <-
            lift_run (run_map (fun x => dt_sub (row_end x) (row_start x))
                        rows) ;;
          let descs := map row_label rows in
          r <- deref raw ;;
          onsets <- lift_run (onsets_of (orig_time r) rows) ;;
          T <- lift_run (lift_opt "index -1 is out of bounds" (last_time r)) ;;
          ann <- lift_run
                   (kept_markers T
                      (zip3 (map num onsets) (map num durations) descs)) ;;
          match ann with
          | [] => ret 0%Z
          | _ =>
              method raw (CallSetAnnotations raw) "set_annotations"
                (fun o =>
                   Some (with_annotations o
                           (annotations_add (annotations o) ann))) ;;;
              ret (Z.of_nat (length ann))
          end
      end
  end.

End WithParser.

(** A parser for sample time stamps, all on 1 January 2024: naive ones
    and two with the [Z] suffix. *)
Definition sample_isoparse (s : string) : option datetime :=
  if String.eqb s "2024-01-01T00:00:00" then Some (mkDatetime 0 false)
  else if String.eqb s "2024-01-01T00:00:01" then Some (mkDatetime 1 false)
  else if String.eqb s "2024-01-01T00:00:02" then Some (mkDatetime 2 false)
  else if String.eqb s "2024-01-01T00:00:09" then Some (mkDatetime 9 false)
  else if String.eqb s "2024-01-01T00:00:01Z" then Some (mkDatetime 1 true)
  else if String.eqb s "2024-01-01T00:00:02Z" then Some (mkDatetime 2 true)
  else None.

(** Two markers one second apart, the first one second long and the
    second seven. *)
Definition sample_marks : list JsonMarker :=
  [ mkJsonMarker (Some "2024-01-01T00:00:01") None
      (Some "2024-01-01T00:00:02") None (Some "Blink")
  ; mkJsonMarker None (Some "2024-01-01T00:00:02")
      None (Some "2024-01-01T00:00:09") None ]%string.

(** A marker whose start is naive and whose end is offset-aware. *)
Definition mixed_marks : list JsonMarker :=
  [ mkJsonMarker (Some "2024-01-01T00:00:01") None
      (Some "2024-01-01T00:00:02Z") None (Some "Blink") ]%string.

(** The rows the sample markers parse to. *)
Definition sample_rows : list row :=
  [ ("Blink"%string, mkDatetime 1 false, mkDatetime 2 false)
  ; ("Marker"%string, mkDatetime 2 false, mkDatetime 9 false) ].

(** Importing the sample markers into the sample recording with
    events, whose annotations have no reference time. *)
Definition sample_import : run Z * World :=
  add_json_markers (R := Float.binary64) (Sum := SimpleLib.sorted_sum)
    sample_isoparse (fun _ => None) 0%nat sample_marks
    (SimpleLib.world_of SimpleLib.raw_events).

End MarkersJson.

(** * Properties *)

(** ** Windowing *)

Section PyFacts.

Lemma Qltb_lt x y : Py.Qltb x y = true <-> x < y.
Proof.
  unfold Py.Qltb. rewrite negb_true_iff, <- not_true_iff_false, Qle_bool_iff.
  split; [apply Qnot_le_lt | apply Qlt_not_le].
Qed.

Lemma Qltb_ge x y : Py.Qltb x y = false <-> y <= x.
Proof.
  unfold Py.Qltb. rewrite negb_false_iff, Qle_bool_iff. reflexivity.
Qed.

Lemma py_min_spec a b :
  (b < a /\ Py.min a b = b) \/ (a <= b /\ Py.min a b = a).
Proof.
  unfold Py.min. destruct (Py.Qltb b a) eqn:E.
  - left. split; [now apply Qltb_lt | reflexivity].
  - right. split; [now apply Qltb_ge | reflexivity].
Qed.

Lemma py_max_spec a b :
  (a < b /\ Py.max a b = b) \/ (b <= a /\ Py.max a b = a).
Proof.
  unfold Py.max. destruct (Py.Qltb a b) eqn:E.
  - left. split; [now apply Qltb_lt | reflexivity].
  - right. split; [now apply Qltb_ge | reflexivity].
Qed.

End PyFacts.

(** Case analysis on every [Py.min]/[Py.max] in the goal, leaving linear
    arithmetic. *)
Ltac py_minmax :=
  repeat match goal with
  | |- context [Py.min ?a ?b] =>
      let H := fresh "Hm" in let E := fresh "Em" in
      destruct (py_min_spec a b) as [[H E]|[H E]]; rewrite !E in *
  | |- context [Py.max ?a ?b] =>
      let H := fresh "Hm" in let E := fresh "Em" in
      destruct (py_max_spec a b) as [[H E]|[H E]]; rewrite !E in *
  end.

Section WindowsFacts.
Import Windows.

Lemma restrict_interval_fst total start end_ :
  fst (restrict_interval total start end_) = Py.max 0 (Py.min start total).
Proof. reflexivity. Qed.

Lemma restrict_interval_snd total start end_ :
  snd (restrict_interval total start end_) =
  let s := Py.max 0 (Py.min start total) in
  let e := Py.max 0 (Py.min end_ total) in
  if Qle_bool e s then Py.min total (s + min_width) else e.
Proof. reflexivity. Qed.

Lemma clamp_range total x :
  0 <= total -> 0 <= Py.max 0 (Py.min x total) <= total.
Proof.
  intros Ht. py_minmax; split; lra.
Qed.

(** C2 (as stated) fails: with [start] beyond [total] both bounds clamp
    to [total], whatever [total] is.  [restrict_interval(10, 15, 20)]
    is [(10, 10)]: not [end > start], and [total = 10] is not
    approximately 0. *)
Lemma restrict_interval_collapses_at_total :
  ~ restrict_interval_spec 10 15 20.
Proof.
  unfold restrict_interval_spec, outside. intros H.
  destruct H as (_ & _ & [H | (_ & _ & H)]).
  - right. reflexivity.
  - right. reflexivity.
  - vm_compute in H. discriminate H.
  - vm_compute in H. apply H. reflexivity.
Qed.

(** C2 (amended): for a duration [total >= 0] and all [start], [end],
    [restrict_interval] returns bounds within [[0, total]];
    [end > start] unless the clamped start equals [total], in which
    case [end = start = total]; and when the clamped end is at most
    the clamped start, the window has width [min(0.25, total - start)]. *)
Theorem restrict_interval_clamps total start end_ :
  0 <= total ->
  let r := restrict_interval total start end_ in
  let s := Py.max 0 (Py.min start total) in
  let e := Py.max 0 (Py.min end_ total) in
  (0 <= fst r <= total) /\ (0 <= snd r <= total) /\
  (fst r < total -> fst r < snd r) /\
  (fst r == total -> snd r == total) /\
  (e <= s -> snd r - fst r == Py.min min_width (total - fst r)).
Proof.
  intros Ht r s e.
  assert (Hs : 0 <= s <= total) by (apply clamp_range; exact Ht).
  assert (He : 0 <= e <= total) by (apply clamp_range; exact Ht).
  assert (Hfst : fst r = s) by reflexivity.
  assert (Hsnd : snd r =
                 if Qle_bool e s then Py.min total (s + min_width) else e)
    by reflexivity.
  rewrite Hfst, Hsnd. clearbody s e. clear Hfst Hsnd r.
  unfold min_width.
  destruct (Qle_bool e s) eqn:E.
  - apply Qle_bool_iff in E.
    repeat split; try tauto; intros; py_minmax; lra.
  - assert (E' : s < e).
    { apply Qnot_le_lt. intros C. apply Qle_bool_iff in C. congruence. }
    repeat split; try tauto; intros; try lra.
Qed.

Lemma restrict_interval_clamps_witness :
  0 <= 5 /\
  fst (restrict_interval 5 (-1) 9) < snd (restrict_interval 5 (-1) 9).
Proof.
  assert (H : 0 <= 5) by (vm_compute; discriminate).
  split; [exact H|].
  destruct (restrict_interval_clamps 5 (-1) 9 H) as (_ & _ & Hlt & _).
  apply Hlt. vm_compute. reflexivity.
Defined.

End WindowsFacts.

(** *** The sliding-window generator *)

Section SlidingFacts.
Import Windows.
Context `{R : Float.Rounding}.
Variables end_ win step : Q.

Lemma Qnat_succ_mul i x : Qnat (S i) * x == Qnat i * x + x.
Proof.
  unfold Qnat. rewrite Nat2Z.inj_succ. unfold Z.succ.
  rewrite inject_Z_plus. ring.
Qed.

Lemma Qnat_zero_mul x : Qnat 0 * x == 0.
Proof. unfold Qnat. simpl. ring. Qed.

Lemma Qnat_archimedean x d :
  0 < d -> exists n : nat, x < Qnat n * d.
Proof.
  intros Hd.
  exists (Z.to_nat (Z.max 0 (Qfloor (x / d) + 1))).
  unfold Qnat. rewrite Z2Nat.id by lia.
  assert (H1 : x / d < inject_Z (Qfloor (x / d) + 1))
    by apply Qlt_floor.
  assert (H2 : inject_Z (Qfloor (x / d) + 1)
               <= inject_Z (Z.max 0 (Qfloor (x / d) + 1)))
    by (rewrite <- Zle_Qle; lia).
  assert (H3 : x == (x / d) * d)
    by (field; intros C; rewrite C in Hd; discriminate Hd).
  rewrite H3 at 1. apply Qmult_lt_compat_r; [exact Hd | lra].
Qed.

Lemma sliding_windows_unfold fuel start :
  sliding_windows (S fuel) start end_ win step =
  if fits end_ win start
  then option_map (cons (start, Float.rnd (start + win)))
         (sliding_windows fuel (Float.rnd (start + step)) end_ win step)
  else Some [].
Proof. reflexivity. Qed.

(** Draining the generator is resuming it until it is exhausted. *)
Lemma sliding_windows_resume fuel start :
  sliding_windows (S fuel) start end_ win step =
  match sliding_windows_next end_ win step start with
  | Some (w, t) =>
      option_map (cons w) (sliding_windows fuel t end_ win step)
  | None => Some []
  end.
Proof.
  rewrite sliding_windows_unfold. unfold sliding_windows_next, fits.
  now destruct (Qle_bool _ _).
Qed.

Lemma loop_var_succ i start :
  loop_var step (S i) start = Float.rnd (loop_var step i start + step).
Proof.
  revert start. induction i as [|i IH]; intros start;
    [reflexivity | exact (IH _)].
Qed.

(** Every window yielded starts at the accumulated loop variable and
    passed the loop test. *)
Lemma sliding_windows_lookup :
  forall fuel start ws (i : nat) (w : Q * Q),
    sliding_windows fuel start end_ win step = Some ws ->
    ws !! i = Some w ->
    w = (loop_var step i start, Float.rnd (loop_var step i start + win)) /\
    fits end_ win (loop_var step i start) = true.
Proof.
  induction fuel as [|fuel IH]; intros start ws i w Hrun Hi.
  - discriminate Hrun.
  - rewrite sliding_windows_unfold in Hrun.
    destruct (fits end_ win start) eqn:E.
    + destruct (sliding_windows fuel (Float.rnd (start + step)) end_ win step)
        as [ws'|] eqn:Hrec; [|discriminate Hrun].
      injection Hrun as <-.
      destruct i as [|i].
      * injection Hi as <-. split; [reflexivity | exact E].
      * cbn in Hi. exact (IH _ _ _ _ Hrec Hi).
    + injection Hrun as <-. discriminate Hi.
Qed.

(** The generator stops at the first position that fails the test. *)
Lemma sliding_windows_stops :
  forall fuel start ws,
    sliding_windows fuel start end_ win step = Some ws ->
    fits end_ win (loop_var step (length ws) start) = false.
Proof.
  induction fuel as [|fuel IH]; intros start ws Hrun.
  - discriminate Hrun.
  - rewrite sliding_windows_unfold in Hrun.
    destruct (fits end_ win start) eqn:E.
    + destruct (sliding_windows fuel (Float.rnd (start + step)) end_ win step)
        as [ws'|] eqn:Hrec; [|discriminate Hrun].
      injection Hrun as <-. exact (IH _ _ Hrec).
    + injection Hrun as <-. exact E.
Qed.

(** More fuel does not change a finished run. *)
Lemma sliding_windows_fuel_mono :
  forall fuel fuel' start ws,
    (fuel <= fuel')%nat ->
    sliding_windows fuel start end_ win step = Some ws ->
    sliding_windows fuel' start end_ win step = Some ws.
Proof.
  induction fuel as [|fuel IH]; intros fuel' start ws Hle Hrun.
  - discriminate Hrun.
  - destruct fuel' as [|fuel']; [lia|].
    rewrite sliding_windows_unfold in *.
    destruct (fits end_ win start); [|exact Hrun].
    destruct (sliding_windows fuel (Float.rnd (start + step)) end_ win step)
      as [ws'|] eqn:Hrec; [|discriminate Hrun].
    rewrite (IH fuel' _ ws'); [exact Hrun | lia | exact Hrec].
Qed.

(** A position that fails the test bounds the run. *)
Lemma sliding_windows_runs :
  forall (n : nat) start,
    fits end_ win (loop_var step n start) = false ->
    exists ws, sliding_windows (S n) start end_ win step = Some ws /\
               (length ws <= n)%nat.
Proof.
  induction n as [|n IH]; intros start Hn.
  - rewrite sliding_windows_unfold. cbn [loop_var] in Hn. rewrite Hn.
    exists []. split; [reflexivity | cbn; lia].
  - rewrite sliding_windows_unfold.
    destruct (fits end_ win start).
    + destruct (IH (Float.rnd (start + step)) Hn) as (ws' & Hws' & Hlen).
      rewrite Hws'. exists ((start, Float.rnd (start + win)) :: ws').
      split; [reflexivity | cbn; lia].
    + exists []. split; [reflexivity | cbn; lia].
Qed.

Lemma sliding_windows_finite_iff start :
  sliding_windows_finite start end_ win step <->
  exists n, fits end_ win (loop_var step n start) = false.
Proof.
  split.
  - intros (fuel & ws & Hrun). exists (length ws).
    exact (sliding_windows_stops _ _ _ Hrun).
  - intros (n & Hn). destruct (sliding_windows_runs n start Hn) as (ws & H & _).
    now exists (S n), ws.
Qed.

(** Once the loop variable stops changing it never changes again. *)
Lemma loop_var_stuck n start :
  loop_var step (S n) start = loop_var step n start ->
  forall k, loop_var step (n + k) start = loop_var step n start.
Proof.
  intros H k. induction k as [|k IH].
  - now rewrite Nat.add_0_r.
  - rewrite Nat.add_succ_r, loop_var_succ, IH, <- loop_var_succ. exact H.
Qed.

Lemma sliding_windows_no_progress n start :
  (forall i, (i <= n)%nat -> fits end_ win (loop_var step i start) = true) ->
  loop_var step (S n) start = loop_var step n start ->
  ~ sliding_windows_finite start end_ win step.
Proof.
  intros Hfit Hstuck Hfin.
  apply sliding_windows_finite_iff in Hfin as (m & Hm).
  destruct (Nat.le_gt_cases m n) as [Hle|Hgt].
  - rewrite (Hfit m Hle) in Hm. discriminate Hm.
  - replace m with (n + (m - n))%nat in Hm by lia.
    rewrite (loop_var_stuck n start Hstuck) in Hm.
    rewrite (Hfit n (Nat.le_refl n)) in Hm. discriminate Hm.
Qed.

(** Up to any position, either the test fails somewhere or it holds
    everywhere. *)
Lemma fits_prefix_dec (N : nat) start :
  (exists n, (n <= N)%nat /\ fits end_ win (loop_var step n start) = false) \/
  (forall i, (i <= N)%nat -> fits end_ win (loop_var step i start) = true).
Proof.
  induction N as [|N [(n & Hn & Hf)|Hall]].
  - destruct (fits end_ win (loop_var step 0 start)) eqn:E.
    + right. intros i Hi. now replace i with 0%nat by lia.
    + left. exists 0%nat. split; [lia | exact E].
  - left. exists n. split; [lia | exact Hf].
  - destruct (fits end_ win (loop_var step (S N) start)) eqn:E.
    + right. intros i Hi.
      destruct (Nat.eq_dec i (S N)) as [->|Hne]; [exact E|].
      apply Hall. lia.
    + left. exists (S N). split; [lia | exact E].
Qed.

(** A step that advances the loop variable by at least [delta] while
    the test holds, on a test that bounds the loop variable by [B],
    stops the loop within [N] steps as soon as [N * delta] exceeds
    [B - start]. *)
Lemma sliding_windows_bounded (delta B : Q) (N : nat) start :
  0 < delta ->
  (forall i, fits end_ win (loop_var step i start) = true ->
     loop_var step i start + delta <= loop_var step (S i) start) ->
  (forall i, fits end_ win (loop_var step i start) = true ->
     loop_var step i start <= B) ->
  B - start < Qnat N * delta ->
  exists ws, sliding_windows (S N) start end_ win step = Some ws /\
             (length ws <= N)%nat.
Proof.
  intros Hd Hstep HB HN.
  destruct (fits_prefix_dec N start) as [(n & Hn & Hf)|Hall].
  - destruct (sliding_windows_runs n start Hf) as (ws & Hws & Hlen).
    exists ws. split; [|lia].
    apply (sliding_windows_fuel_mono (S n)); [lia | exact Hws].
  - exfalso.
    assert (Hgrow : forall i, (i <= N)%nat ->
              start + Qnat i * delta <= loop_var step i start).
    { induction i as [|i IH]; intros Hi.
      - cbn [loop_var]. pose proof (Qnat_zero_mul delta). lra.
      - pose proof (Hstep i (Hall i ltac:(lia))).
        pose proof (IH ltac:(lia)). pose proof (Qnat_succ_mul i delta). lra. }
    pose proof (Hgrow N (Nat.le_refl N)).
    pose proof (HB N (Hall N (Nat.le_refl N))). lra.
Qed.

(** C6 (amended): [sliding_windows] yields, in order, the windows
    [(t_i, t_i + window_len)], where [t_0 = start] and
    [t_(i+1) = t_i + step] as accumulated in floating point, exactly
    while [t_i + window_len <= end + 1e-9]: a finished run holds these
    windows and stopped at the first [t_n] that fails the test, and
    more fuel does not change it.  The sequence is finite exactly when
    some [t_n] fails the test, and empty exactly when [start] does.
    It never ends when all positions up to one fit and the step no
    longer changes the loop variable there ([step = 0], or a step
    absorbed by the rounding).  It ends within [N] steps when each
    step advances the loop variable by at least [delta > 0] while the
    test holds, the test bounds the loop variable by [B], and
    [N * delta > B - start]. *)
Theorem sliding_windows_enumerates start :
  let t := fun i : nat => loop_var step i start in
  (forall fuel ws,
     sliding_windows fuel start end_ win step = Some ws ->
     (forall (i : nat) (w : Q * Q), ws !! i = Some w ->
        w = (t i, Float.rnd (t i + win)) /\ fits end_ win (t i) = true) /\
     fits end_ win (t (length ws)) = false /\
     (forall fuel', (fuel <= fuel')%nat ->
        sliding_windows fuel' start end_ win step = Some ws)) /\
  (sliding_windows_finite start end_ win step <->
   exists n, fits end_ win (t n) = false) /\
  ((exists fuel, sliding_windows fuel start end_ win step = Some []) <->
   fits end_ win start = false) /\
  (forall n : nat,
     (forall i, (i <= n)%nat -> fits end_ win (t i) = true) ->
     t (S n) = t n ->
     ~ sliding_windows_finite start end_ win step) /\
  (forall (delta B : Q) (N : nat),
     0 < delta ->
     (forall i, fits end_ win (t i) = true -> t i + delta <= t (S i)) ->
     (forall i, fits end_ win (t i) = true -> t i <= B) ->
     B - start < Qnat N * delta ->
     exists ws, sliding_windows (S N) start end_ win step = Some ws /\
                (length ws <= N)%nat).
Proof.
  intros t. split; [|split; [|split; [|split]]].
  - intros fuel ws Hrun. split; [|split].
    + intros i w Hi. exact (sliding_windows_lookup _ _ _ _ _ Hrun Hi).
    + exact (sliding_windows_stops _ _ _ Hrun).
    + intros fuel' Hle. exact (sliding_windows_fuel_mono _ _ _ _ Hle Hrun).
  - apply sliding_windows_finite_iff.
  - split.
    + intros (fuel & Hrun).
      exact (sliding_windows_stops _ _ _ Hrun).
    + intros Hf. exists 1%nat. rewrite sliding_windows_unfold.
      now rewrite Hf.
  - intros n. apply sliding_windows_no_progress.
  - intros delta B N. apply sliding_windows_bounded.
Qed.

End SlidingFacts.

(** In exact arithmetic the loop variable is [start + i*step], and
    every positive step ends the loop. *)
Section SlidingExact.
Import Windows.
Variables end_ win step : Q.

Lemma loop_var_exact (i : nat) start :
  loop_var (R := Float.exact) step i start == start + Qnat i * step.
Proof.
  revert start. induction i as [|i IH]; intros start.
  - cbn [loop_var]. pose proof (Qnat_zero_mul step). lra.
  - cbn [loop_var]. rewrite IH. cbn [Float.rnd Float.exact].
    pose proof (Qnat_succ_mul i step). lra.
Qed.

Lemma fits_exact t :
  fits (R := Float.exact) end_ win t = true <-> t + win <= end_ + tol.
Proof. unfold fits. cbn [Float.rnd Float.exact]. apply Qle_bool_iff. Qed.

(** With a step that does not advance, a generator that yields once
    yields forever. *)
Lemma sliding_windows_stuck :
  step <= 0 ->
  forall fuel start,
    start + win <= end_ + tol ->
    sliding_windows (R := Float.exact) fuel start end_ win step = None.
Proof.
  intros Hstep. induction fuel as [|fuel IH]; intros start Hc.
  - reflexivity.
  - rewrite sliding_windows_unfold.
    rewrite (proj2 (fits_exact start) Hc).
    rewrite IH; [reflexivity | cbn [Float.rnd Float.exact]; lra].
Qed.

Lemma sliding_windows_exact_finite start :
  0 < step ->
  sliding_windows_finite (R := Float.exact) start end_ win step.
Proof.
  intros Hstep.
  destruct (Qnat_archimedean (end_ + tol - win - start) step Hstep)
    as [N HN].
  destruct (sliding_windows_bounded (R := Float.exact) end_ win step step
              (end_ + tol - win) N start Hstep) as (ws & Hws & _).
  - intros i _. rewrite loop_var_succ. cbn [Float.rnd Float.exact]. lra.
  - intros i Hi. apply fits_exact in Hi. lra.
  - exact HN.
  - now exists (S N), ws.
Qed.

End SlidingExact.

Section SlidingExamples.
Import Windows.

(** C6 (as stated) fails: the generator has no guard on [step].  With
    [step = 0] and a first window that fits, [sliding_windows(0, 1, 1, 0)]
    yields [(0, 1)] without end. *)
Lemma sliding_windows_zero_step_diverges :
  ~ sliding_windows_finite (R := Float.binary64) 0 1 1 0.
Proof.
  apply (sliding_windows_no_progress (R := Float.binary64) 1 1 0 0 0).
  - intros i Hi. replace i with 0%nat by lia. vm_compute. reflexivity.
  - vm_compute. reflexivity.
Qed.

(** A positive step does not help once the rounding absorbs it: in
    double precision [2^53 + 1] rounds to [2^53], and
    [sliding_windows(2^53, 2^53 + 10, 1, 1)] never ends. *)
Lemma sliding_windows_absorbed_step_diverges :
  0 < 1 /\
  ~ sliding_windows_finite (R := Float.binary64)
      9007199254740992 9007199254741002 1 1.
Proof.
  split; [reflexivity|].
  apply (sliding_windows_no_progress (R := Float.binary64)
           9007199254741002 1 1 0 9007199254740992).
  - intros i Hi. replace i with 0%nat by lia. vm_compute. reflexivity.
  - vm_compute. reflexivity.
Qed.

(** The tolerance also lets a window slightly longer than [end - start]
    through: the sequence is not empty for every
    [window_len > end - start]. *)
Lemma sliding_windows_within_tolerance :
  (1 - 0 < Float.round64 (1 + (1 # 2000000000))) /\
  exists w,
    sliding_windows (R := Float.binary64) 2 0 1
      (Float.round64 (1 + (1 # 2000000000))) 1 = Some [w].
Proof.
  split; [vm_compute; reflexivity|].
  eexists. vm_compute. reflexivity.
Qed.

Lemma sliding_windows_enumerates_witness :
  let t1 := Float.round64 (3 # 10) in
  let w := Float.round64 (4 # 10) in
  sliding_windows (R := Float.binary64) 4 0 1 w t1
  = Some [(0, w); (t1, Float.round64 (t1 + w));
          (Float.round64 (t1 + t1),
           Float.round64 (Float.round64 (t1 + t1) + w))] /\
  fits (R := Float.binary64) 1 w
    (loop_var (R := Float.binary64) t1 3 0) = false.
Proof.
  intros t1 w.
  assert (Hrun : sliding_windows (R := Float.binary64) 4 0 1 w t1
                 = Some [(0, w); (t1, Float.round64 (t1 + w));
                         (Float.round64 (t1 + t1),
                          Float.round64 (Float.round64 (t1 + t1) + w))])
    by (vm_compute; reflexivity).
  split; [exact Hrun|].
  destruct (sliding_windows_enumerates (R := Float.binary64) 1 w t1 0)
    as (Hfin & _).
  destruct (Hfin _ _ Hrun) as (_ & Hstop & _). exact Hstop.
Defined.

End SlidingExamples.

(** ** Session state *)

Section SessionFacts.
Import Store Session.

(** C1: assigning a recording to [raw_data] clears the processed data
    and the filter-applied flag; right afterwards [get_current_data()]
    is the recording just assigned and [filter_applied] is [False]. *)
Theorem set_raw_data_resets (st : gmap string value) (a : addr) :
  let st' := set_raw_data (VRaw a) st in
  raw_data st' = VRaw a /\
  processed_data st' = VNone /\
  filter_applied st' = VBool false /\
  get_current_data st' = VRaw a.
Proof.
  assert (Hp : processed_data (set_raw_data (VRaw a) st) = VNone).
  { unfold processed_data, state_get, set_raw_data, set_filter_applied,
      set_processed_data. cbn [is_none negb].
    rewrite lookup_insert_ne by discriminate.
    now rewrite lookup_insert_eq. }
  assert (Hr : raw_data (set_raw_data (VRaw a) st) = VRaw a).
  { unfold raw_data, state_get, set_raw_data, set_filter_applied,
      set_processed_data. cbn [is_none negb].
    rewrite !lookup_insert_ne by discriminate.
    now rewrite lookup_insert_eq. }
  cbv zeta. repeat split.
  - exact Hr.
  - exact Hp.
  - unfold filter_applied, state_get, set_raw_data, set_filter_applied.
    cbn [is_none negb]. now rewrite lookup_insert_eq.
  - unfold get_current_data. rewrite Hp. cbn [is_none negb]. exact Hr.
Qed.

(** The setter's guard: assigning [None] leaves the processed data and
    the flag as they were. *)
Lemma set_raw_data_none_keeps (st : gmap string value) :
  processed_data (set_raw_data VNone st) = processed_data st /\
  filter_applied (set_raw_data VNone st) = filter_applied st.
Proof.
  unfold processed_data, filter_applied, state_get, set_raw_data.
  cbn [is_none negb]. now rewrite !lookup_insert_ne by discriminate.
Qed.

(** With processed data present, [get_current_data()] is the processed
    recording. *)
Lemma get_current_data_prefers_processed (st : gmap string value) a :
  st !! k_processed = Some (VRaw a) -> get_current_data st = VRaw a.
Proof.
  intros H. unfold get_current_data, processed_data, state_get.
  now rewrite H.
Qed.

(** Clearing the session leaves no current data and an unset flag. *)
Lemma clear_session_no_data (st : gmap string value) :
  get_current_data (clear_session st) = VNone /\
  filter_applied (clear_session st) = VBool false.
Proof.
  unfold get_current_data, processed_data, raw_data, filter_applied,
    state_get, clear_session.
  rewrite lookup_delete_eq.
  rewrite (lookup_delete_ne _ k_filter k_processed) by discriminate.
  rewrite lookup_delete_eq. cbn [default is_none negb].
  rewrite (lookup_delete_ne _ k_filter k_raw) by discriminate.
  rewrite (lookup_delete_ne _ k_processed k_raw) by discriminate.
  now rewrite lookup_delete_eq.
Qed.

End SessionFacts.

(** ** Filter pipeline *)

Section PipelineFacts.
Import Mne Store Filtering.
Context `{lib : Library}.

Lemma filter_cutoffs_app cs ds :
  filter_cutoffs (cs ++ ds) = filter_cutoffs cs ++ filter_cutoffs ds.
Proof. unfold filter_cutoffs. apply omap_app. Qed.

Lemma py_min_le_r a b : Py.min a b <= b.
Proof. py_minmax; lra. Qed.

Section Steps.
Variables (w0 : World) (proc : addr) (bound : Q).

Lemma inv_log w c :
  Forall (fun h => h <= bound) (filter_cutoffs [c]) ->
  pipeline_inv w0 proc bound w ->
  pipeline_inv w0 proc bound (mkWorld (heap w) (trace w ++ [c])).
Proof.
  intros Hc [Hf Ha (calls & Ht & Hb)]. split; cbn [heap trace]; auto.
  exists (calls ++ [c]). split.
  - rewrite Ht. now rewrite app_assoc.
  - rewrite filter_cutoffs_app. now apply Forall_app.
Qed.

Lemma inv_store w p :
  pipeline_inv w0 proc bound w ->
  pipeline_inv w0 proc bound (mkWorld (<[proc := p]> (heap w)) (trace w)).
Proof.
  intros [Hf Ha Ht]. split; cbn [heap trace]; auto.
  - intros a Hne. rewrite lookup_insert_ne by congruence. now apply Hf.
  - rewrite lookup_insert_eq. eauto.
Qed.

Lemma preserves_ret {A} sf (R : A -> Prop) (a : A) :
  R a -> preserves w0 proc bound sf sf R (ret a).
Proof.
  intros HR w p Hinv Hp Hsf. cbn. eauto.
Qed.

Lemma preserves_bind {A B} sf1 sf2 sf3 (R1 : A -> Prop) (R2 : B -> Prop)
    (m : M A) (k : A -> M B) :
  preserves w0 proc bound sf1 sf2 R1 m ->
  (forall a, R1 a -> preserves w0 proc bound sf2 sf3 R2 (k a)) ->
  preserves w0 proc bound sf1 sf3 R2 (bind m k).
Proof.
  intros Hm Hk w p Hinv Hp Hsf. unfold bind.
  specialize (Hm w p Hinv Hp Hsf).
  destruct (m w) as [[a|e|] w1]; [|exact Hm|exact Hm].
  destruct Hm as (Hinv1 & HR & p1 & Hp1 & Hsf1).
  exact (Hk a HR w1 p1 Hinv1 Hp1 Hsf1).
Qed.

Lemma preserves_deref {A} sf1 sf2 (R : A -> Prop) (k : Raw -> M A) :
  (forall p, sfreq p = sf1 -> preserves w0 proc bound sf1 sf2 R (k p)) ->
  preserves w0 proc bound sf1 sf2 R (bind (deref proc) k).
Proof.
  intros Hk w p Hinv Hp Hsf. unfold bind, deref. rewrite Hp.
  exact (Hk p Hsf w p Hinv Hp Hsf).
Qed.

Lemma preserves_method sf1 sf2 c who (f : Raw -> option Raw) :
  Forall (fun h => h <= bound) (filter_cutoffs [c]) ->
  (forall o o', f o = Some o' -> sfreq o = sf1 -> sfreq o' = sf2) ->
  (library_returns -> forall o, is_Some (f o)) ->
  preserves w0 proc bound sf1 sf2 (fun _ => True) (method proc c who f).
Proof.
  intros Hc Hf Htot w p Hinv Hp Hsf. unfold method, bind, deref, log.
  rewrite Hp. destruct (f p) as [p'|] eqn:E; cbn.
  - split; [|split; [exact I|]].
    + apply inv_store with (w := mkWorld (heap w) (trace w ++ [c])).
      now apply inv_log.
    + exists p'. rewrite lookup_insert_eq. split; [reflexivity|].
      now apply (Hf p p').
  - split; [now apply inv_log|].
    intros Hlib. destruct (Htot Hlib p) as [p' Hp']. congruence.
Qed.

Lemma preserves_data_method sf c who (g : Raw -> option (list (list Q))) :
  Forall (fun h => h <= bound) (filter_cutoffs [c]) ->
  (library_returns -> forall o, is_Some (g o)) ->
  preserves w0 proc bound sf sf (fun _ => True)
    (method proc c who (fun o => option_map (with_data o) (g o))).
Proof.
  intros Hc Htot. apply preserves_method; [exact Hc| |].
  - intros o o' Ho Hsf. destruct (g o); [|discriminate Ho].
    injection Ho as <-. exact Hsf.
  - intros Hlib o. destruct (Htot Hlib o) as [d ->]. cbn. eauto.
Qed.

Lemma preserves_resample_step r resample :
  preserves w0 proc bound (sfreq r) (current_rate r resample)
    (fun _ => True) (resample_step proc resample).
Proof.
  unfold resample_step. apply preserves_deref. intros p Hp.
  unfold current_rate. rewrite <- Hp.
  destruct resample as [q|]; [|now apply preserves_ret].
  destruct (truthy (Some q) && Py.Qltb rate_tol (Qabs (sfreq p - q)));
    [|now apply preserves_ret].
  apply preserves_method; [constructor| |].
  - intros o o' Ho _. destruct (resample_data o q); [|discriminate Ho].
    now injection Ho as <-.
  - intros Hlib o. destruct (Hlib o) as (Hr & _).
    destruct (Hr q) as [d ->]. cbn. eauto.
Qed.

Lemma preserves_notch_step sf notch :
  preserves w0 proc bound sf sf (fun _ => True) (notch_step proc notch).
Proof.
  unfold notch_step. destruct notch as [f|]; [|now apply preserves_ret].
  apply preserves_data_method; [constructor|].
  intros Hlib o. now destruct (Hlib o) as (_ & Hn & _).
Qed.

Lemma preserves_filter_step sf l_freq h_freq :
  sf / 2 - 1 <= bound ->
  preserves w0 proc bound sf sf (fun _ => True)
    (filter_step proc l_freq h_freq).
Proof.
  intros Hb. unfold filter_step.
  destruct (is_Some_b l_freq || is_Some_b h_freq);
    [|now apply preserves_ret].
  apply preserves_deref. intros p Hp.
  apply preserves_data_method.
  - cbn. constructor; [|constructor]. rewrite Hp.
    pose proof (py_min_le_r (py_or h_freq (sf / 2 - 1)) (sf / 2 - 1)).
    lra.
  - intros Hlib o. now destruct (Hlib o) as (_ & _ & Hf & _).
Qed.

Lemma preserves_interpolate_step sf interpolate :
  preserves w0 proc bound sf sf (fun _ => True)
    (interpolate_step proc interpolate).
Proof.
  unfold interpolate_step. apply preserves_deref. intros p Hp.
  destruct (interpolate && negb (length (bads p) =? 0)%nat);
    [|now apply preserves_ret].
  apply preserves_data_method; [constructor|].
  intros Hlib o. now destruct (Hlib o) as (_ & _ & _ & Hi & _).
Qed.

Lemma preserves_reference_step sf ref_avg :
  preserves w0 proc bound sf sf (fun _ => True)
    (reference_step proc ref_avg).
Proof.
  unfold reference_step. destruct ref_avg; [|now apply preserves_ret].
  apply preserves_data_method; [constructor|].
  intros Hlib o. now destruct (Hlib o) as (_ & _ & _ & _ & Ha).
Qed.

End Steps.

(** The whole pipeline, from the world [w] it is called in. *)
Lemma apply_pipeline_summary w raw r notch l_freq h_freq resample
    ref_avg interpolate :
  heap w !! raw = Some r ->
  let proc := fresh (dom (heap w)) in
  let bound := current_rate r resample / 2 - 1 in
  match apply_pipeline raw notch l_freq h_freq resample ref_avg interpolate w
  with
  | (Returns a, w') => a = proc /\ pipeline_inv w proc bound w'
  | (Raises _, w') => pipeline_inv w proc bound w' /\ ~ library_returns
  | (Diverges, _) => False
  end.
Proof.
  intros Hraw proc bound.
  unfold apply_pipeline, bind at 1, copy. rewrite Hraw. fold proc.
  set (w1 := mkWorld (<[proc := r]> (heap w)) (trace w ++ [CallCopy raw proc])).
  assert (Hinv : pipeline_inv w proc bound w1).
  { split; unfold w1; cbn [heap trace].
    - intros a Hne. now rewrite lookup_insert_ne by congruence.
    - rewrite lookup_insert_eq. eauto.
    - exists [CallCopy raw proc]. split; [reflexivity|constructor]. }
  assert (Hp : heap w1 !! proc = Some r)
    by (unfold w1; cbn [heap]; apply lookup_insert_eq).
  assert (Hrest :
    preserves w proc bound (sfreq r) (current_rate r resample)
      (fun a => a = proc)
      (resample_step proc resample ;;;
       notch_step proc notch ;;;
       filter_step proc l_freq h_freq ;;;
       interpolate_step proc interpolate ;;;
       reference_step proc ref_avg ;;;
       ret proc)).
  { eapply preserves_bind; [apply preserves_resample_step|intros _ _].
    eapply preserves_bind; [apply preserves_notch_step|intros _ _].
    eapply preserves_bind;
      [apply preserves_filter_step; apply Qle_refl|intros _ _].
    eapply preserves_bind; [apply preserves_interpolate_step|intros _ _].
    eapply preserves_bind; [apply preserves_reference_step|intros _ _].
    now apply preserves_ret. }
  specialize (Hrest w1 r Hinv Hp eq_refl).
  match goal with
  | |- let (_, _) := ?m in _ => destruct m as [[a|e|] w']
  end; [|exact Hrest|exact Hrest].
  destruct Hrest as (H1 & H2 & _). auto.
Qed.

Lemma fresh_addr_unused (w : World) :
  heap w !! fresh (dom (heap w)) = None.
Proof. apply not_elem_of_dom. apply is_fresh. Qed.

(** With every step off, the pipeline is the copy alone. *)
Lemma apply_pipeline_disabled w raw r resample :
  heap w !! raw = Some r ->
  truthy resample = false ->
  apply_pipeline raw None None None resample false false w =
  (Returns (fresh (dom (heap w))),
   mkWorld (<[fresh (dom (heap w)) := r]> (heap w))
     (trace w ++ [CallCopy raw (fresh (dom (heap w)))])).
Proof.
  intros Hraw Hres.
  unfold apply_pipeline, resample_step, notch_step, filter_step,
    interpolate_step, reference_step, bind, copy, deref, ret.
  rewrite Hraw. cbn [heap trace is_Some_b orb andb].
  rewrite !lookup_insert_eq.
  destruct resample as [q|]; [rewrite Hres|]; cbn [andb heap];
    rewrite ?lookup_insert_eq; reflexivity.
Qed.

(** C7: whatever the parameters, [apply_pipeline] leaves the input
    recording, and every other recording that existed, as it was; it
    never loops and raises only if a library routine does; the object
    it returns is new (it did not exist before, so it is not the
    caller's instance); and with notch, l_freq, h_freq, resample,
    ref_avg and interpolate all absent or off it returns a copy whose
    state, channel data included, equals the input's. *)
Theorem apply_pipeline_fresh_copy w raw r notch l_freq h_freq resample
    ref_avg interpolate :
  heap w !! raw = Some r ->
  let res :=
    apply_pipeline raw notch l_freq h_freq resample ref_avg interpolate w in
  heap (snd res) !! raw = Some r /\
  (forall a, is_Some (heap w !! a) -> heap (snd res) !! a = heap w !! a) /\
  (forall proc, fst res = Returns proc ->
     proc <> raw /\ heap w !! proc = None /\
     is_Some (heap (snd res) !! proc)) /\
  fst res <> Diverges /\
  (library_returns -> exists proc, fst res = Returns proc) /\
  (notch = None -> l_freq = None -> h_freq = None ->
   truthy resample = false -> ref_avg = false -> interpolate = false ->
   exists proc, fst res = Returns proc /\ heap (snd res) !! proc = Some r).
Proof.
  intros Hraw res.
  pose proof (apply_pipeline_summary w raw r notch l_freq h_freq resample
                ref_avg interpolate Hraw) as Hsum.
  cbv zeta in Hsum. fold res in Hsum.
  pose proof (fresh_addr_unused w) as Hfresh.
  set (proc := fresh (dom (heap w))) in *.
  assert (Hne : raw <> proc) by (intros ->; congruence).
  assert (Hframe : forall a, is_Some (heap w !! a) ->
                     heap (snd res) !! a = heap w !! a).
  { intros a [x Ha].
    assert (a <> proc) by (intros ->; congruence).
    destruct res as [[b|e|] w']; cbn [snd].
    - destruct Hsum as (_ & [Hf _ _]). now apply Hf.
    - destruct Hsum as ([Hf _ _] & _). now apply Hf.
    - destruct Hsum. }
  split; [rewrite Hframe; eauto|].
  split; [exact Hframe|].
  split.
  { intros b Hb. destruct res as [[b'|e|] w']; cbn [fst snd] in *;
      try discriminate Hb.
    injection Hb as ->. destruct Hsum as (-> & [_ Ha _]).
    repeat split; [congruence|exact Hfresh|exact Ha]. }
  split.
  { destruct res as [[b'|e|] w']; cbn [fst]; try discriminate.
    destruct Hsum. }
  split.
  { intros Hlib. destruct res as [[b'|e|] w']; cbn [fst]; eauto.
    - now destruct Hsum as (_ & Hn).
    - destruct Hsum. }
  intros -> -> -> Hres -> ->. exists proc.
  subst res.
  rewrite (apply_pipeline_disabled w raw r resample Hraw Hres).
  cbn [fst snd heap]. fold proc. now rewrite lookup_insert_eq.
Qed.

(** C3 (amended): every band-filter call a run of the pipeline makes
    has a high cutoff of at most (rate after the resampling step)/2 - 1,
    whatever [h_freq] was requested. *)
Theorem apply_pipeline_cutoff_bound w raw r notch l_freq h_freq resample
    ref_avg interpolate :
  heap w !! raw = Some r ->
  forall hf,
    hf ∈ run_cutoffs w raw notch l_freq h_freq resample ref_avg interpolate ->
    hf <= current_rate r resample / 2 - 1.
Proof.
  intros Hraw hf Hin.
  pose proof (apply_pipeline_summary w raw r notch l_freq h_freq resample
                ref_avg interpolate Hraw) as Hsum.
  cbv zeta in Hsum. unfold run_cutoffs in Hin.
  destruct (apply_pipeline raw notch l_freq h_freq resample ref_avg
              interpolate w) as [[b|e|] w']; cbn [snd] in Hin.
  - destruct Hsum as (_ & [_ _ (calls & Ht & Hall)]).
    rewrite Ht, drop_app_length in Hin.
    rewrite Forall_forall in Hall. now apply Hall.
  - destruct Hsum as ([_ _ (calls & Ht & Hall)] & _).
    rewrite Ht, drop_app_length in Hin.
    rewrite Forall_forall in Hall. now apply Hall.
  - destruct Hsum.
Qed.

End PipelineFacts.

Section PipelineExamples.
Import Mne Store Filtering SimpleLib.

Lemma world_of_lookup r : heap (world_of r) !! 0%nat = Some r.
Proof. apply lookup_singleton_eq. Qed.

Lemma simple_library_returns : library_returns (lib := simple_library).
Proof. intros o. cbn. repeat split; eauto. Qed.

(** C3 (as stated) fails at the boundary: on a 256 Hz recording a
    request of [h_freq = 200 >= 128] gives the cutoff [256/2 - 1 = 127],
    which is [>= sf/2 - 1.0]. *)
Lemma nyquist_clamp_reaches_bound :
  ~ nyquist_clamp_spec (lib := simple_library) (world_of raw256) 0%nat
      None None (Some 200) None false false.
Proof.
  intros H.
  specialize (H raw256 200 (world_of_lookup raw256) eq_refl).
  assert (Hc : run_cutoffs (lib := simple_library) (world_of raw256) 0%nat
                 None None (Some 200) None false false = [256 / 2 - 1])
    by (vm_compute; reflexivity).
  rewrite Hc in H.
  assert (Hlt : 256 / 2 - 1 < sfreq raw256 / 2 - 1).
  { apply H; [vm_compute; discriminate | apply list_elem_of_here]. }
  vm_compute in Hlt. discriminate Hlt.
Qed.

Lemma apply_pipeline_cutoff_bound_witness :
  heap (world_of raw256) !! 0%nat = Some raw256 /\
  forall hf,
    hf ∈ run_cutoffs (lib := simple_library) (world_of raw256) 0%nat
           (Some 50) (Some 1) (Some 200) (Some 128) true false ->
    hf <= 128 / 2 - 1.
Proof.
  split; [apply world_of_lookup|].
  intros hf Hin.
  pose proof (apply_pipeline_cutoff_bound (lib := simple_library)
                (world_of raw256) 0%nat raw256
                (Some 50) (Some 1) (Some 200) (Some 128) true false
                (world_of_lookup raw256) hf Hin) as Hb.
  assert (Hr : current_rate raw256 (Some 128) = 128) by reflexivity.
  rewrite Hr in Hb. exact Hb.
Defined.

Lemma apply_pipeline_fresh_copy_witness :
  heap (world_of raw256) !! 0%nat = Some raw256 /\
  heap (snd (apply_pipeline (lib := simple_library) 0%nat
               (Some 50) (Some 1) (Some 45) None true true
               (world_of raw256))) !! 0%nat = Some raw256.
Proof.
  split; [apply world_of_lookup|].
  destruct (apply_pipeline_fresh_copy (lib := simple_library)
              (world_of raw256) 0%nat raw256
              (Some 50) (Some 1) (Some 45) None true true
              (world_of_lookup raw256)) as (Hsame & _).
  exact Hsame.
Defined.

End PipelineExamples.

(** ** Band power *)

Section PsdFacts.
Import Mne Np Psd.
Context `{np : Numpy} `{lib : Library}.

Lemma py_Zmin_min a b : Py.Zmin a b = Z.min a b.
Proof. unfold Py.Zmin. destruct (Z.ltb_spec b a); lia. Qed.

Lemma py_Zmax_max a b : Py.Zmax a b = Z.max a b.
Proof. unfold Py.Zmax. destruct (Z.ltb_spec a b); lia. Qed.

Lemma fft_window_eq n :
  fft_window n = (Z.max (Z.min 512 n) 64, Z.max (Z.min 512 n) 64 / 2)%Z.
Proof.
  unfold fft_window. rewrite !py_Zmax_max, py_Zmin_min.
  f_equal. apply Z.max_r. apply Z.div_pos; lia.
Qed.

(** C8 (amended): for a segment of [n] samples both estimators call
    the spectral routine with window length [max(min(512, n), 64)] and
    overlap half of it (integer division), so the window lies in
    [[64, 512]].  For [n >= 64] it is [min(512, n)] and fits the
    segment.  For [n < 64] it is 64, longer than the segment: a short
    segment does not get a smaller window.  Each function returns the
    row means of what the routine returns and raises when the routine
    does; with a library that refuses a window longer than the data,
    both raise on every segment of fewer than 64 samples. *)
Theorem bandpower_fft_window (seg : Raw) (fmin fmax : Q)
    (picks : option (list string)) :
  let n := n_times seg in
  let nfft := Z.max (Z.min 512 n) 64 in
  let nover := (nfft / 2)%Z in
  fft_window n = (nfft, nover) /\
  (64 <= nfft <= 512)%Z /\
  (0 <= nover < nfft)%Z /\
  (64 <= n -> nfft = Z.min 512 n /\ nfft <= n)%Z /\
  (n < 64 -> nfft = 64 /\ n < nfft)%Z /\
  bandpower_segment seg fmin fmax picks =
    match compute_psd seg fmin fmax picks nfft nover with
    | Some psd => Returns (map row_mean psd)
    | None => Raises (Exn "compute_psd")
    end /\
  bandpower_mean seg fmin fmax picks =
    match compute_psd seg fmin fmax picks nfft nover with
    | Some psd => Returns (map row_mean psd)
    | None => Raises (Exn "compute_psd")
    end /\
  (refuses_long_windows -> (n < 64)%Z ->
   bandpower_segment seg fmin fmax picks = Raises (Exn "compute_psd") /\
   bandpower_mean seg fmin fmax picks = Raises (Exn "compute_psd")).
Proof.
  intros n nfft nover.
  assert (Hw : fft_window n = (nfft, nover)) by apply fft_window_eq.
  assert (Hb : (64 <= nfft <= 512)%Z) by (unfold nfft; lia).
  assert (Hseg : bandpower_segment seg fmin fmax picks =
                 match compute_psd seg fmin fmax picks nfft nover with
                 | Some psd => Returns (map row_mean psd)
                 | None => Raises (Exn "compute_psd")
                 end).
  { unfold bandpower_segment. fold n. rewrite Hw.
    now destruct (compute_psd seg fmin fmax picks nfft nover). }
  assert (Hmean : bandpower_mean seg fmin fmax picks =
                  match compute_psd seg fmin fmax picks nfft nover with
                  | Some psd => Returns (map row_mean psd)
                  | None => Raises (Exn "compute_psd")
                  end).
  { unfold bandpower_mean. fold n. rewrite Hw.
    now destruct (compute_psd seg fmin fmax picks nfft nover). }
  split; [exact Hw|].
  split; [exact Hb|].
  split.
  { unfold nover. split; [apply Z.div_pos; lia|].
    apply Z.div_lt; lia. }
  split; [unfold nfft; lia|].
  split; [unfold nfft; lia|].
  split; [exact Hseg|].
  split; [exact Hmean|].
  intros Hlib Hn. rewrite Hseg, Hmean.
  rewrite (Hlib seg fmin fmax picks nfft nover) by (unfold nfft, n in *; lia).
  split; reflexivity.
Qed.

End PsdFacts.

(** ** Frame sequencer *)

Section FrameFacts.
Import Mne Np Windows Psd TemporalGif.
Context `{R : Float.Rounding} `{np : Numpy} `{lib : Library}.

Lemma collect_frames_all_skipped raw fmin fmax picks wins :
  (forall w, w ∈ wins -> window_frame raw fmin fmax picks w = Returns None) ->
  collect_frames raw fmin fmax picks wins = Returns ([], []).
Proof.
  induction wins as [|w wins IH]; intros Hall.
  - reflexivity.
  - cbn [collect_frames].
    rewrite (Hall w) by apply list_elem_of_here.
    rewrite IH; [reflexivity|].
    intros w' Hw'. apply Hall. now apply list_elem_of_further.
Qed.

Lemma build_frames_long_enough fuel raw fmin fmax picks start end_ win_len
    step pmin pmax ws :
  ~ Float.rnd (end_ - start) < 1 # 4 ->
  sliding_windows fuel start end_ win_len step = Some ws ->
  build_frames fuel raw fmin fmax picks start end_ win_len step pmin pmax =
  run_bind
    (collect_frames raw fmin fmax picks
       match ws with [] => [(start, end_)] | _ => ws end)
    (fun r =>
       match fst r with
       | [] => Returns None
       | _ =>
           run_bind (vstack (fst r)) (fun frames =>
           run_bind (color_range frames pmin pmax) (fun vr =>
           Returns (Some (frames, snd r, vr))))
       end).
Proof.
  intros Hlen Hws. unfold build_frames.
  destruct (Py.Qltb (Float.rnd (end_ - start)) (1 # 4)) eqn:E.
  - apply Qltb_lt in E. contradiction.
  - now rewrite Hws.
Qed.

(** What one window does: a failing [crop] raises, fewer than 32
    samples skip the window, a failing spectral estimate raises, and a
    band power that is not finite skips the window. *)
Lemma window_frame_cases raw fmin fmax picks w :
  window_frame raw fmin fmax picks w =
  match crop raw (fst w) (snd w) with
  | None => Raises (Exn "crop")
  | Some seg =>
      if (Z.min 512 (n_times seg) <? 32)%Z then Returns None
      else
        let nfft := Z.max (Z.min 512 (n_times seg)) 64 in
        match compute_psd seg fmin fmax picks nfft (nfft / 2) with
        | None => Raises (Exn "compute_psd")
        | Some psd => Returns (all_finite (map row_mean psd))
        end
  end.
Proof.
  unfold window_frame. destruct (crop raw (fst w) (snd w)) as [seg|];
    [|reflexivity].
  cbn [lift_opt run_bind]. rewrite py_Zmin_min.
  destruct (Z.min 512 (n_times seg) <? 32)%Z; [reflexivity|].
  unfold bandpower_segment. rewrite fft_window_eq.
  now destruct (compute_psd seg fmin fmax picks _ _).
Qed.

Lemma window_frame_ends raw fmin fmax picks w :
  window_frame raw fmin fmax picks w <> Diverges.
Proof.
  rewrite window_frame_cases.
  destruct (crop raw (fst w) (snd w)) as [seg|]; [|discriminate].
  destruct (Z.min 512 (n_times seg) <? 32)%Z; [discriminate|].
  cbv zeta. now destruct (compute_psd seg fmin fmax picks _ _).
Qed.

Lemma color_range_ends frames pmin pmax :
  color_range frames pmin pmax <> Diverges.
Proof.
  unfold color_range.
  destruct (percentile frames pmin) as [vmin|]; [|discriminate].
  destruct (percentile frames pmax) as [vmax|]; [|discriminate].
  cbn [lift_opt run_bind].
  assert (Hfb : run_bind (lift_opt "min" (flat_min frames)) (fun lo =>
                run_bind (lift_opt "max" (flat_max frames)) (fun hi =>
                if Qeq_bool lo hi
                then Returns (Float.rnd (lo - Float.rnd nudge),
                              Float.rnd (hi + Float.rnd nudge))
                else Returns (lo, hi))) <> Diverges).
  { destruct (flat_min frames) as [lo|]; [|discriminate].
    destruct (flat_max frames) as [hi|]; [|discriminate].
    cbn [lift_opt run_bind]. now destruct (Qeq_bool lo hi). }
  destruct vmin as [lo|], vmax as [hi|]; try exact Hfb.
  now destruct (Qle_bool hi lo).
Qed.

(** C4 (amended): [build_frames] returns the none-triple whenever
    [end - start < 0.25], and whenever every candidate window is
    skipped.  When the generator yields no window and
    [end - start >= 0.25] the only candidate is [(start, end)], and
    one of three things happens.  A library call on it raises ([crop],
    or the spectral estimate, which for a window of 32 to 63 samples
    is asked for 64 points): the exception leaves [build_frames].  It
    is skipped (fewer than 32 samples, or a band power that is not
    finite): the result is the none-triple.  It survives: the result
    has exactly one frame, over [(start, end)], unless the percentile
    routine raises. *)
Theorem build_frames_failure_and_fallback fuel raw fmin fmax picks
    start end_ win_len step pmin pmax :
  let call :=
    build_frames fuel raw fmin fmax picks start end_ win_len step pmin pmax in
  (Float.rnd (end_ - start) < 1 # 4 -> call = Returns None) /\
  (forall ws,
     sliding_windows fuel start end_ win_len step = Some ws ->
     (forall w, w ∈ match ws with [] => [(start, end_)] | _ => ws end ->
                window_frame raw fmin fmax picks w = Returns None) ->
     call = Returns None) /\
  (~ Float.rnd (end_ - start) < 1 # 4 ->
   sliding_windows fuel start end_ win_len step = Some [] ->
   (exists e,
      window_frame raw fmin fmax picks (start, end_) = Raises e /\
      call = Raises e) \/
   (window_frame raw fmin fmax picks (start, end_) = Returns None /\
    call = Returns None) \/
   (exists bp,
      window_frame raw fmin fmax picks (start, end_) = Returns (Some bp) /\
      ((exists vr,
          color_range [bp] pmin pmax = Returns vr /\
          call = Returns (Some ([bp], [(start, end_)], vr))) \/
       (exists e,
          color_range [bp] pmin pmax = Raises e /\ call = Raises e)))) /\
  (forall seg,
     crop raw start end_ = Some seg ->
     (32 <= n_times seg < 64)%Z ->
     window_frame raw fmin fmax picks (start, end_) =
     match compute_psd seg fmin fmax picks 64 32 with
     | None => Raises (Exn "compute_psd")
     | Some psd => Returns (all_finite (map row_mean psd))
     end).
Proof.
  intros call. split; [|split; [|split]].
  - intros Hlt. unfold call, build_frames.
    apply Qltb_lt in Hlt. now rewrite Hlt.
  - intros ws Hws Hall. unfold call, build_frames.
    destruct (Py.Qltb (Float.rnd (end_ - start)) (1 # 4)); [reflexivity|].
    rewrite Hws. now rewrite collect_frames_all_skipped.
  - intros Hlen Hws. unfold call.
    rewrite (build_frames_long_enough _ _ _ _ _ _ _ _ _ _ _ [] Hlen Hws).
    cbn [collect_frames].
    pose proof (window_frame_ends raw fmin fmax picks (start, end_)) as Hw.
    destruct (window_frame raw fmin fmax picks (start, end_))
      as [[bp|]|e|]; [| | |congruence].
    + right. right. exists bp. split; [reflexivity|].
      cbn [run_bind fst snd vstack forallb].
      pose proof (color_range_ends [bp] pmin pmax) as Hc.
      destruct (color_range [bp] pmin pmax) as [vr|e|]; [| |congruence].
      * left. exists vr. split; reflexivity.
      * right. exists e. split; reflexivity.
    + right. left. split; reflexivity.
    + left. exists e. split; reflexivity.
  - intros seg Hcrop Hn. rewrite window_frame_cases. cbn [fst snd].
    rewrite Hcrop.
    replace (Z.min 512 (n_times seg)) with (n_times seg) by lia.
    replace (n_times seg <? 32)%Z with false by (symmetry; apply Z.ltb_ge; lia).
    replace (Z.max (n_times seg) 64) with 64%Z by lia. reflexivity.
Qed.

End FrameFacts.

Section FrameExamples.
Import Mne Windows Psd TemporalGif SimpleLib.
#[local] Existing Instance Np.exact_mean.

(** C4 (as stated) fails: at 100 Hz the segment [[0, 0.25]] passes the
    length test and the generator yields no window of length 1, but
    the fallback window holds 26 samples, fewer than 32, so it is
    skipped and the result is the none-triple, not one frame. *)
Lemma build_frames_fallback_skipped :
  ~ fallback_spec (R := Float.binary64) (lib := simple_library) 1 raw100
      8 13 None 0 (1 # 4) 1 (1 # 2) 5 95.
Proof.
  intros H.
  destruct H as (bp & vr & H).
  - vm_compute. reflexivity.
  - vm_compute. discriminate.
  - vm_compute in H. discriminate H.
Qed.

(** Nor does a fallback window of 32 to 63 samples give a frame when
    the library refuses a spectral window longer than the data: at
    100 Hz the segment [[0, 0.4]] holds 41 samples, the estimate is
    asked for 64 points, and the exception leaves [build_frames]. *)
Lemma build_frames_fallback_raises :
  build_frames (R := Float.binary64) (lib := strict_library) 1 raw100
    8 13 None 0 (Float.round64 (2 # 5)) 1 (1 # 2) 5 95
  = Raises (Exn "compute_psd").
Proof. vm_compute. reflexivity. Qed.

Lemma build_frames_failure_and_fallback_witness :
  let e := Float.round64 (2 # 5) in
  ~ Float.round64 (e - 0) < 1 # 4 /\
  sliding_windows (R := Float.binary64) 1 0 e 1 (1 # 2) = Some [] /\
  exists bp vr,
    build_frames (R := Float.binary64) (lib := strict_library) 1 raw_half
      8 13 None 0 e 1 (1 # 2) 5 95
    = Returns (Some ([bp], [(0, e)], vr)).
Proof.
  intros e.
  assert (Hlen : ~ Float.round64 (e - 0) < 1 # 4)
    by (vm_compute; discriminate).
  assert (Hws : sliding_windows (R := Float.binary64) 1 0 e 1 (1 # 2)
                = Some [])
    by (vm_compute; reflexivity).
  split; [exact Hlen|]. split; [exact Hws|].
  destruct (build_frames_failure_and_fallback (R := Float.binary64)
              (lib := strict_library)
              1 raw_half 8 13 None 0 e 1 (1 # 2) 5 95)
    as (_ & _ & Hfb & _).
  destruct (Hfb Hlen Hws)
    as [(x & Hw & _)|[(Hw & _)|(bp & Hw & [(vr & _ & Hb)|(x & Hc & _)])]].
  - vm_compute in Hw. discriminate Hw.
  - vm_compute in Hw. discriminate Hw.
  - exists bp, vr. exact Hb.
  - exfalso. vm_compute in Hw. injection Hw as <-.
    vm_compute in Hc. discriminate Hc.
Defined.

End FrameExamples.

(** ** Epoch builder *)

Section EpochFacts.
Import Mne EpochsMod.
Context `{lib : Library}.

Lemma str_in_elem x labels : str_in x labels = true <-> x ∈ labels.
Proof.
  unfold str_in. rewrite existsb_exists. split.
  - intros (y & Hy & E). apply String.eqb_eq in E. subst y.
    now apply list_elem_of_In.
  - intros H. exists x. split; [now apply list_elem_of_In|].
    apply String.eqb_refl.
Qed.

Lemma filter_requested_nil (labels : list string) (mapping : EventId) :
  (forall l, l ∈ labels -> l ∉ map fst mapping) ->
  filter (fun lc => str_in (fst lc) labels = true) mapping = [].
Proof.
  intros Hdis. induction mapping as [|[l c] mapping IH].
  - reflexivity.
  - rewrite filter_cons. cbn [fst].
    destruct (decide (str_in l labels = true)) as [Hin|_].
    + apply str_in_elem in Hin. exfalso.
      apply (Hdis l Hin). cbn. apply list_elem_of_here.
    + apply IH. intros l' Hl' Hm. apply (Hdis l' Hl').
      cbn. now apply list_elem_of_further.
Qed.

(** C5: on a recording without annotations the result is the failure
    "No annotations present in the data"; on a recording whose
    annotations give at least one event, a request whose labels are all
    absent from the labels present gives the failure "No matching
    labels found. Available: ..." listing the labels present.  Both
    come with no epoch set and no label-code map, and leave the manager
    as it was. *)
Theorem create_epochs_label_failures (self : EpochManager) (raw : Raw)
    (labels_to_use : list string) (args : EpochArgs) :
  (annotations raw = [] ->
   create_epochs_from_labels self raw labels_to_use args =
   ((None, None, Some "No annotations present in the data"), self)) /\
  (forall events mapping,
     annotations raw <> [] ->
     events_from_annotations raw = Some (events, mapping) ->
     events <> [] ->
     (forall l, l ∈ labels_to_use -> l ∉ map fst mapping) ->
     create_epochs_from_labels self raw labels_to_use args =
     ((None, None,
       Some ("No matching labels found. Available: "
             +:+ repr_list (map fst mapping))), self)).
Proof.
  split.
  - intros Hnil. unfold create_epochs_from_labels, create_epochs_body.
    now rewrite Hnil.
  - intros events mapping Hann Hev Hne Hdis.
    unfold create_epochs_from_labels, create_epochs_body.
    destruct (annotations raw) as [|a anns]; [congruence|].
    cbn [length Nat.eqb]. rewrite Hev. cbn [lift_opt run_bind].
    destruct events as [|e events]; [congruence|].
    cbn [length Nat.eqb].
    now rewrite (filter_requested_nil labels_to_use mapping Hdis).
Qed.

End EpochFacts.

Section EpochExamples.
Import Mne EpochsMod SimpleLib.

Lemma create_epochs_label_failures_witness :
  create_epochs_from_labels (lib := simple_library)
    (mkEpochManager None None) raw_events ["Stim"]%string no_epoch_args =
  ((None, None,
    Some "No matching labels found. Available: ['Blink', 'Rest']"),
   mkEpochManager None None).
Proof.
  destruct (create_epochs_label_failures (lib := simple_library)
              (mkEpochManager None None) raw_events ["Stim"]%string
              no_epoch_args) as (_ & Hno).
  rewrite (Hno [(256%Z, 0%Z, 1%Z); (768%Z, 0%Z, 2%Z)]
               [("Blink", 1%Z); ("Rest", 2%Z)]%string).
  - reflexivity.
  - discriminate.
  - reflexivity.
  - discriminate.
  - intros l Hl Hm. apply list_elem_of_singleton in Hl. subst l.
    cbn in Hm. rewrite !elem_of_cons in Hm.
    destruct Hm as [Hm|[Hm|Hm]]; [discriminate Hm|discriminate Hm|].
    inversion Hm.
Defined.

End EpochExamples.

(** ** CSV marker import *)

Section MarkerFacts.
Import Mne Store MarkersCsv.
Context `{R : Float.Rounding} `{Sum : AnnotationSum}.



(** The values of a row that passes the three tests of the loop are
    numbers: the start [max(0, o)] is at least 0, the end
    [min(T, o + d)] at most [T], and the length, their rounded
    difference, positive. *)
Lemma kept_row_finite T (o d : cell) :
  cell_le d (Num 0) = false ->
  cell_le (Num T) o = false ->
  cell_le (cell_sub (cmin (Num T) (cell_add o d)) (cmax (Num 0) o)) (Num 0)
  = false ->
  exists e s,
    cmin (Num T) (cell_add o d) = Num e /\ e <= T /\
    cmax (Num 0) o = Num s /\ 0 <= s /\
    cell_sub (Num e) (Num s) = Num (Float.rnd (e - s)) /\
    0 < Float.rnd (e - s).
Proof.
  intros Hd Ho Hlen.
  assert (Hmax : exists s, cmax (Num 0) o = Num s /\ 0 <= s).
  { destruct o as [x| | |]; try discriminate Ho; unfold cmax; cbn [cell_lt].
    - destruct (Py.Qltb 0 x) eqn:E.
      + apply Qltb_lt in E. exists x. split; [reflexivity|lra].
      + exists 0. split; [reflexivity|lra].
    - exists 0. split; [reflexivity|lra].
    - exists 0. split; [reflexivity|lra]. }
  destruct Hmax as (s & Hs & Hs0). rewrite Hs in Hlen.
  assert (Hmin : (exists e, cmin (Num T) (cell_add o d) = Num e /\ e <= T)
                 \/ cmin (Num T) (cell_add o d) = NegInf).
  { unfold cmin. destruct (cell_add o d) as [z| | |]; cbn [cell_lt].
    - left. destruct (Py.Qltb z T) eqn:E.
      + apply Qltb_lt in E. exists z. split; [reflexivity|lra].
      + exists T. split; [reflexivity|lra].
    - left. exists T. split; [reflexivity|lra].
    - right. reflexivity.
    - left. exists T. split; [reflexivity|lra]. }
  destruct Hmin as [(e & He & HeT)|Hneg].
  - rewrite He in Hlen. cbn [cell_sub cell_le] in Hlen.
    exists e, s. split; [exact He|]. split; [exact HeT|].
    split; [exact Hs|]. split; [exact Hs0|]. split; [reflexivity|].
    apply Qnot_le_lt. intros C. apply Qle_bool_iff in C. congruence.
  - rewrite Hneg in Hlen. discriminate Hlen.
Qed.

(** One step of the loop on a row of two floats. *)
Lemma kept_markers_cons T (o d : cell) lab rows :
  kept_markers T ((CNum o, CNum d, lab) :: rows) =
  if cell_le d (Num 0) || cell_le (Num T) o then kept_markers T rows
  else
    let end_ := cmin (Num T) (cell_add o d) in
    let o' := cmax (Num 0) o in
    if cell_le (cell_sub end_ o') (Num 0) then kept_markers T rows
    else run_bind (kept_markers T rows) (fun rest =>
         Returns (mkAnnotation (cell_val o') (cell_val (cell_sub end_ o')) lab
                  :: rest)).
Proof.
  cbn [kept_markers]. destruct (cell_le d (Num 0)); [reflexivity|].
  cbn [orb]. now destruct (cell_le (Num T) o).
Qed.

Lemma kept_markers_sound T rows ann a :
  kept_markers T rows = Returns ann ->
  a ∈ ann ->
  exists o d e,
    (CNum o, CNum d, description a) ∈ rows /\
    cell_le d (Num 0) = false /\ cell_le (Num T) o = false /\
    cmax (Num 0) o = Num (onset a) /\ 0 <= onset a /\
    cmin (Num T) (cell_add o d) = Num e /\ e <= T /\
    duration a = Float.rnd (e - onset a) /\ 0 < duration a.
Proof.
  revert ann. induction rows as [|[[o d] lab] rows IH]; intros ann Hrun Hin.
  - injection Hrun as <-. now apply elem_of_nil in Hin.
  - assert (Hrest : forall ann', kept_markers T rows = Returns ann' ->
              a ∈ ann' ->
              exists o0 d0 e,
                (CNum o0, CNum d0, description a) ∈ (o, d, lab) :: rows /\
                cell_le d0 (Num 0) = false /\ cell_le (Num T) o0 = false /\
                cmax (Num 0) o0 = Num (onset a) /\ 0 <= onset a /\
                cmin (Num T) (cell_add o0 d0) = Num e /\ e <= T /\
                duration a = Float.rnd (e - onset a) /\ 0 < duration a).
    { intros ann' H1 H2. destruct (IH ann' H1 H2) as (o0 & d0 & e & H0 & Hr).
      exists o0, d0, e. split; [now apply list_elem_of_further|exact Hr]. }
    destruct d as [d|]; [|discriminate Hrun].
    destruct o as [o|].
    2: { cbn [kept_markers] in Hrun.
         destruct (cell_le d (Num 0)); [|discriminate Hrun].
         exact (Hrest _ Hrun Hin). }
    rewrite kept_markers_cons in Hrun.
    destruct (cell_le d (Num 0)) eqn:Ed; [exact (Hrest _ Hrun Hin)|].
    destruct (cell_le (Num T) o) eqn:Eo; [exact (Hrest _ Hrun Hin)|].
    cbn [orb] in Hrun. cbv zeta in Hrun.
    destruct (cell_le (cell_sub _ _) (Num 0)) eqn:El;
      [exact (Hrest _ Hrun Hin)|].
    destruct (kept_markers T rows) as [rest| |]; try discriminate Hrun.
    cbn [run_bind] in Hrun. injection Hrun as <-.
    apply elem_of_cons in Hin as [->|Hin]; [|exact (Hrest _ eq_refl Hin)].
    destruct (kept_row_finite T o d Ed Eo El)
      as (e & s & He & HeT & Hs & Hs0 & Hsub & Hpos).
    exists o, d, e. cbn [onset duration description].
    rewrite He, Hs, Hsub. cbn [cell_val].
    split; [apply list_elem_of_here|]. repeat split; assumption.
Qed.


Lemma kept_markers_length T rows ann :
  kept_markers T rows = Returns ann -> (length ann <= length rows)%nat.
Proof.
  revert ann. induction rows as [|[[o d] lab] rows IH]; intros ann Hrun.
  - injection Hrun as <-. cbn. lia.
  - cbn [kept_markers length] in *.
    assert (Hskip : kept_markers T rows = Returns ann ->
                    (length ann <= S (length rows))%nat)
      by (intros H; apply IH in H; lia).
    destruct d as [d|]; [|discriminate Hrun].
    destruct (cell_le d (Num 0)); [now apply Hskip|].
    destruct o as [o|]; [|discriminate Hrun].
    destruct (cell_le (Num T) o); [now apply Hskip|].
    cbv zeta in Hrun.
    destruct (cell_le (cell_sub _ _) (Num 0)); [now apply Hskip|].
    destruct (kept_markers T rows) as [rest| |]; try discriminate Hrun.
    cbn [run_bind] in Hrun. injection Hrun as <-. cbn [length]. specialize (IH rest eq_refl). lia.
Qed.

Lemma kept_markers_ends T rows : kept_markers T rows <> Diverges.
Proof.
  induction rows as [|[[o d] lab] rows IH]; [discriminate|].
  cbn [kept_markers].
  destruct d as [d|]; [|discriminate].
  destruct (cell_le d (Num 0)); [exact IH|].
  destruct o as [o|]; [|discriminate].
  destruct (cell_le (Num T) o); [exact IH|].
  cbv zeta. destruct (cell_le (cell_sub _ _) (Num 0)); [exact IH|].
  now destruct (kept_markers T rows).
Qed.



End MarkerFacts.

Section MarkerExamples.
Import Mne Store MarkersCsv SimpleLib.

Lemma insert_annotation_perm a l : insert_annotation a l ≡ₚ a :: l.
Proof.
  induction l as [|b l IH]; [reflexivity|].
  cbn [insert_annotation]. destruct (annotation_le a b); [reflexivity|].
  rewrite IH. apply Permutation_swap.
Qed.

Lemma sort_annotations_perm l : sort_annotations l ≡ₚ l.
Proof.
  induction l as [|a l IH]; [reflexivity|].
  cbn [sort_annotations fold_right]. fold (sort_annotations l).
  now rewrite insert_annotation_perm, IH.
Qed.

Lemma sorted_sum_keeps_all : sum_keeps_all (Sum := sorted_sum).
Proof. intros a b. apply sort_annotations_perm. Qed.


(** A file whose second row has an empty duration and whose third has
    an empty latency: the first marker goes between the two the
    recording has, the second runs from its latency to the end of the
    recording, and the third covers all of it. *)
Lemma add_csv_markers_empty_cells :
  let df := mkDataFrame ["latency"; "duration"; "type"]%string
              [num 2; num 4; CNum NaN] [num 1; CNum NaN; num 1]
              ["A"; "B"; "C"]%string in
  let T := 1279 # 256 in
  exists w',
    add_csv_markers (R := Float.binary64) 0%nat df (world_of raw_events)
    = (Returns 3%Z, w') /\
    option_map annotations (heap w' !! 0%nat)
    = Some [mkAnnotation 0 T "C"; mkAnnotation 1 (1 # 2) "Blink";
            mkAnnotation 2 1 "A"; mkAnnotation 3 (1 # 2) "Rest";
            mkAnnotation 4 (Float.round64 (T - 4)) "B"]%string.
Proof.
  intros df T. eexists. split; [vm_compute; reflexivity|].
  vm_compute. reflexivity.
Qed.

End MarkerExamples.

(** ** Contrast *)

Section ContrastFacts.
Import Contrast.
Local Open Scope R_scope.

Lemma eps_pos : 0 < eps.
Proof. unfold eps. apply Rinv_0_lt_compat. apply pow_lt. lra. Qed.

Lemma db_ratio_antisym a b :
  0 <= a -> 0 <= b -> db_ratio a b = - db_ratio b a.
Proof.
  intros Ha Hb. pose proof eps_pos as He.
  assert (Ha' : 0 < a + eps) by lra.
  assert (Hb' : 0 < b + eps) by lra.
  assert (Hia : 0 < / (a + eps)) by now apply Rinv_0_lt_compat.
  assert (Hib : 0 < / (b + eps)) by now apply Rinv_0_lt_compat.
  unfold db_ratio, log10, Rdiv.
  rewrite !ln_mult by assumption. rewrite !ln_Rinv by assumption.
  ring.
Qed.

Lemma db_ratio_self a : 0 <= a -> db_ratio a a = 0.
Proof.
  intros Ha. pose proof eps_pos as He.
  unfold db_ratio, log10, Rdiv at 2.
  rewrite Rinv_r by lra. rewrite ln_1. unfold Rdiv. ring.
Qed.

Lemma contrast_db_swap Pa Pb :
  length Pa = length Pb ->
  Forall (Rle 0) Pa -> Forall (Rle 0) Pb ->
  exists v, contrast_db Pb Pa = Some v /\
            contrast_db Pa Pb = Some (map Ropp v).
Proof.
  revert Pb. induction Pa as [|a Pa IH]; intros [|b Pb] Hlen HPa HPb;
    try discriminate Hlen.
  - exists []. split; reflexivity.
  - injection Hlen as Hlen.
    apply Forall_cons in HPa as [Ha HPa].
    apply Forall_cons in HPb as [Hb HPb].
    destruct (IH Pb Hlen HPa HPb) as (v & Hv1 & Hv2).
    exists (db_ratio b a :: v). cbn [contrast_db map].
    rewrite Hv1, Hv2. cbn [option_map]. split; [reflexivity|].
    now rewrite (db_ratio_antisym a b Ha Hb).
Qed.

Lemma contrast_db_same P :
  Forall (Rle 0) P -> contrast_db P P = Some (repeat 0 (length P)).
Proof.
  induction P as [|a P IH]; intros HP; [reflexivity|].
  apply Forall_cons in HP as [Ha HP].
  cbn [contrast_db length repeat]. rewrite (IH HP). cbn [option_map].
  now rewrite (db_ratio_self a Ha).
Qed.

(** C10: over the reals, for vectors [Pa], [Pb] of equal length with
    non-negative entries, [contrast_db(Pa, Pb)] is the elementwise
    negation of [contrast_db(Pb, Pa)], and [contrast_db(P, P)] is the
    zero vector. *)
Theorem contrast_db_antisymmetric :
  (forall Pa Pb,
     length Pa = length Pb ->
     Forall (Rle 0) Pa -> Forall (Rle 0) Pb ->
     exists v, contrast_db Pb Pa = Some v /\
               contrast_db Pa Pb = Some (map Ropp v)) /\
  (forall P,
     Forall (Rle 0) P -> contrast_db P P = Some (repeat 0 (length P))).
Proof.
  split; [exact contrast_db_swap | exact contrast_db_same].
Qed.

Lemma contrast_db_antisymmetric_witness :
  (exists v, contrast_db [3; 0] [1; 2] = Some v /\
             contrast_db [1; 2] [3; 0] = Some (map Ropp v)) /\
  contrast_db [1; 2] [1; 2] = Some [0; 0].
Proof.
  destruct contrast_db_antisymmetric as (Hswap & Hsame).
  split.
  - apply (Hswap [1; 2] [3; 0]); [reflexivity| |];
      repeat constructor; lra.
  - apply (Hsame [1; 2]). repeat constructor; lra.
Defined.

End ContrastFacts.

Section PsdExamples.
Import Mne Psd SimpleLib.
#[local] Existing Instance Np.exact_mean.

Lemma strict_library_refuses_long_windows :
  refuses_long_windows (lib := strict_library).
Proof.
  intros r fmin fmax picks n_fft n_overlap Hn.
  cbn [compute_psd strict_library]. unfold psd_strict.
  now apply Z.ltb_lt in Hn as ->.
Qed.

(** C8 (as stated) fails: a segment of 40 samples gets the floor of 64
    points, with overlap 32: the window is not smaller than the
    segment but longer than it. *)
Lemma fft_window_exceeds_short_segment :
  ~ short_segment_spec (lib := strict_library) raw40 8 13 None.
Proof.
  intros H. destruct H as (Hfit & _).
  - vm_compute. reflexivity.
  - vm_compute in Hfit. apply Hfit. reflexivity.
Qed.

Lemma bandpower_fft_window_witness :
  fft_window (n_times raw40) = (64, 32)%Z /\
  bandpower_segment (lib := strict_library) raw40 8 13 None
  = Raises (Exn "compute_psd") /\
  fft_window (n_times raw100) = (100, 50)%Z /\
  bandpower_segment (lib := strict_library) raw100 8 13 None
  = Returns [Fin (100 # 100)].
Proof.
  destruct (bandpower_fft_window (lib := strict_library) raw40 8 13 None)
    as (Hw & _ & _ & _ & _ & _ & _ & Hshort).
  destruct (Hshort strict_library_refuses_long_windows) as (Hseg & _).
  { vm_compute. reflexivity. }
  destruct (bandpower_fft_window (lib := strict_library) raw100 8 13 None)
    as (Hw' & _ & _ & _ & _ & Hseg' & _).
  split; [exact Hw|]. split; [exact Hseg|]. split; [exact Hw'|].
  rewrite Hseg'. reflexivity.
Defined.

(** A segment of 40 samples gets the floor of 64, with overlap 32. *)
Lemma fft_window_short_segment : fft_window 40 = (64, 32)%Z.
Proof. reflexivity. Qed.

End PsdExamples.

(** * Further properties *)

(** ** Windowing, continued *)

Section WindowsMore.
Import Windows.

Lemma Qdiv_mul_cancel x step : 0 < step -> x / step * step == x.
Proof.
  intros H. field. intros C. rewrite C in H. discriminate H.
Qed.

(** X1: the generator is stateless.  Restarting it at the start of
    the [k]-th window it yielded, with the same bounds, yields the
    windows from the [k]-th on: what follows a window depends on that
    window's start only, whatever the rounding of the sums. *)
Theorem sliding_windows_restart `{R : Float.Rounding}
    fuel start end_ win step ws (k : nat) w :
  sliding_windows fuel start end_ win step = Some ws ->
  ws !! k = Some w ->
  sliding_windows fuel (fst w) end_ win step = Some (drop k ws).
Proof.
  revert start ws k. induction fuel as [|fuel IH]; intros start ws k Hrun Hk.
  - discriminate Hrun.
  - pose proof Hrun as Hrun'.
    rewrite sliding_windows_unfold in Hrun.
    destruct (fits end_ win start); [|injection Hrun as <-; discriminate Hk].
    destruct (sliding_windows fuel (Float.rnd (start + step)) end_ win step)
      as [ws'|] eqn:Hrec; [|discriminate Hrun].
    injection Hrun as <-.
    destruct k as [|k].
    + injection Hk as <-. exact Hrun'.
    + cbn in Hk. cbn [drop].
      apply (sliding_windows_fuel_mono _ _ _ fuel); [lia|].
      exact (IH _ _ _ Hrec Hk).
Qed.

Lemma sliding_windows_restart_witness :
  let t1 := Float.round64 (3 # 10) in
  let w := Float.round64 (4 # 10) in
  sliding_windows (R := Float.binary64) 4 t1 1 w t1
  = Some [(t1, Float.round64 (t1 + w));
          (Float.round64 (t1 + t1),
           Float.round64 (Float.round64 (t1 + t1) + w))].
Proof.
  intros t1 w.
  apply (sliding_windows_restart (R := Float.binary64) 4 0 1 w t1
           [(0, w); (t1, Float.round64 (t1 + w));
            (Float.round64 (t1 + t1),
             Float.round64 (Float.round64 (t1 + t1) + w))]
           1 (t1, Float.round64 (t1 + w))).
  - vm_compute. reflexivity.
  - reflexivity.
Defined.

(** X2: clamping is idempotent.  An interval returned by
    [restrict_interval] is returned unchanged (as numbers) when
    clamped again. *)
Theorem restrict_interval_idempotent total start end_ :
  0 <= total ->
  let r := restrict_interval total start end_ in
  let r' := restrict_interval total (fst r) (snd r) in
  fst r' == fst r /\ snd r' == snd r.
Proof.
  intros Ht r r'.
  assert (Hs : 0 <= fst r <= total) by (apply clamp_range; exact Ht).
  assert (He : 0 <= snd r <= total /\ fst r <= snd r /\
               (fst r < total -> fst r < snd r)).
  { unfold r. rewrite restrict_interval_snd, restrict_interval_fst.
    cbv zeta.
    pose proof (clamp_range total start Ht) as H1.
    pose proof (clamp_range total end_ Ht) as H2.
    set (s := Py.max 0 (Py.min start total)) in *.
    set (e := Py.max 0 (Py.min end_ total)) in *.
    clearbody s e. unfold min_width.
    destruct (Qle_bool e s) eqn:E.
    - apply Qle_bool_iff in E. py_minmax; repeat split; intros; lra.
    - assert (s < e).
      { apply Qnot_le_lt. intros C. apply Qle_bool_iff in C. congruence. }
      repeat split; intros; lra. }
  destruct He as (He & Hse & Htot).
  unfold r'. rewrite restrict_interval_snd, restrict_interval_fst.
  cbv zeta. clearbody r. destruct r as [s e]. cbn [fst snd] in *.
  assert (Hs' : Py.max 0 (Py.min s total) == s) by (py_minmax; lra).
  assert (He' : Py.max 0 (Py.min e total) == e) by (py_minmax; lra).
  split; [exact Hs'|].
  destruct (Qle_bool (Py.max 0 (Py.min e total))
              (Py.max 0 (Py.min s total))) eqn:E; [|exact He'].
  apply Qle_bool_iff in E. unfold min_width.
  assert (Hes : e <= s) by lra.
  assert (Hst : ~ s < total) by (intros C; apply Htot in C; lra).
  py_minmax; lra.
Qed.

Lemma restrict_interval_idempotent_witness :
  0 <= 10 /\
  fst (restrict_interval 10 (fst (restrict_interval 10 15 20))
         (snd (restrict_interval 10 15 20)))
  == fst (restrict_interval 10 15 20).
Proof.
  assert (H : 0 <= 10) by (vm_compute; discriminate).
  split; [exact H|].
  now destruct (restrict_interval_idempotent 10 15 20 H) as (Hf & _).
Defined.

End WindowsMore.

(** ** Session state, continued *)

Section SessionMore.
Import Store Session Preferences.

Lemma init_key_present key v (st : gmap string value) :
  is_Some (st !! key) -> init_key key v st = st.
Proof. intros [x Hx]. unfold init_key. now rewrite Hx. Qed.

Lemma init_key_is_Some key v (st : gmap string value) :
  is_Some (init_key key v st !! key).
Proof.
  unfold init_key. destruct (st !! key) eqn:E.
  - rewrite E. eauto.
  - rewrite lookup_insert_eq. eauto.
Qed.

Lemma init_key_keeps key v (st : gmap string value) key' x :
  st !! key' = Some x -> init_key key v st !! key' = Some x.
Proof.
  intros Hx. unfold init_key. destruct (st !! key) eqn:E; [exact Hx|].
  rewrite lookup_insert_ne; [exact Hx|]. intros ->. congruence.
Qed.

Lemma init_key_lookup key v (st : gmap string value) key' :
  init_key key v st !! key'
  = if decide (key = key') then Some (default v (st !! key))
    else st !! key'.
Proof.
  unfold init_key. destruct (decide (key = key')) as [<-|Hne].
  - destruct (st !! key) eqn:E; [now rewrite E|].
    now rewrite lookup_insert_eq.
  - destruct (st !! key) eqn:E; [reflexivity|].
    now rewrite lookup_insert_ne.
Qed.

Lemma init_key_is_Some_keeps key v (st : gmap string value) key' :
  is_Some (st !! key') -> is_Some (init_key key v st !! key').
Proof. intros [x Hx]. exists x. now apply init_key_keeps. Qed.

Lemma initialize_has_keys tmpdir (st : gmap string value) key :
  key ∈ [k_tmpdir; k_raw; k_processed; k_filter; k_prefs] ->
  is_Some (_initialize_session_state tmpdir st !! key).
Proof.
  intros Hin. unfold _initialize_session_state.
  rewrite !elem_of_cons in Hin.
  destruct Hin as [->|[->|[->|[->|[->|Hin]]]]];
    [| | | | |now apply elem_of_nil in Hin];
    repeat first [apply init_key_is_Some | apply init_key_is_Some_keeps].
Qed.

(** X3: initialising the session state never overwrites a key that is
    already there, leaves all five keys present, and is idempotent:
    a second initialisation (whatever directory it would make) changes
    nothing. *)
Theorem initialize_session_state_idempotent tmpdir tmpdir'
    (st : gmap string value) :
  (forall key x, st !! key = Some x ->
     _initialize_session_state tmpdir st !! key = Some x) /\
  (forall key, key ∈ [k_tmpdir; k_raw; k_processed; k_filter; k_prefs] ->
     is_Some (_initialize_session_state tmpdir st !! key)) /\
  _initialize_session_state tmpdir' (_initialize_session_state tmpdir st)
  = _initialize_session_state tmpdir st.
Proof.
  split; [|split].
  - intros key x Hx. unfold _initialize_session_state.
    now repeat apply init_key_keeps.
  - intros key. apply initialize_has_keys.
  - set (st1 := _initialize_session_state tmpdir st).
    assert (H : forall key,
              key ∈ [k_tmpdir; k_raw; k_processed; k_filter; k_prefs] ->
              is_Some (st1 !! key)) by (intros; now apply initialize_has_keys).
    unfold _initialize_session_state at 1.
    rewrite (init_key_present k_tmpdir) by (apply H; set_solver).
    rewrite (init_key_present k_raw) by (apply H; set_solver).
    rewrite (init_key_present k_processed) by (apply H; set_solver).
    rewrite (init_key_present k_filter) by (apply H; set_solver).
    now rewrite (init_key_present k_prefs) by (apply H; set_solver).
Qed.

Lemma initialize_session_state_idempotent_witness :
  _initialize_session_state "/tmp/a" {[ k_raw := VRaw 7%nat ]} !! k_raw
  = Some (VRaw 7%nat).
Proof.
  destruct (initialize_session_state_idempotent "/tmp/a" "/tmp/b"
              {[ k_raw := VRaw 7%nat ]}) as (Hkeep & _).
  apply Hkeep. apply lookup_singleton_eq.
Defined.

(** Looking a key up through the chain of initialisations. *)
Ltac init_lookup :=
  repeat (rewrite init_key_lookup; case_decide;
          try discriminate; try congruence).

(** X4: clearing the session and initialising it again gives the
    no-data state, whatever was loaded before: no raw recording, no
    processed recording, the flag false, no current data; the temporary
    directory and the preferences survive the clearing. *)
Theorem clear_then_initialize_no_data tmpdir (st : gmap string value) :
  let st' := _initialize_session_state tmpdir (clear_session st) in
  raw_data st' = VNone /\
  processed_data st' = VNone /\
  filter_applied st' = VBool false /\
  get_current_data st' = VNone /\
  (forall x, st !! k_tmpdir = Some x -> st' !! k_tmpdir = Some x) /\
  (forall x, st !! k_prefs = Some x -> st' !! k_prefs = Some x).
Proof.
  intros st'.
  assert (Hc : forall key, key ∈ [k_raw; k_processed; k_filter] ->
                 clear_session st !! key = None).
  { intros key Hin. unfold clear_session. rewrite !elem_of_cons in Hin.
    destruct Hin as [->|[->|[->|Hin]]]; [| | |now apply elem_of_nil in Hin].
    - rewrite !lookup_delete_ne by discriminate. apply lookup_delete_eq.
    - rewrite lookup_delete_ne by discriminate. apply lookup_delete_eq.
    - apply lookup_delete_eq. }
  assert (Hk : forall key x, key ∈ [k_tmpdir; k_prefs] ->
                 st !! key = Some x -> clear_session st !! key = Some x).
  { intros key x Hin Hx. unfold clear_session. rewrite !elem_of_cons in Hin.
    destruct Hin as [->|[->|Hin]]; [| |now apply elem_of_nil in Hin];
      now rewrite !lookup_delete_ne by discriminate. }
  assert (Hraw : st' !! k_raw = Some VNone).
  { unfold st', _initialize_session_state. init_lookup.
    now rewrite Hc by set_solver. }
  assert (Hproc : st' !! k_processed = Some VNone).
  { unfold st', _initialize_session_state. init_lookup.
    now rewrite Hc by set_solver. }
  assert (Hflag : st' !! k_filter = Some (VBool false)).
  { unfold st', _initialize_session_state. init_lookup.
    now rewrite Hc by set_solver. }
  unfold get_current_data, raw_data, processed_data, filter_applied,
    state_get. rewrite Hraw, Hproc, Hflag. cbn [default is_none negb].
  repeat split; try reflexivity.
  - intros x Hx. unfold st', _initialize_session_state.
    repeat apply init_key_keeps. apply Hk; [set_solver|exact Hx].
  - intros x Hx. unfold st', _initialize_session_state.
    repeat apply init_key_keeps. apply Hk; [set_solver|exact Hx].
Qed.

Lemma clear_then_initialize_no_data_witness :
  get_current_data
    (_initialize_session_state "/tmp/a"
       (clear_session (set_raw_data (VRaw 3%nat) ∅))) = VNone.
Proof.
  now destruct (clear_then_initialize_no_data "/tmp/a"
                  (set_raw_data (VRaw 3%nat) ∅)) as (_ & _ & _ & H & _).
Defined.

(** X5: the single read path.  After the processed data is assigned,
    [get_current_data()] is the assigned value unless it is [None], in
    which case it is the raw data; the raw data itself is untouched. *)
Theorem get_current_data_after_set_processed (v : value)
    (st : gmap string value) :
  get_current_data (set_processed_data v st)
  = (if is_none v then raw_data st else v) /\
  raw_data (set_processed_data v st) = raw_data st.
Proof.
  assert (Hr : raw_data (set_processed_data v st) = raw_data st).
  { unfold raw_data, state_get, set_processed_data.
    now rewrite lookup_insert_ne by discriminate. }
  split; [|exact Hr].
  unfold get_current_data. rewrite Hr.
  unfold processed_data, state_get, set_processed_data.
  rewrite lookup_insert_eq. unfold default. cbn.
  destruct (is_none v); reflexivity.
Qed.

Lemma dict_get_set_eq k v d :
  dict_get k (dict_set k v d) = Some v.
Proof.
  induction d as [|[k' v'] d IH]; cbn.
  - now rewrite String.eqb_refl.
  - destruct (String.eqb k' k) eqn:E; cbn; now rewrite E.
Qed.

Lemma dict_get_set_ne k k' v d :
  k' <> k -> dict_get k' (dict_set k v d) = dict_get k' d.
Proof.
  intros Hne. induction d as [|[k0 v0] d IH]; cbn.
  - destruct (String.eqb k k') eqn:E; [|reflexivity].
    apply String.eqb_eq in E. congruence.
  - destruct (String.eqb k0 k) eqn:E; cbn.
    + apply String.eqb_eq in E. subst k0.
      destruct (String.eqb k k') eqn:E'; [|reflexivity].
      apply String.eqb_eq in E'. congruence.
    + now rewrite IH.
Qed.

(** X6: updating a preference.  When the stored preferences are a dict
    (or none are stored, and the defaults stand in for them),
    [update_preference] stores a dict in which the key reads the new
    value and every other key reads as before; no other entry of the
    session state changes. *)
Theorem update_preference_lookup key v (st : gmap string value) d :
  preferences st = VDict d ->
  exists st' d',
    update_preference key v st = Some st' /\
    preferences st' = VDict d' /\
    dict_get key d' = Some v /\
    (forall key', key' <> key -> dict_get key' d' = dict_get key' d) /\
    (forall k, k <> k_prefs -> st' !! k = st !! k).
Proof.
  intros Hd. unfold update_preference. rewrite Hd.
  eexists _, _. split; [reflexivity|]. split.
  - unfold preferences, state_get. now rewrite lookup_insert_eq.
  - split; [apply dict_get_set_eq|]. split.
    + intros key' Hne. now apply dict_get_set_ne.
    + intros k Hne. now rewrite lookup_insert_ne by congruence.
Qed.

Lemma update_preference_lookup_witness :
  exists st',
    update_preference "default_band" (PStr "Beta") ∅ = Some st' /\
    exists d', preferences st' = VDict d' /\
               dict_get "default_band" d' = Some (PStr "Beta") /\
               dict_get "preferred_colormap" d' = Some (PStr "RdBu_r").
Proof.
  assert (Hd : preferences ∅ = _get_default_preferences)
    by (unfold preferences, state_get; now rewrite lookup_empty).
  destruct (update_preference_lookup "default_band" (PStr "Beta") ∅ _
              Hd) as (st' & d' & Hu & Hp & Hk & Ho & _).
  exists st'. split; [exact Hu|]. exists d'. split; [exact Hp|].
  split; [exact Hk|]. rewrite Ho by discriminate. reflexivity.
Defined.

End SessionMore.

(** ** Parameter validation *)

(** Turning the boolean tests of the code into order facts. *)
Ltac bool_to_order :=
  repeat match goal with
  | H : Py.Qltb _ _ = true |- _ => apply Qltb_lt in H
  | H : Py.Qltb _ _ = false |- _ => apply Qltb_ge in H
  | H : Qle_bool _ _ = true |- _ => apply Qle_bool_iff in H
  | H : Qle_bool ?a ?b = false |- _ =>
      assert (b < a)
        by (apply Qnot_le_lt; intros C; apply Qle_bool_iff in C; congruence);
      clear H
  end.

Section ValidationFacts.
Import Mne MarkersCsv PyFmt Validation.
Context `{fmt : Format}.

(** X7: which filter parameters are accepted.  [validate_filter_params]
    returns no error exactly when every given high-pass lies in
    [[0, sf/2)], every given low-pass in [(0, sf/2)], the high-pass is
    below the low-pass when both are given, and a given resampling rate
    is positive, at most the recording's rate and at least twice the
    low-pass. *)
Theorem validate_filter_params_accepts (raw : Raw)
    (l_freq h_freq resample_freq : option Q) :
  validate_filter_params raw l_freq h_freq resample_freq = [] <->
  (forall l, l_freq = Some l -> 0 <= l /\ l < sfreq raw / 2) /\
  (forall h, h_freq = Some h -> 0 < h /\ h < sfreq raw / 2) /\
  (forall l h, l_freq = Some l -> h_freq = Some h -> l < h) /\
  (forall r, resample_freq = Some r ->
     0 < r /\ r <= sfreq raw /\
     forall h, h_freq = Some h -> 2 * h <= r).
Proof.
  unfold validate_filter_params. cbv zeta.
  set (ny := sfreq raw / 2). clearbody ny.
  split.
  - intros H.
    apply app_eq_nil in H as (H & H4).
    apply app_eq_nil in H as (H & H3).
    apply app_eq_nil in H as (H1 & H2).
    split; [|split; [|split]].
    + intros l ->.
      destruct (Py.Qltb l 0) eqn:E1; [discriminate H1|].
      destruct (Qle_bool ny l) eqn:E2; [discriminate H1|].
      bool_to_order. split; assumption.
    + intros h ->.
      destruct (Qle_bool h 0) eqn:E1; [discriminate H2|].
      destruct (Qle_bool ny h) eqn:E2; [discriminate H2|].
      bool_to_order. split; assumption.
    + intros l h -> ->.
      destruct (Qle_bool h l) eqn:E; [discriminate H3|].
      bool_to_order. assumption.
    + intros r ->.
      destruct (Qle_bool r 0) eqn:E1; [discriminate H4|].
      destruct (Py.Qltb (sfreq raw) r) eqn:E2; [discriminate H4|].
      bool_to_order. split; [assumption|]. split; [assumption|].
      intros h ->.
      destruct (Py.Qltb r (2 * h)) eqn:E3; [discriminate H4|].
      bool_to_order. assumption.
  - intros (Hl & Hh & Hlh & Hr).
    assert (E1 : match l_freq with
                 | Some l =>
                     if Py.Qltb l 0
                     then ["High-pass frequency must be positive"]
                     else if Qle_bool ny l
                     then ["High-pass frequency (" +:+ str_float l +:+
                           " Hz) must be < Nyquist (" +:+ str_float ny +:+
                           " Hz)"]
                     else []
                 | None => []
                 end = []).
    { destruct l_freq as [l|]; [|reflexivity].
      destruct (Hl l eq_refl) as (Ha & Hb).
      destruct (Py.Qltb l 0) eqn:E; [bool_to_order; lra|].
      destruct (Qle_bool ny l) eqn:E'; [bool_to_order; lra|reflexivity]. }
    rewrite E1. cbn [app].
    assert (E2 : match h_freq with
                 | Some h =>
                     if Qle_bool h 0
                     then ["Low-pass frequency must be positive"]
                     else if Qle_bool ny h
                     then ["Low-pass frequency (" +:+ str_float h +:+
                           " Hz) must be < Nyquist (" +:+ str_float ny +:+
                           " Hz)"]
                     else []
                 | None => []
                 end = []).
    { destruct h_freq as [h|]; [|reflexivity].
      destruct (Hh h eq_refl) as (Ha & Hb).
      destruct (Qle_bool h 0) eqn:E; [bool_to_order; lra|].
      destruct (Qle_bool ny h) eqn:E'; [bool_to_order; lra|reflexivity]. }
    rewrite E2. cbn [app].
    assert (E3 : match l_freq, h_freq with
                 | Some l, Some h =>
                     if Qle_bool h l
                     then ["High-pass frequency must be < low-pass frequency"]
                     else []
                 | _, _ => []
                 end = []).
    { destruct l_freq as [l|]; [|reflexivity].
      destruct h_freq as [h|]; [|reflexivity].
      pose proof (Hlh l h eq_refl eq_refl).
      destruct (Qle_bool h l) eqn:E; [bool_to_order; lra|reflexivity]. }
    rewrite E3. cbn [app].
    destruct resample_freq as [r|]; [|reflexivity].
    destruct (Hr r eq_refl) as (Ha & Hb & Hc).
    destruct (Qle_bool r 0) eqn:E; [bool_to_order; lra|].
    destruct (Py.Qltb (sfreq raw) r) eqn:E'; [bool_to_order; lra|].
    destruct h_freq as [h|]; [|reflexivity].
    pose proof (Hc h eq_refl).
    destruct (Py.Qltb r (2 * h)) eqn:E''; [bool_to_order; lra|reflexivity].
Qed.

Lemma n_times_nonneg (raw : Raw) : (0 <= n_times raw)%Z.
Proof. unfold n_times. destruct (data raw); lia. Qed.

Lemma max_time_nonneg (raw : Raw) :
  0 < sfreq raw -> 0 <= inject_Z (n_times raw) / sfreq raw.
Proof.
  intros Hsf. apply Qle_shift_div_l; [exact Hsf|].
  pose proof (n_times_nonneg raw) as Hn. rewrite Zle_Qle in Hn.
  set (n := inject_Z (n_times raw)) in *. clearbody n.
  change (inject_Z 0) with 0 in Hn. lra.
Qed.

Lemma Qeq_bool_true_iff x y : Qeq_bool x y = true <-> x == y.
Proof. split; [apply Qeq_bool_eq | apply Qeq_eq_bool]. Qed.

(** The values [validate_time_window] returns, and when it warns, in
    exact arithmetic. *)
Lemma validate_time_window_values (raw : Raw) (a b : Q) :
  0 < sfreq raw ->
  let M := inject_Z (n_times raw) / sfreq raw in
  let cs := Py.max 0 (Py.min a M) in
  let ce0 := Py.max cs (Py.min b M) in
  exists ws,
    validate_time_window (R := Float.exact) raw a b =
    Returns (cs, (if Py.Qltb (ce0 - cs) (1 # 10)
                  then Py.min (cs + (1 # 10)) M else ce0), ws) /\
    (ws = [] <->
     cs == a /\ ce0 == b /\ Py.Qltb (ce0 - cs) (1 # 10) = false).
Proof.
  intros Hsf M cs ce0. unfold validate_time_window.
  cbn [Float.rnd Float.exact].
  assert (E0 : Qeq_bool (sfreq raw) 0 = false).
  { apply not_true_iff_false. rewrite Qeq_bool_true_iff. lra. }
  rewrite E0. cbv zeta. fold M. fold cs. fold ce0.
  destruct (Py.Qltb (ce0 - cs) (1 # 10)) eqn:Es.
  - eexists. split; [reflexivity|]. split.
    + intros H. apply app_eq_nil in H as (_ & H). discriminate H.
    + intros (_ & _ & H). discriminate H.
  - eexists. split; [reflexivity|].
    destruct (Qeq_bool cs a) eqn:Ea; destruct (Qeq_bool ce0 b) eqn:Eb;
      cbn [negb app].
    + apply Qeq_bool_true_iff in Ea, Eb. tauto.
    + split; [discriminate|]. intros (_ & H & _).
      apply Qeq_bool_true_iff in H. congruence.
    + split; [discriminate|]. intros (H & _).
      apply Qeq_bool_true_iff in H. congruence.
    + split; [discriminate|]. intros (H & _).
      apply Qeq_bool_true_iff in H. congruence.
Qed.

(** X8: for a recording whose rate is not zero and whose length
    [max_time] is not negative, [validate_time_window] returns a
    window inside [[0, max_time]].  When the width the code computes,
    the rounded difference of the clamped bounds, is below 0.1, the
    end returned is [min(start + 0.1, max_time)], the sum as the float
    type rounds it; otherwise it is the clamped end, at or after the
    start.  So [start <= end] as soon as adding 0.1 to the start does
    not round below it. *)
Theorem validate_time_window_bounds `{R : Float.Rounding}
    (raw : Raw) (start_sec end_sec : Q) :
  ~ sfreq raw == 0 ->
  let M := Float.rnd (inject_Z (n_times raw) / sfreq raw) in
  let s := Py.max 0 (Py.min start_sec M) in
  let e0 := Py.max s (Py.min end_sec M) in
  0 <= M ->
  exists e ws,
    validate_time_window raw start_sec end_sec = Returns (s, e, ws) /\
    0 <= s /\ s <= M /\ e <= M /\
    ((Float.rnd (e0 - s) < Float.rnd (1 # 10) /\
      e = Py.min (Float.rnd (s + Float.rnd (1 # 10))) M) \/
     (Float.rnd (1 # 10) <= Float.rnd (e0 - s) /\ e = e0 /\ s <= e)) /\
    (s <= Float.rnd (s + Float.rnd (1 # 10)) -> s <= e).
Proof.
  intros Hsf M s e0 HM. unfold validate_time_window.
  assert (E0 : Qeq_bool (sfreq raw) 0 = false).
  { apply not_true_iff_false. rewrite Qeq_bool_true_iff. exact Hsf. }
  rewrite E0. cbv zeta. fold M. fold s. fold e0.
  assert (Hs : 0 <= s /\ s <= M) by (unfold s; py_minmax; split; lra).
  assert (He0 : s <= e0 /\ e0 <= M).
  { unfold e0. destruct Hs. clearbody s. py_minmax; split; lra. }
  clearbody s e0 M.
  destruct (Py.Qltb (Float.rnd (e0 - s)) (Float.rnd (1 # 10))) eqn:E;
    bool_to_order; eexists _, _; (split; [reflexivity|]).
  - split; [tauto|]. split; [tauto|].
    split; [py_minmax; lra|].
    split; [left; split; [exact E|reflexivity]|].
    intros Hadd. py_minmax; lra.
  - split; [tauto|]. split; [tauto|]. split; [tauto|].
    split; [right; split; [exact E|split; [reflexivity|tauto]]|].
    intros _. tauto.
Qed.


(** X10: correcting a window twice is correcting it once: the window
    [validate_time_window] returns is returned unchanged (as numbers)
    when validated again (in exact arithmetic). *)
Theorem validate_time_window_idempotent (raw : Raw)
    (start_sec end_sec : Q) :
  0 < sfreq raw ->
  exists s e ws s' e' ws',
    validate_time_window (R := Float.exact) raw start_sec end_sec
    = Returns (s, e, ws) /\
    validate_time_window (R := Float.exact) raw s e
    = Returns (s', e', ws') /\
    s' == s /\ e' == e.
Proof.
  intros Hsf.
  destruct (validate_time_window_values raw start_sec end_sec Hsf)
    as (ws & Hrun & _).
  pose proof (max_time_nonneg raw Hsf) as HM.
  set (M := inject_Z (n_times raw) / sfreq raw) in *.
  set (s := Py.max 0 (Py.min start_sec M)) in *.
  set (e := if Py.Qltb (Py.max s (Py.min end_sec M) - s) (1 # 10)
            then Py.min (s + (1 # 10)) M
            else Py.max s (Py.min end_sec M)) in *.
  assert (Hs : 0 <= s <= M) by (unfold s; py_minmax; split; lra).
  assert (He : s <= e /\ e <= M /\ (1 # 10 <= e - s \/ e == M)).
  { unfold e. clearbody s.
    destruct (Py.Qltb _ (1 # 10)) eqn:E; bool_to_order;
      revert E; py_minmax; intros; repeat split; try lra;
      solve [left; lra | right; lra]. }
  destruct (validate_time_window_values raw s e Hsf) as (ws' & Hrun' & _).
  fold M in Hrun'. clearbody s e M.
  eexists s, e, ws, _, _, ws'.
  split; [exact Hrun|]. split; [exact Hrun'|].
  destruct He as (He1 & He2 & He3).
  assert (Hs' : Py.max 0 (Py.min s M) == s) by (py_minmax; lra).
  split; [exact Hs'|].
  destruct (Py.Qltb _ (1 # 10)) eqn:E; bool_to_order;
    revert E Hs'; py_minmax; intros; destruct He3; lra.
Qed.

(** X11: [validate_channel_selection] splits the request: a channel
    is reported valid exactly when it was requested and exists in the
    recording, invalid exactly when it was requested and does not;
    nothing is lost or duplicated (the two lists add up to the
    request), and a request made of existing channels comes back
    whole, in its order, with no invalid channel. *)
Theorem validate_channel_selection_partition (raw : Raw)
    (channels : list string) :
  let r := validate_channel_selection raw channels in
  (forall ch, ch ∈ fst r <-> ch ∈ channels /\ ch ∈ ch_names raw) /\
  (forall ch, ch ∈ snd r <-> ch ∈ channels /\ ch ∉ ch_names raw) /\
  (length (fst r) + length (snd r) = length channels)%nat /\
  ((forall ch, ch ∈ channels -> ch ∈ ch_names raw) ->
   fst r = channels /\ snd r = []).
Proof.
  cbv zeta. unfold validate_channel_selection. cbn [fst snd].
  split; [|split; [|split]].
  - intros ch. rewrite list_elem_of_In, List.filter_In, <- list_elem_of_In.
    now rewrite str_in_elem.
  - intros ch. rewrite list_elem_of_In, List.filter_In, <- list_elem_of_In.
    rewrite negb_true_iff, <- not_true_iff_false. now rewrite str_in_elem.
  - induction channels as [|c cs IH]; [reflexivity|].
    cbn [List.filter length].
    destruct (EpochsMod.str_in c (ch_names raw)); cbn [negb length]; lia.
  - intros Hall. induction channels as [|c cs IH]; [split; reflexivity|].
    cbn [List.filter].
    assert (Hc : EpochsMod.str_in c (ch_names raw) = true)
      by (apply str_in_elem, Hall, list_elem_of_here).
    rewrite Hc. cbn [negb].
    destruct IH as (IH1 & IH2).
    { intros ch Hch. apply Hall. now apply list_elem_of_further. }
    now rewrite IH1, IH2.
Qed.





End ValidationFacts.

Section ValidationExamples.
Import Mne PyFmt Validation SimpleLib SimpleFmt.

Lemma validate_channel_selection_partition_witness :
  validate_channel_selection raw256 ["C4"; "C3"]%string
  = (["C4"; "C3"]%string, []).
Proof.
  destruct (validate_channel_selection_partition raw256
              ["C4"; "C3"]%string) as (_ & _ & _ & Hall).
  destruct Hall as (H1 & H2).
  - intros ch Hch. cbn. set_unfold. tauto.
  - destruct (validate_channel_selection raw256 ["C4"; "C3"]%string).
    cbn [fst snd] in *. now subst.
Defined.


(** A file with nothing but its header passes no validation: its
    columns have no numeric type. *)
Lemma validate_annotations_csv_header_only :
  validate_annotations_csv (fmt := simple_format)
    (inr (MarkersCsv.mkDataFrame ["latency"; "duration"; "type"]%string
            [] [] []))
  = (false, ["'latency' column must be numeric";
             "'duration' column must be numeric"]%string).
Proof. reflexivity. Qed.

Lemma validate_time_window_bounds_witness :
  let lo := Float.round64 (1 # 2) in
  let hi := Float.round64 (3 # 5) in
  exists ws,
    validate_time_window (R := Float.binary64) (fmt := simple_format)
      raw_events lo hi
    = Returns (lo, hi, ws) /\
    Float.round64 (hi - lo) < Float.round64 (1 # 10) /\
    hi = Py.min (Float.round64 (lo + Float.round64 (1 # 10))) 5.
Proof.
  intros lo hi.
  destruct (validate_time_window_bounds (R := Float.binary64)
              (fmt := simple_format) raw_events lo hi)
    as (e & ws & Hrun & _ & _ & _ & Hcase & _).
  - vm_compute. discriminate.
  - vm_compute. discriminate.
  - destruct Hcase as [(Hlt & He)|(Hge & _)].
    + exists ws. vm_compute in He. subst e.
      split; [exact Hrun|]. split; vm_compute; reflexivity.
    + exfalso. vm_compute in Hge. apply Hge. reflexivity.
Defined.


Lemma validate_time_window_idempotent_witness :
  0 < sfreq raw256 /\
  exists s e ws s' e' ws',
    validate_time_window (R := Float.exact) (fmt := simple_format)
      raw256 3 1
    = Returns (s, e, ws) /\
    validate_time_window (R := Float.exact) (fmt := simple_format)
      raw256 s e
    = Returns (s', e', ws') /\
    s' == s /\ e' == e.
Proof.
  assert (H : 0 < sfreq raw256) by reflexivity.
  split; [exact H|].
  exact (validate_time_window_idempotent (fmt := simple_format)
           raw256 3 1 H).
Defined.

Lemma validate_filter_params_accepts_witness :
  validate_filter_params (fmt := simple_format) raw256
    (Some 1) (Some 45) (Some 128) = [].
Proof.
  apply (validate_filter_params_accepts (fmt := simple_format)).
  repeat split; intros; simplify_eq; vm_compute; congruence.
Defined.

End ValidationExamples.

(** ** Epoch parameters *)

Section EpochParamFacts.
Import Mne PyFmt EpochParams.

Lemma py_int_nonneg_floor x : 0 <= x -> py_int x = Qfloor x.
Proof.
  intros H. unfold py_int.
  assert (E : Qle_bool 0 x = true) by now apply Qle_bool_iff.
  now rewrite E.
Qed.

Lemma py_int_nonpos x : x <= 0 -> (py_int x <= 0)%Z.
Proof.
  intros H. unfold py_int. destruct (Qle_bool 0 x) eqn:E.
  - apply Qle_bool_iff in E.
    change 0%Z with (Qfloor 0). apply Qfloor_resp_le. exact H.
  - change 0%Z with (Qceiling 0). apply Qceiling_resp_le. exact H.
Qed.


(** X14: an epoch of non-positive duration ([tmax <= tmin]) always
    draws two warnings, the one on the duration and the one on the
    number of samples, before any baseline warning; and whatever the
    parameters there are at most three warnings. *)
Theorem validate_epoch_parameters_nonpositive (raw : Raw) (tmin tmax : Q)
    (baseline : option (Q * Q)) :
  (length (validate_epoch_parameters raw tmin tmax baseline) <= 3)%nat /\
  (0 <= sfreq raw -> tmax <= tmin ->
   exists rest,
     validate_epoch_parameters raw tmin tmax baseline =
     "Epoch duration must be positive (tmax > tmin)"
     :: "Epochs will have very few samples" :: rest).
Proof.
  unfold validate_epoch_parameters. cbv zeta. split.
  - rewrite !length_app.
    assert (H1 : (length (if Qle_bool (tmax - tmin) 0
                          then ["Epoch duration must be positive (tmax > tmin)"]
                          else if Py.Qltb (tmax - tmin) (1 # 10)
                          then ["Very short epochs may not be useful for analysis"]
                          else if Py.Qltb 30 (tmax - tmin)
                          then ["Very long epochs may include multiple events"]
                          else []) <= 1)%nat).
    { destruct (Qle_bool _ 0); [cbn; lia|].
      destruct (Py.Qltb _ (1 # 10)); [cbn; lia|].
      destruct (Py.Qltb 30 _); cbn; lia. }
    assert (H2 : (length (if (Py.Zmax 1 (py_int ((tmax - tmin) * sfreq raw))
                              <? 10)%Z
                          then ["Epochs will have very few samples"]
                          else []) <= 1)%nat)
      by (destruct (_ <? 10)%Z; cbn; lia).
    assert (H3 : (length match baseline with
                         | Some (baseline_start, baseline_end) =>
                             if Qle_bool baseline_end baseline_start
                             then ["Baseline start must be < baseline end"]
                             else if Py.Qltb baseline_start tmin
                                     || Py.Qltb tmax baseline_end
                             then ["Baseline period must be within epoch time range"]
                             else if Py.Qltb 0 baseline_end
                             then ["Baseline typically ends at or before event (t=0)"]
                             else []
                         | None => []
                         end <= 1)%nat).
    { destruct baseline as [[bs be]|]; [|cbn; lia].
      destruct (Qle_bool be bs); [cbn; lia|].
      destruct (Py.Qltb bs tmin || Py.Qltb tmax be); [cbn; lia|].
      destruct (Py.Qltb 0 be); cbn; lia. }
    lia.
  - intros Hsf Hle.
    assert (E1 : Qle_bool (tmax - tmin) 0 = true)
      by (apply Qle_bool_iff; lra).
    rewrite E1.
    assert (Hn : (py_int ((tmax - tmin) * sfreq raw) <= 0)%Z).
    { apply py_int_nonpos.
      assert (0 <= (tmin - tmax) * sfreq raw)
        by (apply Qmult_le_0_compat; lra).
      lra. }
    rewrite py_Zmax_max.
    destruct (Z.ltb_spec (Z.max 1 (py_int ((tmax - tmin) * sfreq raw))) 10);
      [|lia].
    cbn [app]. eauto.
Qed.

(** X15: the suggested parameters.  For a positive sampling rate the
    suggested decimation factor is at least 1 and the suggested epoch
    starts before and ends after the event; for a rate of 250 Hz or
    more, decimating by the suggested factor leaves a rate in
    [[250, 500)]. *)
Theorem suggest_epoch_parameters_decimation (raw : Raw) :
  0 < sfreq raw ->
  let s := suggest_epoch_parameters raw in
  (1 <= sg_decim s)%Z /\
  sg_tmin s < 0 /\ 0 < sg_tmax s /\
  (250 <= sfreq raw ->
   250 <= sfreq raw / inject_Z (sg_decim s) /\
   sfreq raw / inject_Z (sg_decim s) < 500).
Proof.
  intros Hsf. cbv zeta. unfold suggest_epoch_parameters. cbv zeta.
  set (sf := sfreq raw) in *. clearbody sf.
  assert (Hq : sf / 250 * 250 == sf) by (apply Qdiv_mul_cancel; reflexivity).
  assert (Hq0 : 0 <= sf / 250).
  { apply Qle_shift_div_l; [reflexivity|lra]. }
  rewrite (py_int_nonneg_floor _ Hq0), py_Zmax_max.
  pose proof (Qfloor_le (sf / 250)) as Hfl.
  assert (Hfu : sf / 250 < inject_Z (Qfloor (sf / 250)) + 1).
  { pose proof (Qlt_floor (sf / 250)) as H.
    now rewrite inject_Z_plus in H. }
  set (q := sf / 250) in *. clearbody q.
  assert (Hbig : 250 <= sf -> (1 <= Qfloor q)%Z).
  { intros H. change 1%Z with (Qfloor 1). apply Qfloor_resp_le. lra. }
  assert (Hrate : forall k : Z,
            (1 <= k)%Z -> inject_Z k <= q -> q < inject_Z k + 1 ->
            250 <= sf / inject_Z k /\ sf / inject_Z k < 500).
  { intros k Hk Hlo Hhi.
    assert (HK : 1 <= inject_Z k)
      by (change 1 with (inject_Z 1); rewrite <- Zle_Qle; exact Hk).
    set (K := inject_Z k) in *. clearbody K. split.
    - apply Qle_shift_div_l; lra.
    - apply Qlt_shift_div_r; lra. }
  destruct (Py.Qltb sf 125) eqn:E1; cbn [sg_decim sg_tmin sg_tmax].
  - bool_to_order.
    split; [lia|]. split; [reflexivity|]. split; [reflexivity|].
    intros H250. lra.
  - destruct (Py.Qltb 1000 sf) eqn:E2; cbn [sg_decim sg_tmin sg_tmax];
      bool_to_order.
    + assert (H4 : (4 <= Qfloor q)%Z).
      { change 4%Z with (Qfloor 4). apply Qfloor_resp_le. lra. }
      split; [lia|]. split; [reflexivity|]. split; [reflexivity|].
      intros _. apply Hrate; [lia|assumption|assumption].
    + split; [lia|]. split; [reflexivity|]. split; [reflexivity|].
      intros H250. specialize (Hbig H250).
      rewrite Z.max_r by lia. apply Hrate; assumption.
Qed.

(** X16: the suggestions against the module's own validation.  At
    125 Hz or more the suggested window and baseline pass
    [validate_epoch_parameters] without a warning; below 125 Hz the
    suggested epoch starts at -0.1 s while the suggested baseline
    still starts at -0.2 s, and the validation warns that the baseline
    is outside the epoch. *)
Theorem suggested_parameters_validation (raw : Raw) :
  let s := suggest_epoch_parameters raw in
  (125 <= sfreq raw ->
   validate_epoch_parameters raw (sg_tmin s) (sg_tmax s)
     (Some (sg_baseline s)) = []) /\
  (sfreq raw < 125 ->
   "Baseline period must be within epoch time range"
   ∈ validate_epoch_parameters raw (sg_tmin s) (sg_tmax s)
       (Some (sg_baseline s))).
Proof.
  cbv zeta. unfold suggest_epoch_parameters. cbv zeta. split.
  - intros Hsf.
    assert (E1 : Py.Qltb (sfreq raw) 125 = false) by now apply Qltb_ge.
    rewrite E1.
    assert (Hval : validate_epoch_parameters raw (-(1 # 5)) (4 # 5)
                     (Some (-(1 # 5), 0)) = []).
    { unfold validate_epoch_parameters. cbv zeta.
      assert (Hn : (125 <= py_int (((4 # 5) - -(1 # 5)) * sfreq raw))%Z).
      { rewrite py_int_nonneg_floor by lra.
        change 125%Z with (Qfloor 125). apply Qfloor_resp_le. lra. }
      rewrite py_Zmax_max.
      destruct (Z.ltb_spec
                  (Z.max 1 (py_int (((4 # 5) - -(1 # 5)) * sfreq raw))) 10);
        [lia|reflexivity]. }
    destruct (Py.Qltb 1000 (sfreq raw)); exact Hval.
  - intros Hsf.
    assert (E1 : Py.Qltb (sfreq raw) 125 = true) by now apply Qltb_lt.
    rewrite E1. cbn [sg_tmin sg_tmax sg_baseline].
    unfold validate_epoch_parameters. cbv zeta.
    apply elem_of_app. right. cbn. apply list_elem_of_here.
Qed.

End EpochParamFacts.

Section EpochParamExamples.
Import Mne PyFmt EpochParams SimpleLib.


Lemma validate_epoch_parameters_nonpositive_witness :
  exists rest,
    validate_epoch_parameters raw256 1 1 None =
    "Epoch duration must be positive (tmax > tmin)"
    :: "Epochs will have very few samples" :: rest.
Proof.
  destruct (validate_epoch_parameters_nonpositive raw256 1 1 None)
    as (_ & H).
  apply H; vm_compute; discriminate.
Defined.

Lemma suggest_epoch_parameters_decimation_witness :
  0 < sfreq raw256 /\
  (1 <= sg_decim (suggest_epoch_parameters raw256))%Z.
Proof.
  assert (H : 0 < sfreq raw256) by reflexivity.
  split; [exact H|].
  now destruct (suggest_epoch_parameters_decimation raw256 H) as (Hd & _).
Defined.

Lemma suggested_parameters_validation_witness :
  "Baseline period must be within epoch time range"
  ∈ validate_epoch_parameters raw100
      (sg_tmin (suggest_epoch_parameters raw100))
      (sg_tmax (suggest_epoch_parameters raw100))
      (Some (sg_baseline (suggest_epoch_parameters raw100))).
Proof.
  destruct (suggested_parameters_validation raw100) as (_ & H).
  apply H. vm_compute. reflexivity.
Defined.

End EpochParamExamples.

(** ** Epoch builder, continued *)

Section EpochShape.
Import Mne EpochsMod.
Context `{lib : Library}.

(** X17: the result of [create_epochs_from_labels] has one of two
    shapes, whatever the recording, the request and the library do.
    Either it is a success: an epoch set with at least one epoch, an
    [event_id] that is not empty, whose labels were all requested and
    carry the codes the recording's annotations gave them, no error,
    and the manager remembers both; or it is a failure: no epoch set,
    no [event_id], an error message, and the manager unchanged. *)
Theorem create_epochs_result_shape (self : EpochManager) (raw : Raw)
    (labels_to_use : list string) (args : EpochArgs) :
  let out := create_epochs_from_labels self raw labels_to_use args in
  (exists epochs event_id,
     out = ((Some epochs, Some event_id, None),
            mkEpochManager (Some epochs) (Some event_id)) /\
     epoch_events epochs <> [] /\ event_id <> [] /\
     exists events mapping,
       events_from_annotations raw = Some (events, mapping) /\
       forall l c, (l, c) ∈ event_id ->
                   l ∈ labels_to_use /\ (l, c) ∈ mapping) \/
  (exists msg, out = ((None, None, Some msg), self)).
Proof.
  cbv zeta. unfold create_epochs_from_labels, create_epochs_body.
  destruct (length (annotations raw) =? 0)%nat; [right; eauto|].
  destruct (events_from_annotations raw) as [[events mapping]|] eqn:Hev;
    cbn [lift_opt run_bind]; [|right; eauto].
  destruct (length events =? 0)%nat; [right; eauto|].
  destruct (filter (fun lc => str_in (fst lc) labels_to_use = true) mapping)
    as [|lc0 eid] eqn:Hf; [right; eauto|].
  destruct (make_epochs raw events (lc0 :: eid) args) as [epochs|] eqn:Hep;
    cbn [lift_opt run_bind]; [|right; eauto].
  destruct (length (epoch_events epochs) =? 0)%nat eqn:Hlen;
    [right; eauto|].
  left. exists epochs, (lc0 :: eid). split; [reflexivity|].
  split.
  { intros Hnil. rewrite Hnil in Hlen. discriminate Hlen. }
  split; [discriminate|].
  exists events, mapping. split; [reflexivity|].
  intros l c Hin. rewrite <- Hf in Hin.
  apply list_elem_of_filter in Hin as (Hreq & Hin). cbn [fst] in Hreq.
  split; [now apply str_in_elem|exact Hin].
Qed.

End EpochShape.

(** ** Frame sequencer, continued *)

Section FrameShape.
Import Mne Np Windows Psd TemporalGif.
Context `{R : Float.Rounding} `{np : Numpy} `{lib : Library}.

Lemma fold_min_le xs x : fold_left Py.min xs x <= x.
Proof.
  revert x. induction xs as [|y xs IH]; intros x; cbn [fold_left].
  - lra.
  - specialize (IH (Py.min x y)). revert IH. py_minmax; intros; lra.
Qed.

Lemma fold_max_ge xs x : x <= fold_left Py.max xs x.
Proof.
  revert x. induction xs as [|y xs IH]; intros x; cbn [fold_left].
  - lra.
  - specialize (IH (Py.max x y)). revert IH. py_minmax; intros; lra.
Qed.

Lemma fold_min_le_elem xs x y : y ∈ xs -> fold_left Py.min xs x <= y.
Proof.
  revert x. induction xs as [|z xs IH]; intros x Hy.
  - now apply elem_of_nil in Hy.
  - cbn [fold_left]. apply elem_of_cons in Hy as [->|Hy].
    + pose proof (fold_min_le xs (Py.min x z)) as H. revert H.
      py_minmax; intros; lra.
    + now apply IH.
Qed.

Lemma fold_max_ge_elem xs x y : y ∈ xs -> y <= fold_left Py.max xs x.
Proof.
  revert x. induction xs as [|z xs IH]; intros x Hy.
  - now apply elem_of_nil in Hy.
  - cbn [fold_left]. apply elem_of_cons in Hy as [->|Hy].
    + pose proof (fold_max_ge xs (Py.max x z)) as H. revert H.
      py_minmax; intros; lra.
    + now apply IH.
Qed.

Lemma flat_min_le_max frames lo hi :
  flat_min frames = Some lo -> flat_max frames = Some hi -> lo <= hi.
Proof.
  unfold flat_min, flat_max. destruct (concat frames) as [|x xs];
    [discriminate|].
  intros [= <-] [= <-].
  pose proof (fold_min_le xs x). pose proof (fold_max_ge xs x). lra.
Qed.

Lemma flat_min_max_bounds frames lo hi x :
  flat_min frames = Some lo -> flat_max frames = Some hi ->
  x ∈ concat frames -> lo <= x /\ x <= hi.
Proof.
  unfold flat_min, flat_max. destruct (concat frames) as [|y ys];
    [discriminate|].
  intros [= <-] [= <-] Hx. apply elem_of_cons in Hx as [->|Hx].
  - split; [apply fold_min_le | apply fold_max_ge].
  - split; [now apply fold_min_le_elem | now apply fold_max_ge_elem].
Qed.

(** X18: the colour range is degenerate only if the nudge is lost.
    Whenever [color_range] returns [(vmin, vmax)], either
    [vmin < vmax], or all entries of the frames are one value [m] and
    the range is [(m - 1e-12, m + 1e-12)] as the float type rounds
    the two sums. *)
Theorem color_range_ordered (frames : list (list Q)) (pmin pmax : Q)
    (vr : Q * Q) :
  color_range frames pmin pmax = Returns vr ->
  fst vr < snd vr \/
  exists lo hi,
    lo == hi /\
    (forall x, x ∈ concat frames -> x == lo) /\
    vr = (Float.rnd (lo - Float.rnd nudge), Float.rnd (hi + Float.rnd nudge)).
Proof.
  unfold color_range.
  destruct (percentile frames pmin) as [vmin|]; [|discriminate].
  destruct (percentile frames pmax) as [vmax|]; [|discriminate].
  cbn [lift_opt run_bind].
  assert (Hfb : run_bind (lift_opt "min" (flat_min frames)) (fun lo =>
                run_bind (lift_opt "max" (flat_max frames)) (fun hi =>
                if Qeq_bool lo hi
                then Returns (Float.rnd (lo - Float.rnd nudge),
                              Float.rnd (hi + Float.rnd nudge))
                else Returns (lo, hi))) = Returns vr ->
                fst vr < snd vr \/
                exists lo hi,
                  lo == hi /\
                  (forall x, x ∈ concat frames -> x == lo) /\
                  vr = (Float.rnd (lo - Float.rnd nudge),
                        Float.rnd (hi + Float.rnd nudge))).
  { destruct (flat_min frames) as [lo|] eqn:Elo; [|discriminate].
    destruct (flat_max frames) as [hi|] eqn:Ehi; [|discriminate].
    cbn [lift_opt run_bind].
    pose proof (flat_min_le_max _ _ _ Elo Ehi) as Hle.
    destruct (Qeq_bool lo hi) eqn:E; intros [= <-]; cbn [fst snd].
    - apply Qeq_bool_true_iff in E. right. exists lo, hi.
      split; [exact E|]. split; [|reflexivity].
      intros x Hx.
      destruct (flat_min_max_bounds _ _ _ _ Elo Ehi Hx). lra.
    - left.
      assert (~ lo == hi)
        by (intros C; apply Qeq_bool_true_iff in C; congruence).
      lra. }
  destruct vmin as [lo|]; [|exact Hfb].
  destruct vmax as [hi|]; [|exact Hfb].
  destruct (Qle_bool hi lo) eqn:E; [exact Hfb|].
  intros [= <-]. left. cbn [fst snd]. bool_to_order. assumption.
Qed.

Lemma collect_frames_shape raw fmin fmax picks wins vals meta :
  collect_frames raw fmin fmax picks wins = Returns (vals, meta) ->
  length vals = length meta /\ sublist meta wins.
Proof.
  revert vals meta. induction wins as [|w wins IH]; intros vals meta Hrun.
  - injection Hrun as <- <-. split; [reflexivity|constructor].
  - cbn [collect_frames] in Hrun.
    destruct (window_frame raw fmin fmax picks w) as [f|e|];
      [|discriminate|discriminate].
    cbn [run_bind] in Hrun.
    destruct (collect_frames raw fmin fmax picks wins) as [[vs ms]|e|];
      [|discriminate|discriminate].
    cbn [run_bind] in Hrun. destruct (IH vs ms eq_refl) as (Hlen & Hsub).
    destruct f as [bp|]; injection Hrun as <- <-; cbn [fst snd length].
    + split; [now rewrite Hlen|now constructor].
    + split; [exact Hlen|now constructor].
Qed.

(** X19: a successful [build_frames] is well formed: the segment is at
    least 0.25 s long, there is at least one frame, one window per
    frame, the windows kept are windows of the generator (or the
    fallback window) in their order, all frames have the same number
    of channels, and the colour range is the one of the frames. *)
Theorem build_frames_success_shape fuel raw fmin fmax picks
    start end_ win_len step pmin pmax frames meta vr :
  build_frames fuel raw fmin fmax picks start end_ win_len step pmin pmax
  = Returns (Some (frames, meta, vr)) ->
  ~ Float.rnd (end_ - start) < 1 # 4 /\
  frames <> [] /\
  length frames = length meta /\
  (exists ws,
     sliding_windows fuel start end_ win_len step = Some ws /\
     sublist meta match ws with [] => [(start, end_)] | _ => ws end) /\
  (forall u v, u ∈ frames -> v ∈ frames -> length u = length v) /\
  color_range frames pmin pmax = Returns vr.
Proof.
  unfold build_frames.
  destruct (Py.Qltb (Float.rnd (end_ - start)) (1 # 4)) eqn:Elen;
    [discriminate|].
  destruct (sliding_windows fuel start end_ win_len step) as [ws|] eqn:Hws;
    [|discriminate].
  destruct (collect_frames raw fmin fmax picks _) as [[vals ms]|e|] eqn:Hc;
    [|discriminate|discriminate].
  cbn [run_bind fst snd].
  destruct (collect_frames_shape _ _ _ _ _ _ _ Hc) as (Hlen & Hsub).
  destruct vals as [|v vs]; [discriminate|].
  unfold vstack.
  destruct (forallb (fun u => (length u =? length v)%nat) vs) eqn:Hall;
    [|discriminate].
  cbn [run_bind].
  destruct (color_range (v :: vs) pmin pmax) as [vr'|e|] eqn:Hcr;
    [|discriminate|discriminate].
  cbn [run_bind]. intros [= <- <- <-].
  split; [bool_to_order; lra|].
  split; [discriminate|].
  split; [exact Hlen|].
  split; [exists ws; split; [reflexivity|exact Hsub]|].
  split; [|exact Hcr].
  assert (Hv : forall u, u ∈ v :: vs -> length u = length v).
  { intros u Hu. apply elem_of_cons in Hu as [->|Hu]; [reflexivity|].
    rewrite forallb_forall in Hall. apply Nat.eqb_eq, Hall.
    now apply list_elem_of_In. }
  intros u u' Hu Hu'. now rewrite (Hv u Hu), (Hv u' Hu').
Qed.

(** X20: [build_frames] does not terminate when the step does not
    advance: with [step <= 0], a segment of at least 0.25 s and a first
    window that fits, draining the generator runs out of any fuel
    (stated in exact arithmetic). *)
Theorem build_frames_diverges_without_progress raw fmin fmax picks
    start end_ win_len step pmin pmax :
  step <= 0 ->
  ~ end_ - start < 1 # 4 ->
  start + win_len <= end_ + tol ->
  forall fuel,
    build_frames (R := Float.exact) fuel raw fmin fmax picks
      start end_ win_len step pmin pmax
    = Diverges.
Proof.
  intros Hstep Hlen Hfit fuel. unfold build_frames.
  cbn [Float.rnd Float.exact].
  destruct (Py.Qltb (end_ - start) (1 # 4)) eqn:E.
  - apply Qltb_lt in E. contradiction.
  - now rewrite (sliding_windows_stuck end_ win_len step Hstep fuel start Hfit).
Qed.

End FrameShape.

Section FrameShapeExamples.
Import Mne Windows Psd TemporalGif SimpleLib.
#[local] Existing Instance Np.exact_mean.

Lemma color_range_ordered_witness :
  let vr := (Float.round64 (1 - Float.round64 nudge),
             Float.round64 (1 + Float.round64 nudge)) in
  color_range (R := Float.binary64) (lib := simple_library)
    [[1; 1]; [1; 1]] 5 95 = Returns vr /\
  fst vr < snd vr.
Proof.
  intros vr.
  assert (H : color_range (R := Float.binary64) (lib := simple_library)
                [[1; 1]; [1; 1]] 5 95 = Returns vr)
    by (vm_compute; reflexivity).
  split; [exact H|].
  destruct (color_range_ordered (R := Float.binary64)
              (lib := simple_library) _ _ _ _ H)
    as [Hlt|(lo & hi & _ & _ & _)]; [exact Hlt|].
  vm_compute. reflexivity.
Defined.

(** In double precision the nudge is lost on a large value: with every
    entry equal to [10038288.888005067] the range returned has
    [vmin = vmax]. *)
Lemma color_range_nudge_absorbed :
  let m := Float.round64 (10038288888005067 # 1000000000) in
  color_range (R := Float.binary64) (lib := simple_library)
    [[m; m]] 5 95 = Returns (m, m).
Proof. vm_compute. reflexivity. Qed.

Lemma build_frames_success_shape_witness :
  exists frames meta vr,
    build_frames (R := Float.binary64) (lib := strict_library) 10 raw_half
      8 13 None 0 (Float.round64 (49 # 100)) (1 # 4) (1 # 8) 5 95
    = Returns (Some (frames, meta, vr)) /\
    length frames = 2%nat /\ length meta = 2%nat.
Proof.
  destruct (build_frames (R := Float.binary64) (lib := strict_library) 10
              raw_half 8 13 None 0 (Float.round64 (49 # 100))
              (1 # 4) (1 # 8) 5 95)
    as [[[[frames meta] vr]|]|e|] eqn:Hrun;
    try (vm_compute in Hrun; discriminate Hrun).
  exists frames, meta, vr. split; [reflexivity|].
  destruct (build_frames_success_shape (R := Float.binary64)
              (lib := strict_library) _ _ _ _ _
              _ _ _ _ _ _ _ _ _ Hrun) as (_ & _ & Hlen & _ & _ & _).
  vm_compute in Hrun. injection Hrun as <- <- <-.
  split; reflexivity.
Defined.

Lemma build_frames_diverges_without_progress_witness :
  build_frames (R := Float.exact) (lib := simple_library) 1000 raw_half
    8 13 None 0 (1 # 2) (1 # 4) 0 5 95 = Diverges.
Proof.
  apply (build_frames_diverges_without_progress (lib := simple_library));
    vm_compute; discriminate.
Defined.

End FrameShapeExamples.

(** ** Filter pipeline, continued *)

Section PipelineCallFacts.
Import Mne Store Filtering PipelineCalls.
Context `{lib : Library}.

Section CallSteps.
Variables (proc : addr) (b : list string).

Lemma makes_calls_ret {A} sf (R : A -> Prop) (a : A) :
  R a -> makes_calls proc sf sf b [] R (ret a).
Proof.
  intros HR w p Hp Hsf Hb. cbn. rewrite app_nil_r. eauto 6.
Qed.

Lemma makes_calls_bind {A B} sf1 sf2 sf3 cs1 cs2
    (R1 : A -> Prop) (R2 : B -> Prop) (m : M A) (k : A -> M B) :
  makes_calls proc sf1 sf2 b cs1 R1 m ->
  (forall a, R1 a -> makes_calls proc sf2 sf3 b cs2 R2 (k a)) ->
  makes_calls proc sf1 sf3 b (cs1 ++ cs2) R2 (bind m k).
Proof.
  intros Hm Hk w p Hp Hsf Hb. unfold bind.
  specialize (Hm w p Hp Hsf Hb).
  destruct (m w) as [[a|e|] w1].
  - destruct Hm as (HR & Ht & p1 & Hp1 & Hsf1 & Hb1).
    specialize (Hk a HR w1 p1 Hp1 Hsf1 Hb1).
    destruct (k a w1) as [[c|e|] w2].
    + destruct Hk as (HR2 & Ht2 & Hp2). split; [exact HR2|].
      split; [|exact Hp2]. rewrite Ht2, Ht. now rewrite app_assoc.
    + destruct Hk as ((pre & Hpre & Ht2) & Hn). split; [|exact Hn].
      exists (cs1 ++ pre). split; [now apply prefix_app|].
      rewrite Ht2, Ht. now rewrite app_assoc.
    + exact Hk.
  - destruct Hm as ((pre & Hpre & Ht) & Hn). split; [|exact Hn].
    exists pre. split; [|exact Ht]. now apply prefix_app_r.
  - exact Hm.
Qed.

Lemma makes_calls_deref {A} sf1 sf2 cs (R : A -> Prop) (k : Raw -> M A) :
  (forall p, sfreq p = sf1 -> bads p = b ->
             makes_calls proc sf1 sf2 b cs R (k p)) ->
  makes_calls proc sf1 sf2 b cs R (bind (deref proc) k).
Proof.
  intros Hk w p Hp Hsf Hb. unfold bind, deref. rewrite Hp.
  exact (Hk p Hsf Hb w p Hp Hsf Hb).
Qed.

Lemma makes_calls_method sf1 sf2 c who (f : Raw -> option Raw) :
  (forall o o', f o = Some o' -> sfreq o = sf1 ->
                sfreq o' = sf2 /\ bads o' = bads o) ->
  (library_returns -> forall o, is_Some (f o)) ->
  makes_calls proc sf1 sf2 b [c] (fun _ => True) (method proc c who f).
Proof.
  intros Hf Htot w p Hp Hsf Hb. unfold method, bind, deref, log.
  rewrite Hp. destruct (f p) as [p'|] eqn:E; cbn.
  - split; [exact I|]. split; [reflexivity|].
    exists p'. rewrite lookup_insert_eq. split; [reflexivity|].
    destruct (Hf p p' E Hsf) as (H1 & H2). split; congruence.
  - split.
    + exists [c]. split; [reflexivity|reflexivity].
    + intros Hlib. destruct (Htot Hlib p) as [p' Hp']. congruence.
Qed.

Lemma makes_calls_data_method sf c who
    (g : Raw -> option (list (list Q))) :
  (library_returns -> forall o, is_Some (g o)) ->
  makes_calls proc sf sf b [c] (fun _ => True)
    (method proc c who (fun o => option_map (with_data o) (g o))).
Proof.
  intros Htot. apply makes_calls_method.
  - intros o o' Ho Hsf. destruct (g o); [|discriminate Ho].
    injection Ho as <-. split; [exact Hsf|reflexivity].
  - intros Hlib o. destruct (Htot Hlib o) as [d ->]. cbn. eauto.
Qed.

End CallSteps.

(** The calls of the steps after the copy. *)
Lemma pipeline_steps_make_calls proc (r : Raw)
    notch l_freq h_freq resample ref_avg interpolate :
  makes_calls proc (sfreq r) (current_rate r resample) (bads r)
    (expected_calls proc r notch l_freq h_freq resample ref_avg interpolate)
    (fun a => a = proc)
    (resample_step proc resample ;;;
     notch_step proc notch ;;;
     filter_step proc l_freq h_freq ;;;
     interpolate_step proc interpolate ;;;
     reference_step proc ref_avg ;;;
     ret proc).
Proof.
  unfold expected_calls.
  set (rate := current_rate r resample).
  apply makes_calls_bind with (sf2 := rate) (R1 := fun _ => True);
    [|intros _ _].
  { unfold resample_step. apply makes_calls_deref. intros p Hp Hb.
    unfold rate, current_rate. rewrite Hp.
    destruct resample as [q|]; [|now apply makes_calls_ret].
    destruct (truthy (Some q) && Py.Qltb rate_tol (Qabs (sfreq r - q)));
      [|now apply makes_calls_ret].
    apply makes_calls_method.
    - intros o o' Ho _. destruct (resample_data o q); [|discriminate Ho].
      injection Ho as <-. split; reflexivity.
    - intros Hlib o. destruct (Hlib o) as (Hr & _).
      destruct (Hr q) as [d ->]. cbn. eauto. }
  apply makes_calls_bind with (sf2 := rate) (R1 := fun _ => True);
    [|intros _ _].
  { unfold notch_step. destruct notch as [f|]; [|now apply makes_calls_ret].
    apply makes_calls_data_method.
    intros Hlib o. now destruct (Hlib o) as (_ & Hn & _). }
  apply makes_calls_bind with (sf2 := rate) (R1 := fun _ => True);
    [|intros _ _].
  { unfold filter_step.
    destruct (is_Some_b l_freq || is_Some_b h_freq);
      [|now apply makes_calls_ret].
    apply makes_calls_deref. intros p Hp Hb. rewrite Hp.
    apply makes_calls_data_method.
    intros Hlib o. now destruct (Hlib o) as (_ & _ & Hf & _). }
  apply makes_calls_bind with (sf2 := rate) (R1 := fun _ => True);
    [|intros _ _].
  { unfold interpolate_step. apply makes_calls_deref. intros p Hp Hb.
    rewrite Hb.
    destruct (interpolate && negb (length (bads r) =? 0)%nat);
      [|now apply makes_calls_ret].
    apply makes_calls_data_method.
    intros Hlib o. now destruct (Hlib o) as (_ & _ & _ & Hi & _). }
  rewrite <- (app_nil_r (if ref_avg then _ else _)).
  apply makes_calls_bind with (sf2 := rate) (R1 := fun _ => True);
    [|intros _ _; now apply makes_calls_ret].
  unfold reference_step. destruct ref_avg; [|now apply makes_calls_ret].
  apply makes_calls_data_method.
  intros Hlib o. now destruct (Hlib o) as (_ & _ & _ & _ & Ha).
Qed.

(** The trace of a run of the pipeline. *)
Lemma apply_pipeline_trace w raw r notch l_freq h_freq resample
    ref_avg interpolate :
  heap w !! raw = Some r ->
  let proc := fresh (dom (heap w)) in
  let expected :=
    expected_calls proc r notch l_freq h_freq resample ref_avg interpolate in
  let res :=
    apply_pipeline raw notch l_freq h_freq resample ref_avg interpolate w in
  exists calls,
    trace (snd res) = trace w ++ CallCopy raw proc :: calls /\
    calls `prefix_of` expected /\
    (forall a, fst res = Returns a -> calls = expected) /\
    (library_returns -> fst res = Returns proc).
Proof.
  intros Hraw proc expected res.
  set (w1 := mkWorld (<[proc := r]> (heap w))
               (trace w ++ [CallCopy raw proc])).
  set (rest := resample_step proc resample ;;;
               notch_step proc notch ;;;
               filter_step proc l_freq h_freq ;;;
               interpolate_step proc interpolate ;;;
               reference_step proc ref_avg ;;;
               ret proc).
  assert (Heq : res = rest w1).
  { unfold res, apply_pipeline, bind at 1, copy. now rewrite Hraw. }
  pose proof (pipeline_steps_make_calls proc r notch l_freq h_freq resample
                ref_avg interpolate w1 r) as Hrest.
  fold expected in Hrest. fold rest in Hrest.
  specialize (Hrest ltac:(unfold w1; cbn [heap]; apply lookup_insert_eq)
                eq_refl eq_refl).
  rewrite Heq. clear Heq. clearbody rest.
  destruct (rest w1) as [[a|e|] w'].
  - destruct Hrest as (-> & Ht & _).
    exists expected. cbn [fst snd]. rewrite Ht. unfold w1. cbn [trace].
    rewrite <- app_assoc. split; [reflexivity|].
    split; [reflexivity|]. split; [reflexivity|]. reflexivity.
  - destruct Hrest as ((pre & Hpre & Ht) & Hn).
    exists pre. cbn [fst snd]. rewrite Ht. unfold w1. cbn [trace].
    rewrite <- app_assoc. split; [reflexivity|].
    split; [exact Hpre|]. split; [discriminate|].
    intros Hlib. contradiction.
  - destruct Hrest.
Qed.

(** X21: the order of the pipeline.  After the copy, a run makes the
    calls resample, notch, band filter, interpolation and average
    reference in this order, each at most once and only when its
    parameter asks for it; the band filter gets the cutoff computed
    from the rate after the resampling step.  A run that returns made
    all of them, a run stopped by an exception made a prefix, and
    when the library routines return the run returns. *)
Theorem pipeline_call_sequence w raw r notch l_freq h_freq resample
    ref_avg interpolate :
  heap w !! raw = Some r ->
  let proc := fresh (dom (heap w)) in
  let expected :=
    expected_calls proc r notch l_freq h_freq resample ref_avg interpolate in
  let res :=
    apply_pipeline raw notch l_freq h_freq resample ref_avg interpolate w in
  exists calls,
    trace (snd res) = trace w ++ CallCopy raw proc :: calls /\
    calls `prefix_of` expected /\
    (forall a, fst res = Returns a -> calls = expected) /\
    (library_returns -> fst res = Returns proc /\ calls = expected).
Proof.
  intros Hraw proc expected res.
  destruct (apply_pipeline_trace w raw r notch l_freq h_freq resample
              ref_avg interpolate Hraw) as (calls & Ht & Hpre & Hret & Hlib).
  exists calls. split; [exact Ht|]. split; [exact Hpre|].
  split; [exact Hret|].
  intros H. specialize (Hlib H). split; [exact Hlib|].
  now apply (Hret proc).
Qed.

Lemma filter_cutoffs_expected proc (r : Raw) notch l_freq h_freq resample
    ref_avg interpolate :
  filter_cutoffs
    (expected_calls proc r notch l_freq h_freq resample ref_avg interpolate)
  = if is_Some_b l_freq || is_Some_b h_freq
    then [Py.min (py_or h_freq (current_rate r resample / 2 - 1))
            (current_rate r resample / 2 - 1)]
    else [].
Proof.
  unfold expected_calls. rewrite !filter_cutoffs_app.
  assert (H1 : filter_cutoffs
                 match resample with
                 | Some q =>
                     if truthy resample
                        && Py.Qltb rate_tol (Qabs (sfreq r - q))
                     then [CallResample proc q] else []
                 | None => []
                 end = []).
  { destruct resample as [q|]; [|reflexivity].
    now destruct (truthy (Some q) && _). }
  assert (H2 : filter_cutoffs
                 match notch with
                 | Some f => [CallNotchFilter proc f]
                 | None => []
                 end = []) by now destruct notch.
  assert (H3 : filter_cutoffs
                 (if interpolate && negb (length (bads r) =? 0)%nat
                  then [CallInterpolateBads proc] else []) = [])
    by now destruct (interpolate && _).
  assert (H4 : filter_cutoffs
                 (if ref_avg then [CallSetEegReference proc] else []) = [])
    by now destruct ref_avg.
  rewrite H1, H2, H3, H4. cbn [app]. rewrite app_nil_r.
  now destruct (is_Some_b l_freq || is_Some_b h_freq).
Qed.

Lemma run_cutoffs_expected w raw r notch l_freq h_freq resample
    ref_avg interpolate hf :
  heap w !! raw = Some r ->
  hf ∈ run_cutoffs w raw notch l_freq h_freq resample ref_avg interpolate ->
  hf = Py.min (py_or h_freq (current_rate r resample / 2 - 1))
         (current_rate r resample / 2 - 1).
Proof.
  intros Hraw Hin.
  destruct (apply_pipeline_trace w raw r notch l_freq h_freq resample
              ref_avg interpolate Hraw) as (calls & Ht & [k Hk] & _).
  unfold run_cutoffs in Hin. rewrite Ht, drop_app_length in Hin.
  change (filter_cutoffs (CallCopy raw (fresh (dom (heap w))) :: calls))
    with (filter_cutoffs calls) in Hin.
  assert (Hin' : hf ∈ filter_cutoffs
                   (expected_calls (fresh (dom (heap w))) r notch l_freq
                      h_freq resample ref_avg interpolate)).
  { rewrite Hk, filter_cutoffs_app. apply elem_of_app. now left. }
  rewrite filter_cutoffs_expected in Hin'.
  destruct (is_Some_b l_freq || is_Some_b h_freq).
  - now apply list_elem_of_singleton in Hin'.
  - now apply elem_of_nil in Hin'.
Qed.

(** X22: parameters the validator accepts are filtered as requested, up
    to 1 Hz.  When [validate_filter_params] reports no error for a
    low-pass [h], every band-filter call the pipeline makes has a
    cutoff in [[h - 1, h]]: the Nyquist clamp lowers an accepted
    request by at most 1 Hz. *)
Theorem validated_cutoff_within_1hz `{fmt : PyFmt.Format} w raw r
    notch l_freq h resample ref_avg interpolate :
  heap w !! raw = Some r ->
  Validation.validate_filter_params r l_freq (Some h) resample = [] ->
  forall hf,
    hf ∈ run_cutoffs w raw notch l_freq (Some h) resample
           ref_avg interpolate ->
    h - 1 <= hf /\ hf <= h.
Proof.
  intros Hraw Hval hf Hin.
  rewrite (run_cutoffs_expected _ _ _ _ _ _ _ _ _ _ Hraw Hin).
  unfold Validation.validate_filter_params in Hval. cbv zeta in Hval.
  apply app_eq_nil in Hval as (Hval & H4).
  apply app_eq_nil in Hval as (Hval & _).
  apply app_eq_nil in Hval as (_ & H2).
  destruct (Qle_bool h 0) eqn:E1; [discriminate H2|].
  destruct (Qle_bool (sfreq r / 2) h) eqn:E2; [discriminate H2|].
  bool_to_order.
  assert (Hor : forall d, py_or (Some h) d = h).
  { intros d. unfold py_or.
    destruct (Qeq_bool h 0) eqn:E; [|reflexivity].
    apply Qeq_bool_true_iff in E. lra. }
  rewrite Hor.
  assert (Hcap : h - 1 <= current_rate r resample / 2 - 1).
  { unfold current_rate. destruct resample as [q|]; [|lra].
    destruct (truthy (Some q) && _); [|lra].
    destruct (Qle_bool q 0) eqn:E3; [discriminate H4|].
    destruct (Py.Qltb (sfreq r) q) eqn:E4; [discriminate H4|].
    destruct (Py.Qltb q (2 * h)) eqn:E5; [discriminate H4|].
    bool_to_order.
    assert (Hq : q / 2 == q * (1 # 2)) by field. lra. }
  set (cap := current_rate r resample / 2 - 1) in *. clearbody cap.
  py_minmax; split; lra.
Qed.

(** X23: [apply_filters] always hands back a recording.  Called on a
    live recording it never raises and never loops; the object it
    returns is new, and the input and every other recording that
    existed are left as they were.  When a library routine raises
    inside the pipeline, what comes back is a plain copy of the
    input. *)
Theorem apply_filters_always_returns w raw r notch l_freq h_freq resample
    ref_avg interpolate :
  heap w !! raw = Some r ->
  exists a w',
    apply_filters raw notch l_freq h_freq resample ref_avg interpolate w
    = (Returns a, w') /\
    a <> raw /\ heap w !! a = None /\
    heap w' !! raw = Some r /\
    (forall x, is_Some (heap w !! x) -> heap w' !! x = heap w !! x) /\
    ((exists e, fst (apply_pipeline raw notch l_freq h_freq resample
                       ref_avg interpolate w) = Raises e) ->
     heap w' !! a = Some r).
Proof.
  intros Hraw.
  pose proof (apply_pipeline_summary w raw r notch l_freq h_freq resample
                ref_avg interpolate Hraw) as Hsum.
  cbv zeta in Hsum. unfold apply_filters.
  pose proof (fresh_addr_unused w) as Hfresh.
  set (proc := fresh (dom (heap w))) in *.
  assert (Hne : raw <> proc) by (intros ->; congruence).
  destruct (apply_pipeline raw notch l_freq h_freq resample ref_avg
              interpolate w) as [[b|e|] w1]; [| |destruct Hsum].
  - destruct Hsum as (-> & [Hf Ha _]).
    exists proc, w1. split; [reflexivity|].
    split; [congruence|]. split; [exact Hfresh|].
    split; [now rewrite Hf by congruence|].
    split.
    + intros x [y Hx]. apply Hf. intros ->. congruence.
    + intros (e & He). discriminate He.
  - destruct Hsum as ([Hf Ha _] & _).
    assert (Hraw1 : heap w1 !! raw = Some r)
      by now rewrite Hf by congruence.
    unfold copy. rewrite Hraw1.
    set (c := fresh (dom (heap w1))).
    assert (Hc : heap w1 !! c = None) by apply fresh_addr_unused.
    assert (Hcp : c <> proc).
    { intros Heq. rewrite Heq in Hc. destruct Ha as [y Hy]. congruence. }
    exists c, (mkWorld (<[c := r]> (heap w1))
                 (trace w1 ++ [CallCopy raw c])).
    split; [reflexivity|]. cbn [heap].
    split; [intros ->; congruence|].
    split; [now rewrite <- (Hf c Hcp)|].
    split.
    { rewrite lookup_insert_ne; [exact Hraw1|]. intros ->. congruence. }
    split.
    + intros x [y Hx].
      assert (x <> proc) by (intros ->; congruence).
      assert (Hx1 : heap w1 !! x = Some y) by now rewrite Hf.
      rewrite lookup_insert_ne; [now rewrite Hf|].
      intros ->. congruence.
    + intros _. apply lookup_insert_eq.
Qed.

End PipelineCallFacts.

Section PipelineCallExamples.
Import Mne Store Filtering PipelineCalls SimpleLib SimpleFmt.

Lemma pipeline_call_sequence_witness :
  trace (snd (apply_pipeline (lib := simple_library) 0%nat
                (Some 50) (Some 1) (Some 45) (Some 128) true false
                (world_of raw256)))
  = [CallCopy 0%nat 1%nat; CallResample 1%nat 128;
     CallNotchFilter 1%nat 50;
     CallFilter 1%nat (Some 1)
       (Py.min (py_or (Some 45) (current_rate raw256 (Some 128) / 2 - 1))
          (current_rate raw256 (Some 128) / 2 - 1));
     CallSetEegReference 1%nat].
Proof.
  destruct (pipeline_call_sequence (lib := simple_library)
              (world_of raw256) 0%nat raw256
              (Some 50) (Some 1) (Some 45) (Some 128) true false
              (world_of_lookup raw256))
    as (calls & Ht & _ & _ & Hlib).
  destruct (Hlib simple_library_returns) as (_ & ->).
  rewrite Ht. reflexivity.
Defined.

Lemma validated_cutoff_within_1hz_witness :
  Validation.validate_filter_params (fmt := simple_format) raw256
    (Some 1) (Some 45) (Some 128) = [] /\
  forall hf,
    hf ∈ run_cutoffs (lib := simple_library) (world_of raw256) 0%nat
           None (Some 1) (Some 45) (Some 128) true false ->
    45 - 1 <= hf /\ hf <= 45.
Proof.
  split; [reflexivity|].
  apply (validated_cutoff_within_1hz (lib := simple_library)
           (fmt := simple_format) (world_of raw256) 0%nat raw256).
  - apply world_of_lookup.
  - reflexivity.
Defined.

Lemma apply_filters_always_returns_witness :
  exists a w',
    apply_filters (lib := FailingLib.failing_filter_library) 0%nat
      (Some 50) (Some 1) (Some 45) None true false (world_of raw256)
    = (Returns a, w') /\
    heap w' !! 0%nat = Some raw256 /\
    heap w' !! a = Some raw256.
Proof.
  destruct (apply_filters_always_returns
              (lib := FailingLib.failing_filter_library)
              (world_of raw256) 0%nat raw256
              (Some 50) (Some 1) (Some 45) None true false
              (world_of_lookup raw256))
    as (a & w' & Hrun & _ & _ & Hsame & _ & Hcopy).
  exists a, w'. split; [exact Hrun|]. split; [exact Hsame|].
  apply Hcopy. eexists. vm_compute. reflexivity.
Defined.

End PipelineCallExamples.

(** ** Regional means *)

Section RegionalFacts.
Import Np Regional.
Context `{np : Numpy}.

Lemma name_to_idx_range names i c j :
  name_to_idx names i c = Some j -> (i <= j < i + length names)%nat.
Proof.
  revert i. induction names as [|ch names IH]; intros i H; cbn in H.
  - discriminate H.
  - destruct (name_to_idx names (S i) c) as [j'|] eqn:E.
    + injection H as <-. specialize (IH _ E). cbn [length]. lia.
    + destruct (String.eqb ch c); [|discriminate H].
      injection H as <-. cbn [length]. lia.
Qed.

Lemma name_to_idx_none names i c :
  name_to_idx names i c = None <-> EpochsMod.str_in c names = false.
Proof.
  revert i. induction names as [|ch names IH]; intros i; cbn.
  - tauto.
  - rewrite String.eqb_sym. destruct (name_to_idx names (S i) c) eqn:E.
    + assert (EpochsMod.str_in c names <> false).
      { intros C. apply (IH (S i)) in C. congruence. }
      destruct (EpochsMod.str_in c names) eqn:E'; [|congruence].
      unfold EpochsMod.str_in in E'. rewrite E', orb_true_r.
      split; discriminate.
    + apply IH in E. unfold EpochsMod.str_in in E. rewrite E, orb_false_r.
      destruct (c =? ch)%string; split; congruence.
Qed.

Lemma region_idxs_nil names (chs : list string) :
  omap (name_to_idx names 0) chs = [] <-> region_present names chs = false.
Proof.
  induction chs as [|c chs IH]; cbn.
  - tauto.
  - destruct (name_to_idx names 0 c) eqn:E.
    + assert (EpochsMod.str_in c names = true).
      { destruct (EpochsMod.str_in c names) eqn:E'; [reflexivity|].
        apply (name_to_idx_none names 0) in E'. congruence. }
      rewrite H. cbn. split; discriminate.
    + apply name_to_idx_none in E. rewrite E. cbn. exact IH.
Qed.

Lemma region_idxs_range names (chs : list string) j :
  j ∈ omap (name_to_idx names 0) chs -> (j < length names)%nat.
Proof.
  intros Hin. apply list_elem_of_omap in Hin as (c & _ & Hc).
  apply name_to_idx_range in Hc. lia.
Qed.

Lemma take_values_is_Some values idxs :
  (forall j, j ∈ idxs -> (j < length values)%nat) ->
  is_Some (take_values values idxs).
Proof.
  induction idxs as [|i idxs IH]; intros Hall; cbn.
  - eauto.
  - destruct (lookup_lt_is_Some_2 values i) as [v Hv].
    { apply Hall, list_elem_of_here. }
    rewrite Hv. destruct IH as [vs Hvs].
    { intros j Hj. apply Hall. now apply list_elem_of_further. }
    rewrite Hvs. eauto.
Qed.

Lemma take_values_elems values idxs vs :
  take_values values idxs = Some vs ->
  length vs = length idxs /\ forall x, x ∈ vs -> x ∈ values.
Proof.
  revert vs. induction idxs as [|i idxs IH]; intros vs H; cbn in H.
  - injection H as <-. split; [reflexivity|].
    intros x Hx. now apply elem_of_nil in Hx.
  - destruct (values !! i) as [v|] eqn:Hv; [|discriminate H].
    destruct (take_values values idxs) as [vs'|]; [|discriminate H].
    injection H as <-. destruct (IH vs' eq_refl) as (Hl & Hin).
    split; [cbn; now rewrite Hl|].
    intros x Hx. apply elem_of_cons in Hx as [->|Hx].
    + now apply list_elem_of_lookup_2 in Hv.
    + now apply Hin.
Qed.

(** One region of the loop, when no index can be out of range. *)
Lemma collect_regions_step reg chs regions names values :
  (length names <= length values)%nat ->
  collect_regions ((reg, chs) :: regions) names values =
  if region_present names chs
  then run_bind (collect_regions regions names values)
         (fun out =>
            Returns ((reg,
                      np_mean (default []
                                 (take_values values
                                    (omap (name_to_idx names 0) chs))))
                     :: out))
  else collect_regions regions names values.
Proof.
  intros Hlen. cbn [collect_regions].
  destruct (omap (name_to_idx names 0) chs) as [|i idxs] eqn:E.
  - apply region_idxs_nil in E. now rewrite E.
  - assert (Hp : region_present names chs = true).
    { destruct (region_present names chs) eqn:E'; [reflexivity|].
      apply region_idxs_nil in E'. congruence. }
    rewrite Hp.
    destruct (take_values_is_Some values (i :: idxs)) as [vs Hvs].
    { intros j Hj. rewrite <- E in Hj. apply region_idxs_range in Hj. lia. }
    now rewrite Hvs.
Qed.

(** X24: which regions are reported, and in which order.  When there
    is a value for every channel, [region_means] returns one entry for
    each region that has at least one of its channels among the channel
    names, and no entry for the others, ordered by region name:
    Frontal, Frontocentral, Occipital, Parietal, Temporal. *)
Theorem region_means_names (ch_names : list string) (values : list Q) :
  (length ch_names <= length values)%nat ->
  exists out,
    region_means ch_names values = Returns out /\
    map fst out =
    map fst (List.filter (fun rc => region_present ch_names (snd rc))
               regions_by_name).
Proof.
  intros Hlen. unfold region_means, REGIONS, regions_by_name.
  rewrite !(collect_regions_step _ _ _ _ _ Hlen).
  cbn [collect_regions List.filter snd].
  destruct (region_present ch_names ["AF3"; "AF4"; "F3"; "F4"; "F7"; "F8"]);
    destruct (region_present ch_names ["FC5"; "FC6"]);
    destruct (region_present ch_names ["T7"; "T8"]);
    destruct (region_present ch_names ["P7"; "P8"]);
    destruct (region_present ch_names ["O1"; "O2"]);
    cbn [run_bind]; eexists; (split; [reflexivity|reflexivity]).
Qed.

Lemma take_values_agree values values' idxs :
  (forall i, i ∈ idxs -> values !! i = values' !! i) ->
  take_values values idxs = take_values values' idxs.
Proof.
  induction idxs as [|i idxs IH]; intros Hall; [reflexivity|].
  cbn [take_values]. rewrite (Hall i (list_elem_of_here _ _)).
  rewrite IH; [reflexivity|].
  intros j Hj. apply Hall. now apply list_elem_of_further.
Qed.

Lemma collect_regions_agree regions names values values' :
  (forall reg chs c i,
     (reg, chs) ∈ regions -> c ∈ chs ->
     name_to_idx names 0 c = Some i -> values !! i = values' !! i) ->
  collect_regions regions names values
  = collect_regions regions names values'.
Proof.
  induction regions as [|[reg chs] regions IH]; intros Hall; [reflexivity|].
  cbn [collect_regions].
  assert (Hrest : collect_regions regions names values
                  = collect_regions regions names values').
  { apply IH. intros reg' chs' c i Hin. apply (Hall reg' chs' c i).
    now apply list_elem_of_further. }
  rewrite Hrest.
  rewrite (take_values_agree values values'
             (omap (name_to_idx names 0) chs)); [reflexivity|].
  intros i Hi. apply list_elem_of_omap in Hi as (c & Hc & Hidx).
  exact (Hall reg chs c i (list_elem_of_here _ _) Hc Hidx).
Qed.

(** X25: a regional mean reads the channels of its regions only.
    Two value arrays that agree on every channel that belongs to a
    region give the same result: the value of a channel outside the
    five regions, or of an index no channel name points to, changes
    nothing. *)
Theorem region_means_local (ch_names : list string)
    (values values' : list Q) :
  (forall reg chs c i,
     (reg, chs) ∈ REGIONS -> c ∈ chs ->
     name_to_idx ch_names 0 c = Some i -> values !! i = values' !! i) ->
  region_means ch_names values = region_means ch_names values'.
Proof.
  intros Hall. unfold region_means.
  now rewrite (collect_regions_agree REGIONS ch_names values values' Hall).
Qed.

End RegionalFacts.

Section RegionalExamples.
Import Np Regional.

Lemma region_means_names_witness :
  exists out,
    region_means (np := exact_mean)
      ["O2"; "AF3"; "T7"; "XX"]%string [4; 1; 2; 9]
    = Returns out /\
    map fst out = ["Frontal"; "Occipital"; "Temporal"]%string.
Proof.
  destruct (region_means_names (np := exact_mean)
              ["O2"; "AF3"; "T7"; "XX"]%string
              [4; 1; 2; 9]) as (out & Hrun & Hnames).
  - cbn. lia.
  - exists out. split; [exact Hrun|]. rewrite Hnames. reflexivity.
Defined.

Lemma region_means_local_witness :
  region_means (np := exact_mean) ["O2"; "XX"; "AF3"]%string [4; 9; 1]
  = region_means (np := exact_mean) ["O2"; "XX"; "AF3"]%string [4; 100; 1].
Proof.
  apply (region_means_local (np := exact_mean)).
  intros reg chs c i Hreg Hc Hidx.
  destruct i as [|[|[|i]]]; try reflexivity.
  exfalso. unfold REGIONS in Hreg.
  repeat (apply elem_of_cons in Hreg as [Hreg|Hreg];
          [injection Hreg as -> ->;
           repeat (apply elem_of_cons in Hc as [->|Hc];
                   [vm_compute in Hidx; discriminate Hidx|]);
           now apply elem_of_nil in Hc|]).
  now apply elem_of_nil in Hreg.
Defined.

End RegionalExamples.

(** ** Contrast, continued *)

Section ContrastSign.
Import Contrast.
Local Open Scope R_scope.

Lemma ln_10_pos : 0 < ln 10.
Proof. rewrite <- ln_1. apply ln_increasing; lra. Qed.

Lemma ln_pos_iff y : 0 < y -> (0 < ln y <-> 1 < y).
Proof.
  intros Hy. split; intros H.
  - apply ln_lt_inv; [lra|exact Hy|]. now rewrite ln_1.
  - rewrite <- ln_1. apply ln_increasing; lra.
Qed.

Lemma db_ratio_pos_iff a b :
  0 <= a -> 0 <= b -> (0 < db_ratio b a <-> a < b).
Proof.
  intros Ha Hb. pose proof eps_pos as He. pose proof ln_10_pos as HL.
  assert (Ha' : 0 < a + eps) by lra.
  assert (Hb' : 0 < b + eps) by lra.
  assert (Hy : 0 < (b + eps) / (a + eps)) by now apply Rdiv_lt_0_compat.
  assert (Hone : 1 < (b + eps) / (a + eps) <-> a < b).
  { split; intros H.
    - apply (Rmult_lt_compat_r (a + eps)) in H; [|exact Ha'].
      unfold Rdiv in H. rewrite Rmult_assoc, Rinv_l in H by lra. lra.
    - apply (Rmult_lt_reg_r (a + eps)); [exact Ha'|].
      unfold Rdiv. rewrite Rmult_assoc, Rinv_l by lra. lra. }
  rewrite <- Hone, <- (ln_pos_iff _ Hy).
  unfold db_ratio, log10.
  set (t := ln ((b + eps) / (a + eps))). clearbody t.
  assert (Hk : 0 < / ln 10) by now apply Rinv_0_lt_compat.
  unfold Rdiv. set (k := / ln 10) in *. clearbody k.
  split; intros H; nra.
Qed.

(** X26: the sign convention of the contrast.  For vectors of equal
    length with non-negative entries, an entry of [contrast_db(Pb, Pa)]
    is positive exactly when condition B has more power than condition
    A on that channel, negative exactly when it has less, and zero
    exactly when the two are equal. *)
Theorem contrast_db_sign (Pb Pa v : list R) :
  contrast_db Pb Pa = Some v ->
  Forall (Rle 0) Pa -> Forall (Rle 0) Pb ->
  forall (i : nat) a b x,
    Pa !! i = Some a -> Pb !! i = Some b -> v !! i = Some x ->
    (0 < x <-> a < b) /\ (x < 0 <-> b < a) /\ (x = 0 <-> a = b).
Proof.
  revert Pa v. induction Pb as [|b0 Pb IH]; intros [|a0 Pa] v Hrun HPa HPb;
    try discriminate Hrun.
  - intros i a b x Ha. destruct i; discriminate Ha.
  - cbn [contrast_db] in Hrun.
    destruct (contrast_db Pb Pa) as [v'|] eqn:Hv; [|discriminate Hrun].
    injection Hrun as <-.
    apply Forall_cons in HPa as [Ha0 HPa].
    apply Forall_cons in HPb as [Hb0 HPb].
    intros [|i] a b x Ha Hb Hx.
    + injection Ha as <-. injection Hb as <-. injection Hx as <-.
      pose proof (db_ratio_pos_iff a0 b0 Ha0 Hb0) as H1.
      pose proof (db_ratio_pos_iff b0 a0 Hb0 Ha0) as H2.
      rewrite (db_ratio_antisym a0 b0 Ha0 Hb0) in H2.
      split; [exact H1|]. split.
      * rewrite <- H2. split; lra.
      * split; intros H.
        -- destruct (Rtotal_order a0 b0) as [C|[C|C]];
             [apply H1 in C; lra|exact C|apply H2 in C; lra].
        -- subst b0. apply db_ratio_self. exact Ha0.
    + exact (IH Pa v' Hv HPa HPb i a b x Ha Hb Hx).
Qed.

Lemma contrast_db_sign_witness :
  exists v x, contrast_db [3; 0] [1; 2] = Some v /\
              v !! 0%nat = Some x /\ 0 < x.
Proof.
  exists [db_ratio 3 1; db_ratio 0 2], (db_ratio 3 1).
  split; [reflexivity|]. split; [reflexivity|].
  assert (Hrun : contrast_db [3; 0] [1; 2]
                 = Some [db_ratio 3 1; db_ratio 0 2]) by reflexivity.
  assert (HPa : Forall (Rle 0) [1; 2]) by (repeat constructor; lra).
  assert (HPb : Forall (Rle 0) [3; 0]) by (repeat constructor; lra).
  destruct (contrast_db_sign [3; 0] [1; 2] _ Hrun HPa HPb 0%nat 1 3
              (db_ratio 3 1) eq_refl eq_refl eq_refl) as (Hpos & _).
  apply Hpos. lra.
Defined.

End ContrastSign.

(** ** JSON markers *)

Section MarkersJsonFacts.
Import Mne Store MarkersCsv MarkersJson.
Context `{R : Float.Rounding} `{Sum : AnnotationSum}.
Variable isoparse : string -> option datetime.
Variable orig_time : Raw -> option datetime.

Lemma run_map_Returns {A B} (f : A -> run B) l ys :
  run_map f l = Returns ys -> Forall2 (fun x y => f x = Returns y) l ys.
Proof.
  revert ys. induction l as [|x l IH]; intros ys H.
  - injection H as <-. constructor.
  - cbn [run_map] in H. destruct (f x) as [y| |] eqn:Ex; try discriminate.
    cbn [run_bind] in H.
    destruct (run_map f l) as [ys'| |]; try discriminate.
    injection H as <-. constructor; [exact Ex|now apply IH].
Qed.

Lemma dt_sub_Returns a b q :
  dt_sub a b = Returns q -> aware a = aware b /\ q = instant a - instant b.
Proof.
  unfold dt_sub. destruct (Bool.eqb (aware a) (aware b)) eqn:E; [|discriminate].
  intros [= <-]. split; [now apply Bool.eqb_prop|reflexivity].
Qed.

Lemma min_from_spec acc rows m :
  min_from acc rows = Returns m ->
  aware m = aware acc /\
  Forall (fun x => aware (row_start x) = aware acc) rows /\
  instant m <= instant acc /\
  Forall (fun x => instant m <= instant (row_start x)) rows /\
  (m = acc \/ exists x, x ∈ rows /\ m = row_start x).
Proof.
  revert acc. induction rows as [|x rows IH]; intros acc H.
  - injection H as <-.
    split; [reflexivity|]. split; [constructor|]. split; [lra|].
    split; [constructor|now left].
  - cbn [min_from] in H. unfold dt_lt in H.
    destruct (Bool.eqb (aware (row_start x)) (aware acc)) eqn:E;
      [|discriminate].
    apply Bool.eqb_prop in E. cbn [run_bind] in H.
    destruct (Py.Qltb (instant (row_start x)) (instant acc)) eqn:El;
      apply IH in H as (Ha & Hall & Hle & Hmin & Hm).
    + apply Qltb_lt in El.
      split; [congruence|].
      split; [constructor; [exact E|]|].
      { eapply Forall_impl; [exact Hall|]. cbn. intros; congruence. }
      split; [lra|]. split; [now constructor|].
      right. destruct Hm as [->|(y & Hy & ->)].
      * exists x. split; [apply list_elem_of_here|reflexivity].
      * exists y. split; [now apply list_elem_of_further|reflexivity].
    + apply Qltb_ge in El.
      split; [exact Ha|]. split; [now constructor|].
      split; [exact Hle|]. split; [constructor; [lra|exact Hmin]|].
      destruct Hm as [->|(y & Hy & ->)]; [now left|].
      right. exists y. split; [now apply list_elem_of_further|reflexivity].
Qed.

Lemma earliest_spec rows s0 :
  earliest rows = Returns s0 ->
  Forall (fun x => aware (row_start x) = aware s0 /\
                   instant s0 <= instant (row_start x)) rows /\
  exists x, x ∈ rows /\ s0 = row_start x.
Proof.
  destruct rows as [|x rows]; [discriminate|]. cbn [earliest]. intros H.
  apply min_from_spec in H as (Ha & Hall & Hle & Hmin & Hm). split.
  - constructor; [split; [congruence|exact Hle]|].
    apply Forall_forall. intros y Hy. rewrite Forall_forall in Hall, Hmin.
    split; [rewrite (Hall y Hy); congruence|now apply Hmin].
  - destruct Hm as [->|(y & Hy & ->)].
    + exists x. split; [apply list_elem_of_here|reflexivity].
    + exists y. split; [now apply list_elem_of_further|reflexivity].
Qed.

(** X28: markers without a reference time.  When the recording's
    annotations have no reference time and the onsets are computed,
    they are counted from the earliest start: there is one onset per
    marker, none is negative, the earliest marker has onset 0, and all
    the starts were of one kind (all offset-aware or all naive). *)
Theorem onsets_rebased_on_earliest (rows : list row) (on : list Q) :
  onsets_of None rows = Returns on ->
  length on = length rows /\
  Forall (fun o => 0 <= o) on /\
  Exists (fun o => o == 0) on /\
  (forall x y, x ∈ rows -> y ∈ rows ->
     aware (row_start x) = aware (row_start y)).
Proof.
  cbn [onsets_of]. intros H.
  destruct (earliest rows) as [s0| |] eqn:Es; try discriminate.
  cbn [run_bind] in H. apply run_map_Returns in H.
  apply earliest_spec in Es as (Hall & y & Hy & Hs0).
  rewrite Forall_forall in Hall.
  split; [symmetry; exact (Forall2_length _ _ _ H)|]. split; [|split].
  - apply Forall_forall. intros o Ho.
    apply list_elem_of_lookup_1 in Ho as (i & Hi).
    destruct (Forall2_lookup_r _ _ _ _ _ H Hi) as (x & Hx & Hsub).
    apply dt_sub_Returns in Hsub as (_ & ->).
    apply list_elem_of_lookup_2 in Hx. apply Hall in Hx as (_ & Hx). lra.
  - apply list_elem_of_lookup_1 in Hy as (i & Hi).
    destruct (Forall2_lookup_l _ _ _ _ _ H Hi) as (o & Ho & Hsub).
    apply dt_sub_Returns in Hsub as (_ & ->).
    apply Exists_exists. eexists. split.
    + eapply list_elem_of_lookup_2, Ho.
    + cbn beta. rewrite Hs0. ring.
  - intros x1 x2 H1 H2.
    destruct (Hall _ H1) as (-> & _). now destruct (Hall _ H2) as (-> & _).
Qed.

Lemma parse_rows_length marks rows :
  parse_rows isoparse marks = Returns rows ->
  (length rows <= length marks)%nat.
Proof.
  revert rows. induction marks as [|m marks IH]; intros rows H.
  - injection H as <-. cbn. lia.
  - cbn [parse_rows] in H. cbn zeta in H. cbn [length].
    assert (Hskip : parse_rows isoparse marks = Returns rows ->
                    (length rows <= S (length marks))%nat)
      by (intros H'; apply IH in H'; lia).
    destruct (str_or (jm_startDatetime m) (jm_originalStartDatetime m))
      as [s|]; [|now apply Hskip].
    destruct (str_or (jm_endDatetime m) (jm_originalEndDatetime m))
      as [e|]; [|now apply Hskip].
    destruct (truthy_str (Some s) && truthy_str (Some e));
      [|now apply Hskip].
    destruct (isoparse s); [|discriminate]. cbn [lift_opt run_bind] in H.
    destruct (isoparse e); [|discriminate]. cbn [lift_opt run_bind] in H.
    destruct (parse_rows isoparse marks) as [rows'| |]; try discriminate.
    injection H as <-. cbn [length]. specialize (IH rows' eq_refl). lia.
Qed.

Lemma zip3_length {A B C} (xs : list A) (ys : list B) (zs : list C) :
  (length (zip3 xs ys zs) <= length zs)%nat.
Proof.
  revert ys zs. induction xs as [|x xs IH]; intros [|y ys] [|z zs];
    cbn [zip3 length]; try lia.
  specialize (IH ys zs). lia.
Qed.

(** X29: what an import from JSON can do.  The call never diverges.
    Either it leaves the store as it was, returning 0 or raising; or
    it returns the number of markers kept and, with one
    [set_annotations] call, sets the recording's annotations to the
    sum of the old ones and the markers.  That number is positive and
    at most the number of entries of the file, and every marker
    starts at or after 0, ends at or before [T], the time of the last
    sample, and has as duration the positive, rounded difference of
    its end and its start. *)
Theorem add_json_markers_outcome (w w' : World) (raw : addr)
    (marks : list JsonMarker) (res : run Z) :
  add_json_markers isoparse orig_time raw marks w = (res, w') ->
  (w' = w /\ (res = Returns 0%Z \/ exists e, res = Raises e)) \/
  (exists r T ann,
     heap w !! raw = Some r /\ last_time r = Some T /\ ann <> [] /\
     res = Returns (Z.of_nat (length ann)) /\
     w' = mkWorld
            (<[raw := with_annotations r
                        (annotations_add (annotations r) ann)]> (heap w))
            (trace w ++ [CallSetAnnotations raw]) /\
     (length ann <= length marks)%nat /\
     Forall (fun a => 0 <= onset a /\ 0 < duration a /\
                      exists e, e <= T /\
                                duration a = Float.rnd (e - onset a)) ann).
Proof.
  intros H. unfold add_json_markers in H.
  destruct marks as [|m0 marks0] eqn:Em.
  { injection H as <- <-. left. split; [reflexivity|now left]. }
  rewrite <- Em in *. clear Em.
  unfold bind, lift_run in H.
  destruct (parse_rows isoparse marks) as [rows|e|] eqn:Ep.
  2: { injection H as <- <-. left. split; [reflexivity|right; eauto]. }
  2: { exfalso. clear -Ep. revert Ep. generalize marks. clear.
       induction marks as [|m marks IH]; [discriminate|].
       cbn [parse_rows]. cbn zeta.
       destruct (str_or (jm_startDatetime m) (jm_originalStartDatetime m))
         as [s|]; [|exact IH].
       destruct (str_or (jm_endDatetime m) (jm_originalEndDatetime m))
         as [e|]; [|exact IH].
       destruct (truthy_str (Some s) && truthy_str (Some e)); [|exact IH].
       destruct (isoparse s); [|discriminate]. cbn [lift_opt run_bind].
       destruct (isoparse e); [|discriminate]. cbn [lift_opt run_bind].
       destruct (parse_rows isoparse marks); try discriminate.
       now exfalso. }
  destruct rows as [|x0 rows0] eqn:Er.
  { injection H as <- <-. left. split; [reflexivity|now left]. }
  rewrite <- Er in *.
  assert (Hmap : forall {A B} (f : A -> run B) l, run_map f l <> Diverges
                   \/ exists x, x ∈ l /\ f x = Diverges).
  { intros A B f l. induction l as [|x l IH]; [left; discriminate|].
    cbn [run_map]. destruct (f x) eqn:Ex.
    - cbn [run_bind]. destruct IH as [IH|(y & Hy & Hd)].
      + left. destruct (run_map f l); [discriminate|discriminate|congruence].
      + right. exists y. split; [now apply list_elem_of_further|exact Hd].
    - left. discriminate.
    - right. exists x. split; [apply list_elem_of_here|exact Ex]. }
  assert (Hsub : forall a b, dt_sub a b <> Diverges).
  { intros a b. unfold dt_sub. destruct (Bool.eqb _ _); discriminate. }
  destruct (run_map (fun x => dt_sub (row_end x) (row_start x)) rows)
    as [du|e|] eqn:Ed.
  2: { injection H as <- <-. left. split; [reflexivity|right; eauto]. }
  2: { exfalso.
       destruct (Hmap _ _ (fun x => dt_sub (row_end x) (row_start x)) rows)
         as [Hn|(y & _ & Hy)]; [congruence|now apply Hsub in Hy]. }
  unfold deref in H. destruct (heap w !! raw) as [r|] eqn:Hr.
  2: { injection H as <- <-. left. split; [reflexivity|right; eauto]. }
  destruct (onsets_of (orig_time r) rows) as [on|e|] eqn:Eo.
  2: { injection H as <- <-. left. split; [reflexivity|right; eauto]. }
  2: { exfalso. unfold onsets_of in Eo.
       destruct (orig_time r) as [b|].
       - destruct (Hmap _ _ (fun x => dt_sub (row_start x) b) rows)
           as [Hn|(y & _ & Hy)]; [congruence|now apply Hsub in Hy].
       - destruct (earliest rows) as [s0| |] eqn:Es; try discriminate.
         + cbn [run_bind] in Eo.
           destruct (Hmap _ _ (fun x => dt_sub (row_start x) s0) rows)
             as [Hn|(y & _ & Hy)]; [congruence|now apply Hsub in Hy].
         + clear -Es. destruct rows as [|x rows]; [discriminate|].
           cbn [earliest] in Es. revert Es. generalize (row_start x).
           induction rows as [|y rows IH]; intros acc; [discriminate|].
           cbn [min_from]. unfold dt_lt.
           destruct (Bool.eqb _ _); [|discriminate]. cbn [run_bind].
           apply IH. }
  destruct (last_time r) as [T|] eqn:ET; cbn [lift_opt] in H.
  2: { injection H as <- <-. left. split; [reflexivity|right; eauto]. }
  pose proof (kept_markers_ends T
                (zip3 (map num on) (map num du) (map row_label rows)))
    as Hends.
  destruct (kept_markers T
              (zip3 (map num on) (map num du) (map row_label rows)))
    as [ann|e|] eqn:Ek; [| |congruence].
  2: { injection H as <- <-. left. split; [reflexivity|right; eauto]. }
  destruct ann as [|a0 ann0] eqn:Ea.
  { injection H as <- <-. left. split; [reflexivity|now left]. }
  rewrite <- Ea in *.
  unfold method, bind, deref, log, store, ret in H. cbn [heap trace] in H.
  rewrite Hr in H. injection H as <- <-.
  right. exists r, T, ann.
  split; [reflexivity|]. split; [exact ET|].
  split; [rewrite Ea; discriminate|]. split; [reflexivity|].
  split; [reflexivity|]. split.
  - pose proof (kept_markers_length T _ _ Ek) as Hk.
    pose proof (zip3_length (map num on) (map num du) (map row_label rows))
      as Hz.
    rewrite length_map in Hz.
    pose proof (parse_rows_length _ _ Ep). lia.
  - apply Forall_forall. intros a Ha.
    destruct (kept_markers_sound T _ _ a Ek Ha)
      as (o & d & e & _ & _ & _ & _ & Hon & _ & HeT & Hdu & Hpos).
    split; [exact Hon|]. split; [exact Hpos|]. now exists e.
Qed.

(** X30: the JSON import follows the CSV rules.  Once the entries of
    the file are parsed, their durations taken and their onsets
    computed, importing them does exactly what the CSV import does on
    a table with those onsets as [latency], those durations as
    [duration] and the labels as [type]: same result, same store. *)
Theorem add_json_markers_as_csv (w : World) (raw : addr) (r : Raw)
    (marks : list JsonMarker) (rows : list row) (du on : list Q) :
  heap w !! raw = Some r ->
  parse_rows isoparse marks = Returns rows ->
  rows <> [] ->
  run_map (fun x => dt_sub (row_end x) (row_start x)) rows = Returns du ->
  onsets_of (orig_time r) rows = Returns on ->
  add_json_markers isoparse orig_time raw marks w
  = add_csv_markers raw
      (mkDataFrame ["latency"; "duration"; "type"]%string
         (map num on) (map num du) (map row_label rows)) w.
Proof.
  intros Hr Hp Hne Hd Ho.
  unfold add_json_markers, add_csv_markers.
  destruct marks as [|m0 marks0] eqn:Em.
  { injection Hp as <-. congruence. }
  rewrite <- Em in *. clear Em.
  destruct rows as [|x0 rows0] eqn:Er; [congruence|].
  rewrite <- Er in *.
  change (negb (has_columns _)) with false. cbn iota.
  cbn [col_latency col_duration col_type].
  unfold bind, lift_run, deref. rewrite Hp, Er, <- Er, Hd, Hr, Ho.
  destruct (last_time r) as [T|]; [|reflexivity]. cbn [lift_opt].
  destruct (kept_markers T
              (zip3 (map num on) (map num du) (map row_label rows)))
    as [[|a ann]|e|]; reflexivity.
Qed.

End MarkersJsonFacts.

Section MarkersJsonExamples.
Import Mne Store MarkersCsv MarkersJson SimpleLib.

Lemma onsets_rebased_on_earliest_witness :
  onsets_of None sample_rows = Returns [1 - 1; 2 - 1] /\
  Forall (fun o => 0 <= o) [1 - 1; 2 - 1] /\
  Exists (fun o => o == 0) [1 - 1; 2 - 1].
Proof.
  destruct (onsets_rebased_on_earliest sample_rows [1 - 1; 2 - 1] eq_refl)
    as (_ & Hpos & Hzero & _).
  split; [reflexivity|]. split; [exact Hpos|exact Hzero].
Defined.

Lemma add_json_markers_outcome_witness :
  (snd sample_import = world_of raw_events /\
   (fst sample_import = Returns 0%Z \/
    exists e, fst sample_import = Raises e)) \/
  (exists r T ann,
     heap (world_of raw_events) !! 0%nat = Some r /\
     last_time r = Some T /\ ann <> [] /\
     fst sample_import = Returns (Z.of_nat (length ann)) /\
     snd sample_import = mkWorld
            (<[0%nat := with_annotations r
                          (annotations_add (annotations r) ann)]>
               (heap (world_of raw_events)))
            (trace (world_of raw_events) ++ [CallSetAnnotations 0%nat]) /\
     (length ann <= length sample_marks)%nat /\
     Forall (fun a => 0 <= onset a /\ 0 < duration a /\
                      exists e, e <= T /\
                                duration a
                                = Float.round64 (e - onset a)) ann).
Proof.
  apply (add_json_markers_outcome (R := Float.binary64)
           sample_isoparse (fun _ => None)
           (world_of raw_events) (snd sample_import) 0%nat sample_marks
           (fst sample_import)).
  unfold sample_import.
  destruct (add_json_markers (R := Float.binary64) sample_isoparse
              (fun _ => None) 0%nat sample_marks (world_of raw_events)).
  reflexivity.
Defined.

(** The two sample markers are kept, the second clipped at the end of
    the recording, and stored in onset order with the two annotations
    the recording had. *)
Lemma add_json_markers_sample :
  let T := 1279 # 256 in
  fst sample_import = Returns 2%Z /\
  option_map annotations (heap (snd sample_import) !! 0%nat)
  = Some [mkAnnotation 0 1 "Blink"; mkAnnotation 1 (1 # 2) "Blink";
          mkAnnotation 1 (Float.round64 (T - 1)) "Marker";
          mkAnnotation 3 (1 # 2) "Rest"]%string.
Proof. split; vm_compute; reflexivity. Qed.

Lemma add_json_markers_as_csv_witness :
  add_json_markers (R := Float.binary64) sample_isoparse (fun _ => None)
    0%nat sample_marks (world_of raw_events)
  = add_csv_markers (R := Float.binary64) 0%nat
      (mkDataFrame ["latency"; "duration"; "type"]%string
         [num (1 - 1); num (2 - 1)] [num (2 - 1); num (9 - 2)]
         ["Blink"; "Marker"]%string)
      (world_of raw_events).
Proof.
  apply (add_json_markers_as_csv (R := Float.binary64)
           sample_isoparse (fun _ => None)
           (world_of raw_events) 0%nat raw_events sample_marks
           sample_rows [2 - 1; 9 - 2] [1 - 1; 2 - 1]).
  - apply world_of_lookup.
  - reflexivity.
  - discriminate.
  - reflexivity.
  - reflexivity.
Defined.

End MarkersJsonExamples.
